(** * ResTools: paper ingestion, classification, extraction and merge-back

    A shallow embedding of the pipeline of the ResTools repository
    (google_sheets_reader.py, papers_processor.py,
    batch_direct_upload_processor.py, batch_text_methodology_processor.py)
    and the properties its design document states about it.

    Python strings are sequences of Unicode code points; they are modelled
    as lists of code points ([N]).  A pandas DataFrame is modelled as its
    ordered column labels plus one finite map per row (label to cell); a
    missing key stands for NaN/None. *)

From Stdlib Require Import ZArith NArith String Ascii List Lia Bool.
From stdpp Require Import base option list gmap.

Set Default Proof Using "Type".
Open Scope N_scope.

(* ===================================================================== *)
(** ** Python strings *)
(* ===================================================================== *)

Abbreviation char := N (only parsing).
Abbreviation str := (list N) (only parsing).

(** An ASCII literal of the source as a list of code points. *)
Definition lit (s : string) : str :=
  List.map N_of_ascii (list_ascii_of_string s).

Definition NL : char := 10.   (* '\n' *)
Definition CR : char := 13.   (* '\r' *)
Definition TAB : char := 9.   (* '\t' *)
Definition SP : char := 32.   (* ' ' *)
Definition DASH : char := 45. (* '-' *)
Definition BULLET : char := 8226. (* U+2022 *)

(** [str.isspace] on one code point; the class [\s] of [re] on a [str]
    pattern and the default argument of [str.strip] use the same test. *)
Definition is_space (c : char) : bool :=
  ((9 <=? c) && (c <=? 13)) || ((28 <=? c) && (c <=? 32))
  || (c =? 133) || (c =? 160) || (c =? 5760)
  || ((8192 <=? c) && (c <=? 8202))
  || (c =? 8232) || (c =? 8233) || (c =? 8239) || (c =? 8287)
  || (c =? 12288).

(** The character class [[ \t]]. *)
Definition is_blank (c : char) : bool := (c =? SP) || (c =? TAB).

Fixpoint take_while (p : char -> bool) (s : str) : str :=
  match s with
  | c :: r => if p c then c :: take_while p r else []
  | [] => []
  end.

Fixpoint drop_while (p : char -> bool) (s : str) : str :=
  match s with
  | c :: r => if p c then drop_while p r else s
  | [] => []
  end.

(** [s.strip()] *)
Definition lstrip (s : str) : str := drop_while is_space s.
Definition rstrip (s : str) : str := reverse (drop_while is_space (reverse s)).
Definition strip (s : str) : str := rstrip (lstrip s).

(** [s.lower()].  Only the ASCII case map is modelled: the other case
    mappings of Python never produce an ASCII letter other than [k] and
    [i], so membership of the patterns below is not affected. *)
Definition lower_char (c : char) : char :=
  if (65 <=? c) && (c <=? 90) then c + 32 else c.
Definition lower (s : str) : str := List.map lower_char s.

Fixpoint str_eqb (s t : str) : bool :=
  match s, t with
  | [], [] => true
  | c :: s', d :: t' => (c =? d) && str_eqb s' t'
  | _, _ => false
  end.

(** [s.startswith(p)] *)
Fixpoint startswith (p s : str) : bool :=
  match p, s with
  | [], _ => true
  | c :: p', d :: s' => (c =? d) && startswith p' s'
  | _ :: _, [] => false
  end.

(** [s.endswith(p)] *)
Definition endswith (p s : str) : bool := startswith (reverse p) (reverse s).

(** [p in s] *)
Fixpoint contains (p s : str) : bool :=
  startswith p s ||
  match s with
  | [] => false
  | _ :: s' => contains p s'
  end.

(** [c in s] for one character. *)
Definition has_char (c : char) (s : str) : bool := existsb (N.eqb c) s.

(** [s.replace(c, d)] for one-character arguments. *)
Definition replace_char (c : char) (d : str) (s : str) : str :=
  flat_map (fun x => if x =? c then d else [x]) s.

(* ===================================================================== *)
(** ** re.sub *)
(* ===================================================================== *)

(** A compiled pattern, as [re.sub] uses it: given the character before
    the current position (for the anchor [^]) and the rest of the text, the
    length of the match that starts here, if there is one. *)
Definition matcher := option char -> str -> option nat.

(** [re.sub(pattern, repl, s)]: the text is scanned from the left; where
    the pattern matches, the match is replaced and the scan resumes after
    it; elsewhere the character is copied.  [skip] counts the characters
    of the current match that are still to be passed over.  None of the
    three patterns of the formatter matches the empty string. *)
Fixpoint sub_scan (m : matcher) (repl : str) (skip : nat)
    (prev : option char) (s : str) : str :=
  match s with
  | [] => []
  | c :: r =>
      match skip with
      | S k => sub_scan m repl k (Some c) r
      | O =>
          match m prev s with
          | Some (S n) => repl ++ sub_scan m repl n (Some c) r
          | _ => c :: sub_scan m repl 0 (Some c) r
          end
      end
  end.

Definition re_sub (m : matcher) (repl : str) (s : str) : str :=
  sub_scan m repl 0 None s.

(** [s.rfind(c)]: index of the last occurrence of [c]. *)
Fixpoint rfind_char (c : char) (s : str) : option nat :=
  match s with
  | [] => None
  | x :: r =>
      match rfind_char c r with
      | Some j => Some (S j)
      | None => if x =? c then Some O else None
      end
  end.

(** [\n\s*\n]: a newline, the longest run of white space that still ends
    before a newline, and that newline. *)
Definition blank_lines : matcher := fun _ s =>
  match s with
  | c :: r =>
      if c =? NL then
        match rfind_char NL (take_while is_space r) with
        | Some j => Some (S (S j))
        | None => None
        end
      else None
  | [] => None
  end.

(** [[ \t]+] *)
Definition blank_run : matcher := fun _ s =>
  match length (take_while is_blank s) with
  | O => None
  | n => Some n
  end.

(** [^] under [re.MULTILINE]: start of the text or just after ['\n']. *)
Definition line_start (prev : option char) : bool :=
  match prev with
  | None => true
  | Some c => c =? NL
  end.

(** [^\s*-\s*] under [re.MULTILINE]. *)
Definition bullet_lead : matcher := fun prev s =>
  if line_start prev then
    let a := take_while is_space s in
    match drop_while is_space s with
    | c :: r =>
        if c =? DASH then
          Some (length a + 1 + length (take_while is_space r))%nat
        else None
    | [] => None
    end
  else None.

(* ===================================================================== *)
(** ** Sheet formatter (format_for_google_sheets) *)
(* ===================================================================== *)

Definition CELL_CAP : nat := Z.to_nat 45000.

Definition TRUNCATION_TEXT : str :=
  Eval cbv in lit "[Summary truncated due to length]".

(** ["\n\n[Summary truncated due to length]"] *)
Definition TRUNCATION_MARKER : str := NL :: NL :: TRUNCATION_TEXT.

(** The three substitutions, in the order of the source. *)
Definition normalize (text : str) : str :=
  let text := re_sub blank_lines [NL] text in
  let text := re_sub blank_run [SP] text in
  re_sub bullet_lead [BULLET; SP] text.

(** [if len(text) > 45000: text = text[:45000] + marker] *)
Definition cap_length (text : str) : str :=
  if (CELL_CAP <? length text)%nat
  then take CELL_CAP text ++ TRUNCATION_MARKER
  else text.

(** The argument is [None] for a missing text. *)
Definition format_for_google_sheets (text : option str) : str :=
  match text with
  | None => []
  | Some [] => []
  | Some t => strip (cap_length (normalize t))
  end.

(* ===================================================================== *)
(** ** Exceptions and results *)
(* ===================================================================== *)

Inductive exn := ValueError.

Inductive result (A : Type) : Type :=
  | Ok (a : A)
  | Raise (e : exn).
Arguments Ok {A} a.
Arguments Raise {A} e.

(* ===================================================================== *)
(** ** urllib.parse.urlparse (CPython 3.11), path component *)
(* ===================================================================== *)

Section UrlParse.

(** The two validations of the network location that the library does
    beyond the bracket check below: [_check_bracketed_netloc] (called
    when the location has both brackets) and [_checknetloc] (which acts
    on a location with a non-ASCII character).  They depend on address
    parsing and Unicode normalisation, which are not modelled; [false]
    stands for their [ValueError]. *)
Variable netloc_ok : str -> bool.

Definition is_ascii_alpha (c : char) : bool :=
  ((65 <=? c) && (c <=? 90)) || ((97 <=? c) && (c <=? 122)).
Definition is_ascii_digit (c : char) : bool := (48 <=? c) && (c <=? 57).

(** membership of [scheme_chars] *)
Definition is_scheme_char (c : char) : bool :=
  is_ascii_alpha c || is_ascii_digit c
  || (c =? 43) || (c =? 45) || (c =? 46).

(** membership of [_WHATWG_C0_CONTROL_OR_SPACE] *)
Definition is_c0_or_space (c : char) : bool := c <=? 32.

(** membership of [_UNSAFE_URL_BYTES_TO_REMOVE] *)
Definition is_unsafe (c : char) : bool :=
  (c =? TAB) || (c =? CR) || (c =? NL).

Definition uses_params : list str :=
  List.map lit
    [""; "ftp"; "hdl"; "prospero"; "http"; "imap"; "https"; "shttp";
     "rtsp"; "rtspu"; "sip"; "sips"; "mms"; "sftp"; "tel"]%string.

(** [s.find(c)] *)
Fixpoint find_char (c : char) (s : str) : option nat :=
  match s with
  | [] => None
  | x :: r => if x =? c then Some O else option_map S (find_char c r)
  end.

(** [s.split(c, 1)[0]], which is [s] when [c] does not occur. *)
Definition before_char (c : char) (s : str) : str :=
  take_while (fun x => negb (x =? c)) s.

(** The scheme and the rest of the URL. *)
Definition split_scheme (url : str) : str * str :=
  match find_char 58 url, url with
  | Some (S i), c0 :: _ =>
      if is_ascii_alpha c0 && forallb is_scheme_char (take (S i) url)
      then (lower (take (S i) url), drop (S (S i)) url)
      else ([], url)
  | _, _ => ([], url)
  end.

Definition is_netloc_delim (c : char) : bool :=
  (c =? 47) || (c =? 63) || (c =? 35).

(** [_splitnetloc(url, 2)] *)
Definition splitnetloc (url : str) : str * str :=
  let r := drop 2 url in
  (take_while (fun c => negb (is_netloc_delim c)) r,
   drop_while (fun c => negb (is_netloc_delim c)) r).

Definition is_ascii (s : str) : bool := forallb (fun c => c <? 128) s.

(** [urlsplit(url)]: the scheme and the path, or [ValueError]. *)
Definition urlsplit (url : str) : result (str * str) :=
  let url := drop_while is_c0_or_space url in
  let url := List.filter (fun c => negb (is_unsafe c)) url in
  let '(scheme, url) := split_scheme url in
  let cut u := before_char 63 (before_char 35 u) in
  if startswith [47; 47] url then
    let '(netloc, rest) := splitnetloc url in
    let lb := has_char 91 netloc in
    let rb := has_char 93 netloc in
    if (lb && negb rb) || (rb && negb lb) then Raise ValueError
    else if lb && rb && negb (netloc_ok netloc) then Raise ValueError
    else if negb (is_ascii netloc) && negb (netloc_ok netloc)
         then Raise ValueError
    else Ok (scheme, cut rest)
  else Ok (scheme, cut url).

(** [_splitparams(url)[0]] for a [url] in which [';'] occurs. *)
Definition splitparams (url : str) : str :=
  match rfind_char 47 url with
  | Some k => take k url ++ before_char 59 (drop k url)
  | None => before_char 59 url
  end.

(** [urlparse(url).path] *)
Definition urlparse_path (url : str) : result str :=
  match urlsplit url with
  | Raise e => Raise e
  | Ok (scheme, path) =>
      if existsb (str_eqb scheme) uses_params && has_char 59 path
      then Ok (splitparams path)
      else Ok path
  end.

(* =================================================================== *)
(** ** Link classifier (_is_pdf_url) *)
(* =================================================================== *)

(** The values a link cell or a caller can hand to the classifier. *)
Inductive pyval :=
  | PyNone
  | PyStr (s : str)
  | PyInt (z : Z).

Definition pdf_patterns : list str :=
  List.map lit
    ["pdf"; "/pdf/"; "format=pdf"; "type=pdf"; "filetype=pdf";
     "download=pdf"]%string.

Definition DOT_PDF : str := Eval cbv in lit ".pdf".

Definition is_pdf_url (url : pyval) : result bool :=
  match url with
  | PyStr ((_ :: _) as u) =>
      match urlparse_path u with
      | Raise e => Raise e
      | Ok path =>
          if endswith DOT_PDF (lower path) then Ok true
          else Ok (existsb (fun pattern => contains pattern (lower u))
                     pdf_patterns)
      end
  | _ => Ok false   (* not url or not isinstance(url, str) *)
  end.

End UrlParse.

(* ===================================================================== *)
(** ** DataFrame *)
(* ===================================================================== *)

(** One row: column label to cell.  A label without a value is a missing
    cell (NaN/None, as left by a short sheet row).  Column labels are taken
    to be distinct, as pandas needs for access by label. *)
Abbreviation row := (gmap (list N) (list N)) (only parsing).

Record DataFrame := {
  columns : list str;
  rows : list row;
}.

(** [df[c] = v] for a scalar [v]: the column is overwritten if it exists
    and appended otherwise. *)
Definition set_column (c : str) (v : str) (df : DataFrame) : DataFrame :=
  {| columns := if decide (c ∈ columns df) then columns df
                else columns df ++ [c];
     rows := (fun r : row => <[c := v]> r) <$> rows df |}.

(** [df.at[i, c] = v] for a row index of the frame. *)
Definition at_set (i : nat) (c : str) (v : str) (df : DataFrame) : DataFrame :=
  {| columns := columns df;
     rows := alter (fun r : row => <[c := v]> r) i (rows df) |}.

(** [df.at[i, c]]; [None] is NaN. *)
Definition at_get (df : DataFrame) (i : nat) (c : str) : option str :=
  rows df !! i ≫= fun r : row => r !! c.

(** [df.empty] *)
Definition df_empty (df : DataFrame) : bool :=
  match columns df, rows df with
  | _ :: _, _ :: _ => false
  | _, _ => true
  end.

Definition COL_AVAILABLE : str := Eval cbv in lit "PDF Available".
Definition COL_ID : str := Eval cbv in lit "PDF ID".
Definition COL_PATH : str := Eval cbv in lit "PDF Path".
Definition COL_METHODOLOGY : str := Eval cbv in lit "Methodology".
Definition YES : str := Eval cbv in lit "Yes".
Definition NO : str := Eval cbv in lit "No".
Definition FAILED : str := Eval cbv in lit "Failed".

(* ===================================================================== *)
(** ** Identifier allocator (_generate_unique_id) *)
(* ===================================================================== *)

Definition hex_digit (d : N) : char := if d <? 10 then 48 + d else 87 + d.

(** ['%0kx' % n], the [k] low hexadecimal digits of [n]. *)
Fixpoint hex_digits (k : nat) (n : N) : str :=
  match k with
  | O => []
  | S k' => hex_digits k' (n / 16) ++ [hex_digit (n mod 16)]
  end.

(** [str(u)] for a UUID given by its 128-bit integer. *)
Definition uuid_str (u : N) : str :=
  let hex := hex_digits 32 u in
  take 8 hex ++ [DASH] ++ take 4 (drop 8 hex) ++ [DASH]
  ++ take 4 (drop 12 hex) ++ [DASH] ++ take 4 (drop 16 hex) ++ [DASH]
  ++ drop 20 hex.

(** [str(uuid.uuid4())[:8]] on the drawn UUID. *)
Definition generate_unique_id (u : N) : str := take 8 (uuid_str u).

(* ===================================================================== *)
(** ** Document fetcher (_download_pdf) *)
(* ===================================================================== *)

(** What one [requests.get] does. *)
Inductive fetch_outcome :=
  | Fetched                 (* the body was written to disk *)
  | BadStatus               (* raise_for_status raised *)
  | RequestFailed           (* timeout, DNS failure, connection reset *)
  | OtherFailure.           (* any other exception, e.g. on the file *)

(** The world of one pass over the sheet.  A row draws at most one UUID and
    makes at most one request, so both are indexed by the row. *)
Record World := {
  uuid4 : nat -> N;
  http_get : nat -> str -> fetch_outcome;
}.

Definition PDF_DIR : str := Eval cbv in lit "papers_pdf_id".

(** [str(self.pdf_dir / f"{unique_id}.pdf")] *)
Definition pdf_filepath (unique_id : str) : str :=
  PDF_DIR ++ [47] ++ unique_id ++ DOT_PDF.

(** The path of the stored file, [None] on failure. *)
Definition download_pdf (w : World) (i : nat) (url unique_id : str)
  : option str :=
  match http_get w i url with
  | Fetched => Some (pdf_filepath unique_id)
  | BadStatus | RequestFailed => None   (* except RequestException *)
  | OtherFailure => None                (* except Exception *)
  end.

(* ===================================================================== *)
(** ** process_links_and_download_pdfs *)
(* ===================================================================== *)

Section Download.

Variable netloc_ok : str -> bool.
Variable w : World.
Variable link_column : str.

(** The loop over [df.iterrows()]: [todo] are the rows still to be
    visited, [i] the index of the first of them, [df] the frame the
    loop writes to. *)
Fixpoint links_loop (i : nat) (todo : list row) (df : DataFrame)
  : result DataFrame :=
  match todo with
  | [] => Ok df
  | r :: rest =>
      match r !! link_column with
      | None => links_loop (S i) rest df            (* pd.isna(url) *)
      | Some url =>
          match strip url with
          | [] => links_loop (S i) rest df          (* not url.strip() *)
          | _ :: _ =>
              match is_pdf_url netloc_ok (PyStr url) with
              | Raise e => Raise e
              | Ok false => links_loop (S i) rest df
              | Ok true =>
                  let unique_id := generate_unique_id (uuid4 w i) in
                  match download_pdf w i url unique_id with
                  | Some pdf_path =>
                      links_loop (S i) rest
                        (at_set i COL_PATH pdf_path
                          (at_set i COL_ID unique_id
                            (at_set i COL_AVAILABLE YES df)))
                  | None =>
                      links_loop (S i) rest
                        (at_set i COL_AVAILABLE FAILED df)
                  end
              end
          end
      end
  end.

Definition process_links_and_download_pdfs (df : DataFrame)
  : result DataFrame :=
  if decide (link_column ∈ columns df) then
    let df := set_column COL_AVAILABLE NO df in
    let df := set_column COL_ID [] df in
    let df := set_column COL_PATH [] df in
    links_loop 0 (rows df) df
  else Ok df.

End Download.

(* ===================================================================== *)
(** ** update_sheet_with_pdf_info: the request sent to the sheet *)
(* ===================================================================== *)

(** [str(value).replace('\n', ' ').replace('\r', ' ')] after
    [fillna('')]. *)
Definition clean_cell (cell : option str) : str :=
  match cell with
  | None => []
  | Some v => replace_char CR [SP] (replace_char NL [SP] v)
  end.

Definition data_rows (df : DataFrame) : list (list str) :=
  (fun r : row => (fun c => clean_cell (r !! c)) <$> columns df) <$> rows df.

(** [[headers] + data_rows] *)
Definition sheet_data (df : DataFrame) : list (list str) :=
  columns df :: data_rows df.

(** [chr(i)]; it raises outside the code point range. *)
Definition chr (i : Z) : option char :=
  if ((0 <=? i) && (i <? 1114112))%Z then Some (Z.to_N i) else None.

Fixpoint uint_chars (u : Decimal.uint) : str :=
  match u with
  | Decimal.Nil => []
  | Decimal.D0 u => 48 :: uint_chars u
  | Decimal.D1 u => 49 :: uint_chars u
  | Decimal.D2 u => 50 :: uint_chars u
  | Decimal.D3 u => 51 :: uint_chars u
  | Decimal.D4 u => 52 :: uint_chars u
  | Decimal.D5 u => 53 :: uint_chars u
  | Decimal.D6 u => 54 :: uint_chars u
  | Decimal.D7 u => 55 :: uint_chars u
  | Decimal.D8 u => 56 :: uint_chars u
  | Decimal.D9 u => 57 :: uint_chars u
  end.

(** [str(n)] for a natural number. *)
Definition decimal (n : nat) : str := uint_chars (Nat.to_uint n).

(** [chr(ord('A') + len(headers) - 1)] *)
Definition end_col (df : DataFrame) : option char :=
  chr (65 + Z.of_nat (length (columns df)) - 1).

(** [len(data)] *)
Definition end_row (df : DataFrame) : nat := length (sheet_data df).

(** The range and the values that the method sends in its update call;
    [None] when [chr] raises, which the method reports as a failed
    update. *)
Definition update_sheet_with_pdf_info (worksheet_name : str) (df : DataFrame)
  : option (str * list (list str)) :=
  match end_col df with
  | Some col =>
      Some (worksheet_name ++ lit "!A1:" ++ [col] ++ decimal (end_row df),
            sheet_data df)
  | None => None
  end.

(* ===================================================================== *)
(** ** Calls to the extraction capability *)
(* ===================================================================== *)

(** The external calls of one extraction, in the order they are made. *)
Inductive call :=
  | FilesCreate (pdf_name : str)
  | AssistantsCreate
  | ThreadsCreate
  | MessagesCreate (file_id : str)
  | RunsCreate
  | RunsRetrieve
  | MessagesList
  | ChatCompletionsCreate (prompt : str)
  | ExtractText (pdf_name : str)
  | WriteSummary (pdf_name : str) (text : str).

(** How a computation ends: with a value, with an exception, or never
    (a job that stays pending keeps the poll loop running). *)
Inductive res (A : Type) : Type :=
  | Val (a : A)
  | Thrown
  | Hangs.
Arguments Val {A} a.
Arguments Thrown {A}.
Arguments Hangs {A}.

(** A computation: its end and the calls it made. *)
Definition M (A : Type) : Type := res A * list call.

Definition ret {A} (a : A) : M A := (Val a, []).

Definition bind {A B} (m : M A) (f : A -> M B) : M B :=
  match m with
  | (Val a, l) => let '(r, l') := f a in (r, l ++ l')
  | (Thrown, l) => (Thrown, l)
  | (Hangs, l) => (Hangs, l)
  end.

(** [try: m  except Exception: h] *)
Definition try_except {A} (m : M A) (h : M A) : M A :=
  match m with
  | (Thrown, l) => let '(r, l') := h in (r, l ++ l')
  | _ => m
  end.

(** One external call; [None] is a raised exception. *)
Definition perform {A} (c : call) (response : option A) : M A :=
  (match response with Some a => Val a | None => Thrown end, [c]).

Definition guard_ok (b : bool) : option unit :=
  if b then Some tt else None.

Notation "x <- m ;; k" := (bind m (fun x => k))
  (at level 200, m at level 99, k at level 200, only parsing).

(** Python truth value of a summary or file id that may be [None]. *)
Definition truthy (o : option str) : bool :=
  match o with
  | Some (_ :: _) => true
  | _ => false
  end.

(** [Path(name).stem] *)
Definition stem (name : str) : str :=
  match rfind_char 46 name with
  | Some (S i) => if (S (S i) <? length name)%nat then take (S i) name else name
  | _ => name
  end.

(* ===================================================================== *)
(** ** Extraction engine, document upload variant *)
(* ===================================================================== *)

(** What the extraction capability answers for one document. *)
Record Api := {
  files_create : option str;           (* the file id *)
  assistants_create : bool;
  threads_create : bool;
  messages_create : bool;
  runs_create : option str;            (* status of the new run *)
  runs_retrieve : list (option str);   (* status at each later poll *)
  messages_list : option str;          (* text of the first message *)
  assistants_write : bool;             (* the summary file can be written *)
  chat_create : option str;            (* text of the completion *)
  chat_write : bool;
}.

Definition COMPLETED : str := Eval cbv in lit "completed".

Definition pending_states : list str :=
  List.map lit ["queued"; "in_progress"; "requires_action"]%string.

Definition is_pending (status : str) : bool :=
  existsb (str_eqb status) pending_states.

(** [while run.status in [...]: time.sleep(2); run = retrieve(...)] *)
Fixpoint poll (responses : list (option str)) (status : str) : M str :=
  if is_pending status then
    match responses with
    | [] => (Hangs, [])
    | r :: rest => s <- perform RunsRetrieve r ;; poll rest s
    end
  else ret status.

Definition CHAT_PROMPT_HEAD : str := lit "I have uploaded a PDF file with ID: ".
Definition CHAT_PROMPT_BODY : str := lit "

Please analyze this PDF and provide a comprehensive summary of the methodology in the following format:

1. **Methodology Overview** (2-3 sentences describing the overall approach)

2. **Key Steps in Bullet Points:**
   - Step 1: [Description]
   - Step 2: [Description]
   - Step 3: [Description]
   - [Continue as needed]

3. **Methodology Flow:**
   [Describe the logical flow and sequence of the methodology in paragraph form]

4. **Key Techniques/Tools Used:**
   - [List main techniques, algorithms, or tools used]

5. **Data Sources/Inputs:**
   - [Describe what data or inputs are used in the methodology]

6. **Output/Results:**
   - [Describe what the methodology produces or outputs]

Please focus specifically on the methodology section and make it clear and easy to understand like whats the approach, what are the key steps and architectural framework.

Note: The file ID is ".
Definition CHAT_PROMPT_TAIL : str := lit " - please reference this file in your analysis.".

Definition chat_prompt (file_id : str) : str :=
  CHAT_PROMPT_HEAD ++ file_id ++ CHAT_PROMPT_BODY ++ file_id
  ++ CHAT_PROMPT_TAIL.

Section DirectUpload.

Variable api : Api.

Definition upload_pdf_to_openai (pdf_name : str) : M (option str) :=
  try_except
    (file_id <- perform (FilesCreate pdf_name) (files_create api) ;;
     ret (Some file_id))
    (ret None).

(** Strategy A up to the end of polling: the last status seen. *)
Definition run_assistant (file_id : str) : M str :=
  _ <- perform AssistantsCreate (guard_ok (assistants_create api)) ;;
  _ <- perform ThreadsCreate (guard_ok (threads_create api)) ;;
  _ <- perform (MessagesCreate file_id) (guard_ok (messages_create api)) ;;
  status <- perform RunsCreate (runs_create api) ;;
  poll (runs_retrieve api) status.

Definition generate_methodology_summary_with_assistants
    (file_id pdf_name : str) : M (option str) :=
  try_except
    (status <- run_assistant file_id ;;
     if str_eqb status COMPLETED then
       response <- perform MessagesList (messages_list api) ;;
       _ <- perform (WriteSummary pdf_name response)
              (guard_ok (assistants_write api)) ;;
       ret (Some response)
     else ret None)
    (ret None).

Definition generate_methodology_summary_with_chat
    (file_id pdf_name : str) : M (option str) :=
  try_except
    (summary <- perform (ChatCompletionsCreate (chat_prompt file_id))
                  (chat_create api) ;;
     _ <- perform (WriteSummary pdf_name summary)
            (guard_ok (chat_write api)) ;;
     ret (Some summary))
    (ret None).

Definition generate_methodology_summary (pdf_name : str)
  : M (option str) :=
  try_except
    (file_id <- upload_pdf_to_openai pdf_name ;;
     match file_id with
     | Some ((_ :: _) as fid) =>
         summary <- generate_methodology_summary_with_assistants
                      fid pdf_name ;;
         if truthy summary then ret summary
         else generate_methodology_summary_with_chat fid pdf_name
     | _ => ret None                      (* if not file_id *)
     end)
    (ret None).

End DirectUpload.

(* ===================================================================== *)
(** ** Extraction engine, text variant *)
(* ===================================================================== *)

Record TextApi := {
  extract_text : option str;     (* None: no library or an exception *)
  text_chat_create : option str;
  text_chat_write : bool;
}.

Definition TEXT_PROMPT_HEAD : str := lit "Please analyze the following text from a research paper and provide a comprehensive summary of the methodology in the specified format:

TEXT TO ANALYZE:
".
Definition TEXT_PROMPT_TAIL : str := lit "  # Limit to avoid token limits

Please provide a summary in the following format:

1. **Methodology Overview** (2-3 sentences describing the overall approach)

2. **Key Steps in Bullet Points:**
   - Step 1: [Description]
   - Step 2: [Description]
   - Step 3: [Description]
   - [Continue as needed]

3. **Methodology Flow:**
   [Describe the logical flow and sequence of the methodology in paragraph form]

4. **Key Techniques/Tools Used:**
   - [List main techniques, algorithms, or tools used]

5. **Data Sources/Inputs:**
   - [Describe what data or inputs are used in the methodology]

6. **Output/Results:**
   - [Describe what the methodology produces or outputs]

Please focus specifically on the methodology section and make it clear and easy to understand like whats the approach, what are the key steps and architectural framework. Keep the summary concise but comprehensive.".

Definition text_prompt (text : str) : str :=
  TEXT_PROMPT_HEAD ++ take (Z.to_nat 8000) text ++ TEXT_PROMPT_TAIL.

Definition generate_methodology_summary_text (api : TextApi)
    (pdf_name : str) : M (option str) :=
  try_except
    (text <- try_except
               (t <- perform (ExtractText pdf_name) (extract_text api) ;;
                ret (Some (strip t)))
               (ret None) ;;
     match text with
     | Some ((_ :: _) as t) =>
         summary <- perform (ChatCompletionsCreate (text_prompt t))
                      (text_chat_create api) ;;
         _ <- perform (WriteSummary pdf_name summary)
                (guard_ok (text_chat_write api)) ;;
         ret (Some summary)
     | _ => ret None                        (* if not text *)
     end)
    (ret None).

(* ===================================================================== *)
(** ** process_all_pdfs *)
(* ===================================================================== *)

Definition FAILED_SUMMARY : str := Eval cbv in lit "Failed to generate summary".

Section Batch.

(** The extraction of one file, of either variant. *)
Variable generate : str -> M (option str).

(** The loop over [pdf_files]; [summaries] is the dict being filled. *)
Fixpoint batch_loop (pdf_files : list str) (summaries : gmap (list N) (list N))
  : M (gmap (list N) (list N)) :=
  match pdf_files with
  | [] => ret summaries
  | pdf_file :: rest =>
      let pdf_id := stem pdf_file in
      summary <- generate pdf_file ;;
      if truthy summary then
        batch_loop rest
          (<[pdf_id := format_for_google_sheets summary]> summaries)
      else
        batch_loop rest (<[pdf_id := FAILED_SUMMARY]> summaries)
  end.

(** [dir_exists] is [self.pdf_dir.exists()], [pdf_files] the names that
    [glob("*.pdf")] lists. *)
Definition process_all_pdfs (dir_exists : bool) (pdf_files : list str)
  : M (gmap (list N) (list N)) :=
  if negb dir_exists then ret ∅
  else match pdf_files with
       | [] => ret ∅
       | _ :: _ => batch_loop pdf_files ∅
       end.

End Batch.

(* ===================================================================== *)
(** ** Row reconciler (update_google_sheet_with_methodology) *)
(* ===================================================================== *)

Section Merge.

Variable summaries : gmap (list N) (list N).

(** The loop over [df.iterrows()], as in [links_loop]. *)
Fixpoint methodology_loop (i : nat) (todo : list row) (df : DataFrame)
  : DataFrame :=
  match todo with
  | [] => df
  | r :: rest =>
      if decide (COL_ID ∈ columns df) then
        match r !! COL_ID with
        | Some v =>                        (* pd.notna(row['PDF ID']) *)
            let pdf_id := strip v in
            match summaries !! pdf_id with
            | Some s =>
                methodology_loop (S i) rest (at_set i COL_METHODOLOGY s df)
            | None => methodology_loop (S i) rest df
            end
        | None => methodology_loop (S i) rest df
        end
      else methodology_loop (S i) rest df
  end.

(** The table that is written back, [None] when the sheet read is empty
    and nothing is written. *)
Definition update_google_sheet_with_methodology (df : DataFrame) : option DataFrame :=
  if df_empty df then None
  else
    let df := set_column COL_METHODOLOGY [] df in
    Some (methodology_loop 0 (rows df) df).

End Merge.

(* ===================================================================== *)
(** ** Sheet identifier (_extract_sheet_id) *)
(* ===================================================================== *)

Definition SHEET_ID_PREFIX : str := Eval cbv in lit "/spreadsheets/d/".

(** membership of the class [[a-zA-Z0-9-_]] *)
Definition is_sheet_id_char (c : char) : bool :=
  is_ascii_alpha c || is_ascii_digit c || (c =? DASH) || (c =? 95).

(** [re.search(r'/spreadsheets/d/([a-zA-Z0-9-_]+)', url)] and its group:
    the leftmost place where the marker is followed by a character of
    the class, and the longest run of such characters there. *)
Fixpoint extract_sheet_id (url : str) : result str :=
  match url with
  | [] => Raise ValueError
  | _ :: rest =>
      if startswith SHEET_ID_PREFIX url then
        match take_while is_sheet_id_char
                (drop (length SHEET_ID_PREFIX) url) with
        | (_ :: _) as sheet_id => Ok sheet_id
        | [] => extract_sheet_id rest
        end
      else extract_sheet_id rest
  end.

(* ===================================================================== *)
(** ** Workflows over the sheet *)
(* ===================================================================== *)

(** The calls on the sheet service and the local copies written, in the
    order they are made. *)
Inductive sheet_call :=
  | ValuesGet (spreadsheet_id range : str)
  | ValuesUpdate (spreadsheet_id range : str) (values : list (list str))
  | ToCsv (file : str) (df : DataFrame).

(** What [values().get(...).execute()] and the conversion of its values
    give. *)
Inductive get_response :=
  | GotTable (df : DataFrame)
  | GetHttpError
  | GetFailed.                 (* another exception *)

(** The configuration and the answers of the sheet service. *)
Record Sheets := {
  config_url : str;
  config_worksheet_name : str;
  config_read_range : str;
  values_get : get_response;
  values_update : bool;        (* the update call returns *)
  to_csv : bool;               (* the local copy can be written *)
}.

(** How a workflow step ends. *)
Inductive outcome (A : Type) : Type :=
  | Returned (a : A)
  | Raised.
Arguments Returned {A} a.
Arguments Raised {A}.

Definition W (A : Type) : Type := outcome A * list sheet_call.

Definition w_ret {A} (a : A) : W A := (Returned a, []).

Definition w_bind {A B} (m : W A) (f : A -> W B) : W B :=
  match m with
  | (Returned a, l) => let '(r, l') := f a in (r, l ++ l')
  | (Raised, l) => (Raised, l)
  end.

(** [try: m  except Exception: h] *)
Definition w_try {A} (m : W A) (h : W A) : W A :=
  match m with
  | (Raised, l) => let '(r, l') := h in (r, l ++ l')
  | _ => m
  end.

Definition w_call {A} (c : sheet_call) (response : option A) : W A :=
  (match response with Some a => Returned a | None => Raised end, [c]).

Definition w_lift {A} (r : result A) : W A :=
  (match r with Ok a => Returned a | Raise _ => Raised end, []).

Notation "x <~ m ;; k" := (w_bind m (fun x => k))
  (at level 200, m at level 99, k at level 200, only parsing).

(** [pd.DataFrame()] *)
Definition EMPTY_FRAME : DataFrame := {| columns := []; rows := [] |}.

Definition PROCESSED_CSV : str := Eval cbv in lit "processed_sheet_data.csv".
Definition METHODOLOGY_CSV : str :=
  Eval cbv in lit "processed_sheet_with_methodology.csv".

(** The request of an update and the merge of the summaries, as defined
    above. *)
Abbreviation update_request := update_sheet_with_pdf_info (only parsing).
Abbreviation merge_summaries := update_google_sheet_with_methodology
  (only parsing).

Module Workflow.

Section Workflow.

Variable s : Sheets.
Variable netloc_ok : str -> bool.
Variable w : World.

(** [read_sheet()] with the values of the configuration. The sheet id is
    extracted before the [try]. *)
Definition read_sheet : W DataFrame :=
  sheet_id <~ w_lift (extract_sheet_id (config_url s)) ;;
  let full_range := config_worksheet_name s ++ [33] ++ config_read_range s in
  (match values_get s with
   | GotTable df => Returned df
   | GetHttpError => Returned EMPTY_FRAME
   | GetFailed => Raised
   end, [ValuesGet sheet_id full_range]).

(** [update_sheet_with_pdf_info(df)]: everything after the extraction of
    the sheet id is inside [try ... except Exception: return False]. *)
Definition update_sheet_with_pdf_info (df : DataFrame) : W bool :=
  sheet_id <~ w_lift (extract_sheet_id (config_url s)) ;;
  match update_request (config_worksheet_name s) df with
  | Some (range_name, data) =>
      w_try
        (_ <~ w_call (ValuesUpdate sheet_id range_name data)
                (guard_ok (values_update s)) ;;
         w_ret true)
        (w_ret false)
  | None => w_ret false
  end.

Definition process_sheet_with_pdf_download (link_column : str)
  : W DataFrame :=
  df <~ read_sheet ;;
  if df_empty df then w_ret df
  else
    df <~ w_lift (process_links_and_download_pdfs netloc_ok w link_column df) ;;
    update_success <~ update_sheet_with_pdf_info df ;;
    _ <~ w_call (ToCsv PROCESSED_CSV df) (guard_ok (to_csv s)) ;;
    w_ret df.

Definition update_google_sheet_with_methodology
    (summaries : gmap (list N) (list N)) : W bool :=
  w_try
    (df <~ read_sheet ;;
     match merge_summaries summaries df with
     | None => w_ret false                    (* df.empty *)
     | Some df =>
         success <~ update_sheet_with_pdf_info df ;;
         if (success : bool) then
           _ <~ w_call (ToCsv METHODOLOGY_CSV df) (guard_ok (to_csv s)) ;;
           w_ret true
         else w_ret false
     end)
    (w_ret false).

(** [run_batch_processing()]: the end of the run, the calls of the
    extractions and the calls on the sheet. *)
Definition run_batch_processing (generate : str -> M (option str))
    (dir_exists : bool) (pdf_files : list str)
  : res unit * list call * list sheet_call :=
  match process_all_pdfs generate dir_exists pdf_files with
  | (Val summaries, l) =>
      if decide (summaries = ∅) then (Val tt, l, [])      (* not summaries *)
      else (Val tt, l, snd (update_google_sheet_with_methodology summaries))
  | (Thrown, l) => (Val tt, l, [])
  | (Hangs, l) => (Hangs, l, [])
  end.

End Workflow.

End Workflow.

(* ===================================================================== *)
(** * Properties *)
(* ===================================================================== *)

(** ** Strings *)

Lemma str_eqb_eq (s t : str) : str_eqb s t = true <-> s = t.
Proof.
  revert t; induction s as [|c s IH]; intros [|d t]; simpl; try easy.
  rewrite andb_true_iff, N.eqb_eq, IH. split.
  - intros [-> ->]; reflexivity.
  - intros [= -> ->]; auto.
Qed.

Lemma str_eqb_refl (s : str) : str_eqb s s = true.
Proof. apply str_eqb_eq; reflexivity. Qed.

Lemma startswith_spec (p s : str) :
  startswith p s = true <-> exists b, s = p ++ b.
Proof.
  revert s; induction p as [|c p IH]; intros s; simpl.
  - split; eauto.
  - destruct s as [|d s].
    + split; [discriminate | intros [b Hb]; discriminate].
    + rewrite andb_true_iff, N.eqb_eq, IH. split.
      * intros [-> [b ->]]; eauto.
      * intros [b [= -> ->]]; eauto.
Qed.

Lemma endswith_spec (p s : str) :
  endswith p s = true <-> exists a, s = a ++ p.
Proof.
  unfold endswith. rewrite startswith_spec. split.
  - intros [b Hb]. exists (reverse b).
    apply (f_equal reverse) in Hb.
    rewrite reverse_involutive, reverse_app, reverse_involutive in Hb.
    exact Hb.
  - intros [a ->]. exists (reverse a). apply reverse_app.
Qed.

(** [p] occurs in [s] as a block of consecutive characters. *)
Definition occurs_in (p s : str) : Prop := exists a b, s = a ++ p ++ b.

Lemma contains_spec (p s : str) : contains p s = true <-> occurs_in p s.
Proof.
  unfold occurs_in. induction s as [|d s IH]; simpl.
  - rewrite orb_false_r, startswith_spec. split.
    + intros [b Hb]. exists [], b. exact Hb.
    + intros [a [b Hab]]. destruct a; simpl in Hab; [eauto|discriminate].
  - rewrite orb_true_iff, startswith_spec, IH. split.
    + intros [[b Hb] | [a [b Hab]]].
      * exists [], b. exact Hb.
      * exists (d :: a), b. simpl. now rewrite Hab.
    + intros [[|x a] [b Hab]]; simpl in Hab.
      * left; eauto.
      * right. injection Hab as -> ->. eauto.
Qed.

Lemma occurs_in_trans (p q s : str) :
  occurs_in p q -> occurs_in q s -> occurs_in p s.
Proof.
  intros (a & b & ->) (a' & b' & ->).
  exists (a' ++ a), (b ++ b'). now rewrite <- !app_assoc.
Qed.

Lemma occurs_in_lower (p s : str) :
  occurs_in p s -> occurs_in (lower p) (lower s).
Proof.
  intros (a & b & ->). exists (lower a), (lower b).
  unfold lower. now rewrite !map_app.
Qed.

Lemma take_drop_while (p : char -> bool) (s : str) :
  take_while p s ++ drop_while p s = s.
Proof.
  induction s as [|c s IH]; simpl; [reflexivity|].
  destruct (p c); simpl; [now rewrite IH | reflexivity].
Qed.

Lemma drop_while_suffix (p : char -> bool) (s : str) :
  exists a, s = a ++ drop_while p s.
Proof. exists (take_while p s). symmetry. apply take_drop_while. Qed.

Lemma drop_while_head (p : char -> bool) (s : str) c r :
  drop_while p s = c :: r -> p c = false.
Proof.
  induction s as [|d s IH]; simpl; [discriminate|].
  destruct (p d) eqn:E; [exact IH|]. intros [= -> _]. exact E.
Qed.

Lemma length_drop_while (p : char -> bool) (s : str) :
  (length (drop_while p s) <= length s)%nat.
Proof.
  induction s as [|c s IH]; simpl; [lia|]. destruct (p c); simpl; lia.
Qed.

Lemma length_strip (s : str) : (length (strip s) <= length s)%nat.
Proof.
  unfold strip, rstrip, lstrip. rewrite length_reverse.
  etransitivity; [apply length_drop_while|]. rewrite length_reverse.
  apply length_drop_while.
Qed.

(** [rstrip] leaves a text that ends in a character that is not white
    space. *)
Lemma rstrip_snoc (s : str) (c : char) :
  is_space c = false -> rstrip (s ++ [c]) = s ++ [c].
Proof.
  intros Hc. unfold rstrip. rewrite reverse_app. simpl.
  change (reverse [c]) with [c]. simpl. rewrite Hc.
  change (c :: reverse s) with ([c] ++ reverse s).
  rewrite reverse_app, reverse_involutive. reflexivity.
Qed.

(** ** Sheet formatter: length bound and truncation marker *)

Lemma cell_cap_Z : Z.of_nat CELL_CAP = 45000%Z.
Proof. unfold CELL_CAP. apply Z2Nat.id. lia. Qed.

Lemma length_cap_length (t : str) :
  (length (cap_length t) <= CELL_CAP + length TRUNCATION_MARKER)%nat.
Proof.
  unfold cap_length. destruct (CELL_CAP <? length t)%nat eqn:E.
  - rewrite length_app, length_take. lia.
  - apply Nat.ltb_ge in E. lia.
Qed.

Lemma lstrip_keeps_text (a : str) :
  exists b, lstrip (a ++ TRUNCATION_TEXT) = b ++ TRUNCATION_TEXT.
Proof.
  unfold lstrip. induction a as [|c a IH]; simpl.
  - exists []. reflexivity.
  - destruct (is_space c).
    + exact IH.
    + exists (c :: a). reflexivity.
Qed.

Lemma strip_keeps_text (a : str) :
  exists b, strip (a ++ TRUNCATION_TEXT) = b ++ TRUNCATION_TEXT.
Proof.
  unfold strip. destruct (lstrip_keeps_text a) as [b ->].
  exists b.
  change TRUNCATION_TEXT with
    (take 32 TRUNCATION_TEXT ++ [93]) at 1 2.
  rewrite app_assoc. apply rstrip_snoc. reflexivity.
Qed.

(** C4. For every input the formatter's output has at most 45,000
    characters plus the length of the truncation marker; the marker is
    appended to the first 45,000 characters exactly when the normalised
    text is longer than 45,000 characters (and the output then ends with
    the marker's text), otherwise nothing is appended; a missing or empty
    input gives the empty string. *)
Theorem format_length_bound_and_marker :
  (forall text : option str,
      (Z.of_nat (length (format_for_google_sheets text))
       <= 45000 + Z.of_nat (length TRUNCATION_MARKER))%Z)
  /\ (forall t : str,
        if (45000 <? Z.of_nat (length (normalize t)))%Z
        then format_for_google_sheets (Some t)
             = strip (take CELL_CAP (normalize t) ++ TRUNCATION_MARKER)
             /\ endswith TRUNCATION_TEXT (format_for_google_sheets (Some t))
                = true
        else format_for_google_sheets (Some t) = strip (normalize t))
  /\ format_for_google_sheets None = []
  /\ format_for_google_sheets (Some []) = [].
Proof.
  split; [|split; [|split; reflexivity]].
  - intros [[|c t]|]; unfold format_for_google_sheets;
      [change (length (@nil N)) with O; lia | | change (length (@nil N)) with O; lia].
    pose proof (length_strip (cap_length (normalize (c :: t)))).
    pose proof (length_cap_length (normalize (c :: t))).
    pose proof cell_cap_Z. lia.
  - intros t.
    assert (Hf : format_for_google_sheets (Some t)
                 = strip (cap_length (normalize t))).
    { destruct t; reflexivity. }
    rewrite Hf. unfold cap_length.
    destruct (45000 <? Z.of_nat (length (normalize t)))%Z eqn:E.
    + apply Z.ltb_lt in E.
      assert ((CELL_CAP <? length (normalize t))%nat = true) as ->.
      { apply Nat.ltb_lt. pose proof cell_cap_Z. lia. }
      split; [reflexivity|].
      apply endswith_spec.
      change TRUNCATION_MARKER with ([NL; NL] ++ TRUNCATION_TEXT).
      rewrite app_assoc. apply strip_keeps_text.
    + apply Z.ltb_ge in E.
      assert ((CELL_CAP <? length (normalize t))%nat = false) as ->.
      { apply Nat.ltb_ge. pose proof cell_cap_Z. lia. }
      reflexivity.
Qed.

(** ** Sheet write-back: values and range *)












(** ** Link classifier *)

Lemma occurs_in_app_l (a b : str) : occurs_in a (a ++ b).
Proof. exists [], b. reflexivity. Qed.

Lemma occurs_in_app_r (a b : str) : occurs_in b (a ++ b).
Proof. exists a, []. now rewrite app_nil_r. Qed.

Lemma before_char_prefix (c : char) (s : str) : occurs_in (before_char c s) s.
Proof.
  unfold before_char.
  rewrite <- (take_drop_while (fun x => negb (x =? c)) s) at 2.
  apply occurs_in_app_l.
Qed.

Lemma occurs_in_drop (k : nat) (s : str) : occurs_in (drop k s) s.
Proof. rewrite <- (take_drop k s) at 2. apply occurs_in_app_r. Qed.

Lemma occurs_in_drop_while (p : char -> bool) (s : str) :
  occurs_in (drop_while p s) s.
Proof.
  rewrite <- (take_drop_while p s) at 2. apply occurs_in_app_r.
Qed.

Lemma occurs_in_refl (s : str) : occurs_in s s.
Proof. exists [], []. simpl. now rewrite app_nil_r. Qed.

Lemma split_scheme_rest (url : str) : occurs_in (snd (split_scheme url)) url.
Proof.
  unfold split_scheme.
  repeat case_match; cbn [snd]; try apply occurs_in_refl.
  subst. apply occurs_in_drop.
Qed.

Lemma splitparams_prefix (url : str) : occurs_in (splitparams url) url.
Proof.
  unfold splitparams. destruct (rfind_char 47 url) as [k|].
  - exists [], (drop_while (fun x => negb (x =? 59)) (drop k url)).
    unfold before_char. cbn [app].
    rewrite <- app_assoc, take_drop_while. symmetry. apply take_drop.
  - apply before_char_prefix.
Qed.

(** The path that [urlparse] returns is a block of the URL as it is after
    the leading controls and the tab, line feed and carriage return
    characters have been removed. *)
Lemma urlparse_path_occurs (ok : str -> bool) (u path : str) :
  urlparse_path ok u = Ok path ->
  occurs_in path
    (List.filter (fun c => negb (is_unsafe c)) (drop_while is_c0_or_space u)).
Proof.
  unfold urlparse_path, urlsplit.
  set (u' := List.filter _ _).
  pose proof (split_scheme_rest u') as Hs.
  destruct (split_scheme u') as [scheme rest]. simpl in Hs.
  assert (Hcut : forall x, occurs_in x rest ->
                           occurs_in (before_char 63 (before_char 35 x)) u').
  { intros x Hx. eapply occurs_in_trans; [apply before_char_prefix|].
    eapply occurs_in_trans; [apply before_char_prefix|].
    eapply occurs_in_trans; eassumption. }
  assert (Hfin : forall sc p, occurs_in p u' ->
     (if existsb (str_eqb sc) uses_params && has_char 59 p
      then Ok (splitparams p) else Ok p) = Ok path -> occurs_in path u').
  { intros sc p Hp. destruct (_ && _); intros [= <-]; [|exact Hp].
    eapply occurs_in_trans; [apply splitparams_prefix | exact Hp]. }
  destruct (startswith [47; 47] rest).
  - unfold splitnetloc.
    destruct ((has_char 91 _ && negb (has_char 93 _))
              || (has_char 93 _ && negb (has_char 91 _))); [discriminate|].
    destruct (has_char 91 _ && has_char 93 _ && negb (ok _)); [discriminate|].
    destruct (negb (is_ascii _) && negb (ok _)); [discriminate|].
    apply Hfin, Hcut.
    eapply occurs_in_trans; [apply occurs_in_drop_while | apply occurs_in_drop].
  - apply Hfin, Hcut. apply occurs_in_refl.
Qed.

Lemma filter_all (p : char -> bool) (s : str) :
  forallb p s = true -> List.filter p s = s.
Proof.
  induction s as [|c s IH]; simpl; [reflexivity|].
  intros H. apply andb_true_iff in H as [-> H]. now rewrite IH.
Qed.

Lemma forallb_drop_while (p q : char -> bool) (s : str) :
  forallb p s = true -> forallb p (drop_while q s) = true.
Proof.
  induction s as [|c s IH]; simpl; [reflexivity|].
  intros H. destruct (q c); [|exact H].
  apply andb_true_iff in H as [_ H]. auto.
Qed.

Definition PDF : str := Eval cbv in lit "pdf".

(** Every keyword of the classifier contains the keyword [pdf]. *)
Lemma patterns_subsumed (s : str) :
  existsb (fun pattern => contains pattern s) pdf_patterns = contains PDF s.
Proof.
  assert (H : forall p, occurs_in PDF p -> contains PDF s = false ->
                        contains p s = false).
  { intros p Hp Hs. destruct (contains p s) eqn:E; [|reflexivity].
    rewrite <- Hs. symmetry. apply contains_spec.
    eapply occurs_in_trans; [exact Hp|]. now apply contains_spec. }
  change pdf_patterns with
    [PDF; lit "/pdf/"; lit "format=pdf"; lit "type=pdf"; lit "filetype=pdf";
     lit "download=pdf"].
  cbn [existsb].
  destruct (contains PDF s) eqn:E; [reflexivity|].
  rewrite (H (lit "/pdf/")), (H (lit "format=pdf")), (H (lit "type=pdf")),
    (H (lit "filetype=pdf")), (H (lit "download=pdf")); try assumption;
    try reflexivity.
  - exists (lit "download="), []. reflexivity.
  - exists (lit "filetype="), []. reflexivity.
  - exists (lit "type="), []. reflexivity.
  - exists (lit "format="), []. reflexivity.
  - exists (lit "/"), (lit "/"). reflexivity.
Qed.

(** What the classifier answers on a text of at least one character
    whose parsing succeeds. *)
Lemma is_pdf_url_parsed (ok : str -> bool) (u path : str) :
  u <> [] ->
  urlparse_path ok u = Ok path ->
  is_pdf_url ok (PyStr u)
  = Ok (endswith DOT_PDF (lower path) || contains PDF (lower u)).
Proof.
  intros Hu Hp. destruct u as [|c u]; [congruence|].
  unfold is_pdf_url. rewrite Hp, patterns_subsumed.
  destruct (endswith DOT_PDF (lower path)); reflexivity.
Qed.

(** C5. On the link [http://[pdf], a text that contains the keyword
    [pdf], the classifier raises [ValueError] (from [urlparse], for the
    unmatched bracket) and returns no answer, whatever the library's
    further checks of network locations do; a sheet with this link in a
    row makes the whole download pass end with the exception. *)
Theorem is_pdf_url_raises_on_unmatched_bracket (ok : str -> bool) :
  is_pdf_url ok (PyStr (lit "http://[pdf")) = Raise ValueError
  /\ contains (lit "pdf") (lower (lit "http://[pdf")) = true
  /\ forall w : World,
       process_links_and_download_pdfs ok w (lit "link")
         {| columns := [lit "link"];
            rows := [ {[ lit "link" := lit "http://[pdf" ]};
                      {[ lit "link" := lit "https://example.org/paper.pdf" ]} ] |}
       = Raise ValueError.
Proof.
  split; [reflexivity|]. split; [reflexivity|]. intros w.
  unfold process_links_and_download_pdfs.
  destruct (decide _) as [_|Hn];
    [|exfalso; apply Hn, list_elem_of_here].
  vm_compute. reflexivity.
Qed.

(** The parts of the classifier's contract that hold: the answer on a
    missing, empty or non-text link is [false]; when parsing succeeds,
    a path ending in [.pdf] or a keyword anywhere gives [true] and
    neither gives [false]. *)
Lemma is_pdf_url_contract (ok : str -> bool) :
  is_pdf_url ok PyNone = Ok false
  /\ is_pdf_url ok (PyStr []) = Ok false
  /\ (forall z, is_pdf_url ok (PyInt z) = Ok false)
  /\ (forall u path, u <> [] -> urlparse_path ok u = Ok path ->
        (endswith DOT_PDF (lower path) = true
         \/ Exists (fun pattern => contains pattern (lower u) = true)
              pdf_patterns) ->
        is_pdf_url ok (PyStr u) = Ok true)
  /\ (forall u path, u <> [] -> urlparse_path ok u = Ok path ->
        endswith DOT_PDF (lower path) = false ->
        Forall (fun pattern => contains pattern (lower u) = false)
          pdf_patterns ->
        is_pdf_url ok (PyStr u) = Ok false).
Proof.
  repeat split; try reflexivity.
  - intros u path Hu Hp H. rewrite (is_pdf_url_parsed ok u path Hu Hp).
    rewrite <- patterns_subsumed. f_equal.
    destruct H as [-> | H]; [reflexivity|].
    apply orb_true_iff. right. apply existsb_exists.
    apply List.Exists_exists in H. exact H.
  - intros u path Hu Hp H1 H2. rewrite (is_pdf_url_parsed ok u path Hu Hp).
    rewrite <- patterns_subsumed, H1. f_equal. cbn [orb].
    apply not_true_is_false. intros H. apply existsb_exists in H.
    destruct H as (p & Hin & Hc).
    rewrite List.Forall_forall in H2. rewrite (H2 p Hin) in Hc. discriminate.
Qed.

(** C10, as stated, fails: on [http://[pdf] the keyword [pdf] occurs but
    the classifier raises; on a link with a tab inside [.p<TAB>df] the
    classifier answers [true] though [pdf] does not occur in the text. *)
Lemma classifier_not_just_pdf_substring :
  is_pdf_url (fun _ => true) (PyStr (lit "http://[pdf"))
  <> Ok (contains PDF (lower (lit "http://[pdf")))
  /\ is_pdf_url (fun _ => true) (PyStr (lit "https://a.org/x.p" ++ [TAB] ++ lit "df"))
     <> Ok (contains PDF (lower (lit "https://a.org/x.p" ++ [TAB] ++ lit "df"))).
Proof. split; vm_compute; discriminate. Qed.

(** C10, amended. For every link text of at least one character that
    [urlparse] accepts and that has no tab, line feed or carriage return,
    the classifier's answer is whether [pdf] occurs in the lower-cased
    text: the suffix test on the path and the other five keywords add
    nothing. *)
Theorem classifier_is_pdf_substring (ok : str -> bool) (u path : str) :
  u <> [] ->
  urlparse_path ok u = Ok path ->
  forallb (fun c => negb (is_unsafe c)) u = true ->
  is_pdf_url ok (PyStr u) = Ok (contains PDF (lower u)).
Proof.
  intros Hu Hp Hsafe. rewrite (is_pdf_url_parsed ok u path Hu Hp).
  f_equal. destruct (endswith DOT_PDF (lower path)) eqn:E; [|reflexivity].
  simpl. symmetry. apply contains_spec.
  apply endswith_spec in E as [a Ha].
  apply urlparse_path_occurs in Hp.
  rewrite filter_all in Hp by now apply forallb_drop_while.
  eapply occurs_in_trans with (q := lower path).
  - rewrite Ha. exists (a ++ [46]), []. rewrite app_nil_r, <- app_assoc.
    reflexivity.
  - apply occurs_in_lower. eapply occurs_in_trans; [exact Hp|].
    apply occurs_in_drop_while.
Qed.

Lemma classifier_is_pdf_substring_witness :
  is_pdf_url (fun _ => true) (PyStr (lit "https://pdfhost.org/view?id=7"))
  = Ok true.
Proof.
  apply (classifier_is_pdf_substring (fun _ => true)
           (lit "https://pdfhost.org/view?id=7") (lit "/view")).
  - discriminate.
  - reflexivity.
  - reflexivity.
Defined.

(** ** Loops over the rows of a frame *)

(** A loop that, at row [i], changes row [i] of the frame by a function of
    the row it was handed: both loops over [df.iterrows()] have this
    shape. *)
Fixpoint apply_steps (f : nat -> row -> row -> row) (i : nat)
    (todo : list row) (rs : list row) : list row :=
  match todo with
  | [] => rs
  | r :: rest => apply_steps f (S i) rest (alter (f i r) i rs)
  end.

Lemma length_apply_steps (f : nat -> row -> row -> row) (todo : list row) (i : nat)
    (rs : list row) :
  length (apply_steps f i todo rs) = length rs.
Proof.
  revert i rs; induction todo as [|r rest IH]; intros i rs; simpl;
    [reflexivity|].
  rewrite IH. apply length_alter.
Qed.

Lemma apply_steps_lookup (f : nat -> row -> row -> row) (todo : list row) (i : nat)
    (rs : list row) (j : nat) :
  apply_steps f i todo rs !! j
  = match (if decide (i <= j)%nat then todo !! (j - i)%nat else None) with
    | Some r => f j r <$> rs !! j
    | None => rs !! j
    end.
Proof.
  revert i rs; induction todo as [|r rest IH]; intros i rs; simpl.
  - destruct (decide (i <= j)%nat); reflexivity.
  - rewrite IH. destruct (decide (S i <= j)%nat) as [Hle|Hgt].
    + destruct (decide (i <= j)%nat); [|lia].
      replace (j - i)%nat with (S (j - S i)) by lia. simpl.
      rewrite list_lookup_alter_ne by lia. reflexivity.
    + destruct (decide (i <= j)%nat) as [Hle|Hlt].
      * assert (j = i) as -> by lia. rewrite Nat.sub_diag. simpl.
        apply list_lookup_alter_eq.
      * apply list_lookup_alter_ne. lia.
Qed.

(** When the loop runs over the rows of the frame itself, every row is
    changed by its own step. *)
Lemma apply_steps_self (f : nat -> row -> row -> row) (rs : list row) (j : nat) :
  apply_steps f 0 rs rs !! j = (fun r => f j r r) <$> rs !! j.
Proof.
  rewrite apply_steps_lookup. destruct (decide (0 <= j)%nat); [|lia].
  rewrite Nat.sub_0_r. destruct (rs !! j); reflexivity.
Qed.

Lemma alter_rows_id (rs : list row) (i : nat) : alter (fun r : row => r) i rs = rs.
Proof. apply list_alter_id. reflexivity. Qed.

(** ** Row reconciler *)

(** What the merge loop does to the row it was handed. *)
Definition meth_step (summaries : gmap (list N) (list N)) (cols : list str)
    (r : row) : row -> row :=
  if decide (COL_ID ∈ cols) then
    match r !! COL_ID with
    | Some v =>
        match summaries !! strip v with
        | Some s => fun x : row => <[COL_METHODOLOGY := s]> x
        | None => fun x => x
        end
    | None => fun x => x
    end
  else fun x => x.

Lemma methodology_loop_steps (summaries : gmap (list N) (list N)) (todo : list row)
    (i : nat) (df : DataFrame) :
  methodology_loop summaries i todo df
  = {| columns := columns df;
       rows := apply_steps (fun _ r => meth_step summaries (columns df) r)
                 i todo (rows df) |}.
Proof.
  revert i df; induction todo as [|r rest IH]; intros i df.
  - destruct df; reflexivity.
  - cbn [methodology_loop apply_steps]. unfold meth_step at 2.
    destruct (decide (COL_ID ∈ columns df)).
    + destruct (r !! COL_ID) as [v|].
      * destruct (summaries !! strip v) as [s|]; rewrite IH.
        -- reflexivity.
        -- now rewrite alter_rows_id.
      * rewrite IH. now rewrite alter_rows_id.
    + rewrite IH. now rewrite alter_rows_id.
Qed.

Lemma col_id_ne_methodology : COL_ID <> COL_METHODOLOGY.
Proof. discriminate. Qed.

Lemma meth_step_other (summaries : gmap (list N) (list N)) (cols : list str) (r x : row)
    (c : str) :
  c <> COL_METHODOLOGY -> meth_step summaries cols r x !! c = x !! c.
Proof.
  intros Hc. unfold meth_step.
  destruct (decide (COL_ID ∈ cols)); [|reflexivity].
  destruct (r !! COL_ID) as [v|]; [|reflexivity].
  destruct (summaries !! strip v); [|reflexivity].
  apply lookup_insert_ne. congruence.
Qed.

Lemma merge_rows (summaries : gmap (list N) (list N)) (df df' : DataFrame) (i : nat) :
  update_google_sheet_with_methodology summaries df = Some df' ->
  rows df' !! i
  = (fun r : row =>
       meth_step summaries (columns df')
         (<[COL_METHODOLOGY := []]> r) (<[COL_METHODOLOGY := []]> r))
    <$> rows df !! i.
Proof.
  unfold update_google_sheet_with_methodology. destruct (df_empty df); [discriminate|].
  intros [= <-]. rewrite methodology_loop_steps. cbn [rows columns].
  rewrite apply_steps_self. cbn [set_column rows columns].
  rewrite list_lookup_fmap. destruct (rows df !! i); reflexivity.
Qed.

(** C1, as stated, fails: a row that is absent from the mapping loses the
    text its Methodology cell held (here [old]), also when the mapping is
    empty. *)
Lemma merge_blanks_existing_methodology :
  let T := {| columns := [COL_ID; COL_METHODOLOGY];
              rows := [ {[ COL_ID := lit "a1b2c3d4";
                           COL_METHODOLOGY := lit "old" ]} ] |} in
  at_get T 0 COL_METHODOLOGY = Some (lit "old")
  /\ exists T', update_google_sheet_with_methodology ∅ T = Some T'
                /\ at_get T' 0 COL_METHODOLOGY = Some [].
Proof.
  intros T. split; [reflexivity|].
  eexists. split; [reflexivity|]. vm_compute. reflexivity.
Qed.

(** C1, amended. The merge keeps the rows and every cell outside the
    Methodology column as they are and adds the Methodology column if it
    is absent; the Methodology cell of every row whose PDF ID has no
    matching key is set to the empty text, whatever it held; merging the
    empty mapping gives the table with the Methodology column set to the
    empty text in every row. *)
Theorem merge_frame (summaries : gmap (list N) (list N)) (df df' : DataFrame) :
  update_google_sheet_with_methodology summaries df = Some df' ->
  length (rows df') = length (rows df)
  /\ columns df' = (if decide (COL_METHODOLOGY ∈ columns df) then columns df
                    else columns df ++ [COL_METHODOLOGY])
  /\ (forall i c, c <> COL_METHODOLOGY -> at_get df' i c = at_get df i c)
  /\ (forall i r, rows df !! i = Some r ->
        (forall v, r !! COL_ID = Some v -> summaries !! strip v = None) ->
        at_get df' i COL_METHODOLOGY = Some [])
  /\ (summaries = ∅ -> df' = set_column COL_METHODOLOGY [] df).
Proof.
  intros Hm. pose proof (merge_rows summaries df df') as Hrows.
  specialize (fun i => Hrows i Hm).
  unfold update_google_sheet_with_methodology in Hm. destruct (df_empty df); [discriminate|].
  injection Hm as <-. rewrite methodology_loop_steps in *.
  cbn [rows columns] in *.
  split; [|split; [|split; [|split]]].
  - rewrite length_apply_steps. cbn [set_column rows]. apply length_fmap.
  - reflexivity.
  - intros i c Hc. unfold at_get. cbn [rows]. rewrite Hrows.
    destruct (rows df !! i) as [r|]; [|reflexivity]. cbn.
    rewrite meth_step_other by assumption.
    apply lookup_insert_ne. congruence.
  - intros i r Hr Hnone. unfold at_get. cbn [rows]. rewrite Hrows, Hr. cbn.
    unfold meth_step. destruct (decide _); [|apply lookup_insert_eq].
    rewrite lookup_insert_ne by apply not_eq_sym, col_id_ne_methodology.
    destruct (r !! COL_ID) as [v|] eqn:Ev; [|apply lookup_insert_eq].
    rewrite (Hnone v eq_refl). apply lookup_insert_eq.
  - intros ->. clear Hrows.
    unfold set_column. cbn [rows columns]. f_equal.
    apply list_eq. intros i. rewrite apply_steps_self.
    destruct (_ !! i) as [r|]; [|reflexivity]. cbn. f_equal.
    unfold meth_step. destruct (decide _); [|reflexivity].
    destruct (r !! COL_ID); reflexivity.
Qed.

Lemma merge_frame_witness :
  exists T',
    update_google_sheet_with_methodology {[ lit "a1b2c3d4" := lit "SUMMARY" ]}
      {| columns := [COL_ID; COL_METHODOLOGY];
         rows := [ {[ COL_ID := lit "a1b2c3d4" ]}; {[ COL_ID := [] ]} ] |}
    = Some T'
    /\ length (rows T') = 2%nat
    /\ at_get T' 1 COL_METHODOLOGY = Some []
    /\ at_get T' 0 COL_METHODOLOGY = Some (lit "SUMMARY").
Proof.
  eexists. split; [reflexivity|].
  pose proof (merge_frame {[ lit "a1b2c3d4" := lit "SUMMARY" ]}
    {| columns := [COL_ID; COL_METHODOLOGY];
       rows := [ {[ COL_ID := lit "a1b2c3d4" ]}; {[ COL_ID := [] ]} ] |}
    _ eq_refl) as (H1 & _ & _ & H4 & _).
  split; [exact H1|]. split.
  - apply (H4 1%nat {[ COL_ID := [] ]} eq_refl).
    intros v Hv. vm_compute in Hv. injection Hv as <-. reflexivity.
  - vm_compute. reflexivity.
Defined.

(** ** Download pass *)

Lemma length_hex_digits (k : nat) (n : N) : length (hex_digits k n) = k.
Proof.
  revert n; induction k as [|k IH]; intros n; simpl; [reflexivity|].
  rewrite length_app, IH. simpl. lia.
Qed.

(** The allocated identifier has eight characters. *)
Lemma length_generate_unique_id (u : N) : length (generate_unique_id u) = 8%nat.
Proof.
  unfold generate_unique_id, uuid_str.
  rewrite length_take, length_app, length_take, length_hex_digits. lia.
Qed.

Lemma pdf_filepath_ends (uid : str) :
  endswith (uid ++ DOT_PDF) (pdf_filepath uid) = true.
Proof.
  apply endswith_spec. exists (PDF_DIR ++ [47]).
  unfold pdf_filepath. now rewrite <- !app_assoc.
Qed.

(** The row with the three pipeline columns at their initial values. *)
Definition fresh_row (r : row) : row :=
  <[COL_PATH := []]> (<[COL_ID := []]> (<[COL_AVAILABLE := NO]> r)).

Definition mark_yes (uid path : str) (r : row) : row :=
  <[COL_PATH := path]> (<[COL_ID := uid]> (<[COL_AVAILABLE := YES]> r)).

Definition mark_failed (r : row) : row := <[COL_AVAILABLE := FAILED]> r.

(** What the download loop does to row [i], given the row it was handed;
    [Raise] when the classifier raises on the row's link. *)
Definition link_step (ok : str -> bool) (w : World) (link : str) (i : nat)
    (r : row) : result (row -> row) :=
  match r !! link with
  | None => Ok (fun x => x)
  | Some url =>
      match strip url with
      | [] => Ok (fun x => x)
      | _ :: _ =>
          match is_pdf_url ok (PyStr url) with
          | Raise e => Raise e
          | Ok false => Ok (fun x => x)
          | Ok true =>
              let uid := generate_unique_id (uuid4 w i) in
              match download_pdf w i url uid with
              | Some path => Ok (mark_yes uid path)
              | None => Ok mark_failed
              end
          end
      end
  end.

Definition link_fn (ok : str -> bool) (w : World) (link : str) (i : nat)
    (r : row) : row -> row :=
  match link_step ok w link i r with
  | Ok f => f
  | Raise _ => fun x => x
  end.

Definition alter_row (i : nat) (f : row -> row) (df : DataFrame) : DataFrame :=
  {| columns := columns df; rows := alter f i (rows df) |}.

Lemma alter_row_id (i : nat) (df : DataFrame) :
  alter_row i (fun x => x) df = df.
Proof. unfold alter_row. rewrite alter_rows_id. now destruct df. Qed.

Lemma links_loop_cons (ok : str -> bool) (w : World) (link : str) (i : nat)
    (r : row) (rest : list row) (df : DataFrame) :
  links_loop ok w link i (r :: rest) df
  = match link_step ok w link i r with
    | Ok f => links_loop ok w link (S i) rest (alter_row i f df)
    | Raise e => Raise e
    end.
Proof.
  cbn [links_loop]. unfold link_step.
  destruct (r !! link) as [url|]; [|now rewrite alter_row_id].
  destruct (strip url); [now rewrite alter_row_id|].
  destruct (is_pdf_url ok (PyStr url)) as [[|]|]; try reflexivity.
  - cbv zeta. destruct (download_pdf _ _ _ _); [|reflexivity].
    unfold alter_row, at_set, mark_yes. cbn [rows columns]. f_equal. f_equal.
    now rewrite !list_alter_alter_eq.
  - now rewrite alter_row_id.
Qed.

Lemma links_loop_ok (ok : str -> bool) (w : World) (link : str)
    (todo : list row) (i : nat) (df df' : DataFrame) :
  links_loop ok w link i todo df = Ok df' ->
  columns df' = columns df
  /\ rows df' = apply_steps (link_fn ok w link) i todo (rows df).
Proof.
  revert i df; induction todo as [|r rest IH]; intros i df.
  - intros [= <-]. split; reflexivity.
  - rewrite links_loop_cons. cbn [apply_steps]. unfold link_fn at 2.
    destruct (link_step ok w link i r) as [f|e]; [|discriminate].
    intros H. apply IH in H as [H1 H2]. split; assumption.
Qed.

(** The pass completes unless the classifier raises on a link. *)
Lemma links_loop_total (ok : str -> bool) (w : World) (link : str)
    (todo : list row) (i : nat) (df : DataFrame) :
  (forall r url, r ∈ todo -> r !! link = Some url ->
                 is_pdf_url ok (PyStr url) <> Raise ValueError) ->
  exists df', links_loop ok w link i todo df = Ok df'.
Proof.
  revert i df; induction todo as [|r rest IH]; intros i df Hno.
  - eexists; reflexivity.
  - rewrite links_loop_cons.
    assert (Hrest : forall r' url, r' ∈ rest -> r' !! link = Some url ->
                      is_pdf_url ok (PyStr url) <> Raise ValueError).
    { intros r' url Hin. apply Hno. now apply list_elem_of_further. }
    destruct (link_step ok w link i r) as [f|e] eqn:E; [now apply IH|].
    exfalso. unfold link_step in E.
    destruct (r !! link) as [url|] eqn:El; [|discriminate].
    destruct (strip url); [discriminate|].
    pose proof (Hno r url (list_elem_of_here _ _) El) as Hn.
    destruct (is_pdf_url ok (PyStr url)) as [[|]|[]]; try discriminate.
    + cbv zeta in E. destruct (download_pdf _ _ _ _); discriminate.
    + congruence.
Qed.

Lemma fresh_row_cells (r : row) :
  fresh_row r !! COL_AVAILABLE = Some NO
  /\ fresh_row r !! COL_ID = Some []
  /\ fresh_row r !! COL_PATH = Some [].
Proof.
  unfold fresh_row. repeat split.
  - rewrite !lookup_insert_ne by (apply not_eq_sym; discriminate).
    apply lookup_insert_eq.
  - rewrite lookup_insert_ne by (apply not_eq_sym; discriminate).
    apply lookup_insert_eq.
  - apply lookup_insert_eq.
Qed.

Lemma mark_yes_cells (uid path : str) (r : row) :
  mark_yes uid path r !! COL_AVAILABLE = Some YES
  /\ mark_yes uid path r !! COL_ID = Some uid
  /\ mark_yes uid path r !! COL_PATH = Some path.
Proof.
  unfold mark_yes. repeat split.
  - rewrite !lookup_insert_ne by (apply not_eq_sym; discriminate).
    apply lookup_insert_eq.
  - rewrite lookup_insert_ne by (apply not_eq_sym; discriminate).
    apply lookup_insert_eq.
  - apply lookup_insert_eq.
Qed.

Lemma mark_failed_cells (r : row) :
  mark_failed (fresh_row r) !! COL_AVAILABLE = Some FAILED
  /\ mark_failed (fresh_row r) !! COL_ID = Some []
  /\ mark_failed (fresh_row r) !! COL_PATH = Some [].
Proof.
  destruct (fresh_row_cells r) as (_ & H2 & H3). unfold mark_failed.
  repeat split.
  - apply lookup_insert_eq.
  - rewrite lookup_insert_ne by discriminate. exact H2.
  - rewrite lookup_insert_ne by discriminate. exact H3.
Qed.

(** Every row of the result is the row's own step applied to the row with
    the pipeline columns initialised. *)
Lemma process_links_rows (ok : str -> bool) (w : World) (link : str)
    (df df' : DataFrame) (i : nat) :
  link ∈ columns df ->
  process_links_and_download_pdfs ok w link df = Ok df' ->
  rows df' !! i
  = (fun r => link_fn ok w link i (fresh_row r) (fresh_row r)) <$> rows df !! i.
Proof.
  intros Hin. unfold process_links_and_download_pdfs.
  destruct (decide (link ∈ columns df)); [|contradiction].
  intros H. apply links_loop_ok in H as [_ ->].
  rewrite apply_steps_self. cbn [set_column rows].
  rewrite !list_lookup_fmap. destruct (rows df !! i); reflexivity.
Qed.

(** The three pipeline cells of a processed row are in one of three
    states. *)
Lemma link_fn_cells (ok : str -> bool) (w : World) (link : str) (i : nat)
    (r : row) :
  let r' := link_fn ok w link i (fresh_row r) (fresh_row r) in
  (r' !! COL_AVAILABLE = Some NO /\ r' !! COL_ID = Some []
   /\ r' !! COL_PATH = Some [])
  \/ (r' !! COL_AVAILABLE = Some FAILED /\ r' !! COL_ID = Some []
      /\ r' !! COL_PATH = Some [])
  \/ (r' !! COL_AVAILABLE = Some YES
      /\ r' !! COL_ID = Some (generate_unique_id (uuid4 w i))
      /\ r' !! COL_PATH
         = Some (pdf_filepath (generate_unique_id (uuid4 w i)))).
Proof.
  intros r'. subst r'. unfold link_fn, link_step.
  pose proof (fresh_row_cells r) as Hf.
  destruct (fresh_row r !! link) as [url|]; [|left; exact Hf].
  destruct (strip url); [left; exact Hf|].
  destruct (is_pdf_url ok (PyStr url)) as [[|]|]; try (left; exact Hf).
  cbv zeta. unfold download_pdf.
  destruct (http_get w i url);
    try (right; left; apply mark_failed_cells).
  right; right. apply mark_yes_cells.
Qed.

(** C2. After the download pass over a table that has the link column,
    every row with PDF Available = Yes has an eight-character PDF ID and a
    PDF Path that ends in <PDF ID>.pdf, and every row with PDF Available =
    No or Failed has an empty PDF ID and an empty PDF Path. *)
Theorem download_pass_invariant (ok : str -> bool) (w : World) (link : str)
    (df df' : DataFrame) :
  link ∈ columns df ->
  process_links_and_download_pdfs ok w link df = Ok df' ->
  forall i : nat,
    (at_get df' i COL_AVAILABLE = Some YES ->
     exists uid path,
       at_get df' i COL_ID = Some uid /\ length uid = 8%nat /\ uid <> []
       /\ at_get df' i COL_PATH = Some path
       /\ endswith (uid ++ DOT_PDF) path = true)
    /\ (at_get df' i COL_AVAILABLE = Some NO
        \/ at_get df' i COL_AVAILABLE = Some FAILED ->
        at_get df' i COL_ID = Some [] /\ at_get df' i COL_PATH = Some []).
Proof.
  intros Hin Hp i. unfold at_get.
  rewrite (process_links_rows ok w link df df' i Hin Hp).
  destruct (rows df !! i) as [r|];
    cbn [fmap option_fmap option_map mbind option_bind];
    [|split; [discriminate|intros []; discriminate]].
  destruct (link_fn_cells ok w link i r) as [(H1 & H2 & H3) | [(H1 & H2 & H3) | (H1 & H2 & H3)]];
    rewrite H1, H2, H3.
  - split; [discriminate | auto].
  - split; [discriminate | auto].
  - split.
    + intros _. eexists _, _. split; [reflexivity|].
      pose proof (length_generate_unique_id (uuid4 w i)) as Hl.
      split; [exact Hl|]. split.
      * intros E. rewrite E in Hl. discriminate.
      * split; [reflexivity | apply pdf_filepath_ends].
    + intros [H | H]; discriminate.
Qed.

(** A sheet of three links, and a world in which the first fetch succeeds
    and the second fails. *)
Definition LINK : str := Eval cbv in lit "link".

Definition sample_sheet : DataFrame :=
  {| columns := [lit "title"; LINK];
     rows := [ {[ lit "title" := lit "a";
                  LINK := lit "https://example.org/paper.pdf" ]};
               {[ lit "title" := lit "b";
                  LINK := lit "https://example.org/gone.pdf" ]};
               {[ lit "title" := lit "c";
                  LINK := lit "https://example.org/page.html" ]} ] |}.

Definition sample_world : World :=
  {| uuid4 := fun i => 217304793355602812003181625883614206349 + N.of_nat i;
     http_get := fun i _ => match i with
                            | O => Fetched
                            | _ => RequestFailed
                            end |}.

Lemma download_pass_invariant_witness :
  exists df',
    process_links_and_download_pdfs (fun _ => true) sample_world LINK
      sample_sheet = Ok df'
    /\ at_get df' 0 COL_AVAILABLE = Some YES
    /\ exists uid path,
         at_get df' 0 COL_ID = Some uid /\ length uid = 8%nat /\ uid <> []
         /\ at_get df' 0 COL_PATH = Some path
         /\ endswith (uid ++ DOT_PDF) path = true.
Proof.
  eexists. split; [reflexivity|].
  split; [vm_compute; reflexivity|].
  refine (proj1 (download_pass_invariant (fun _ => true) sample_world LINK
                   sample_sheet _ _ eq_refl 0%nat) _).
  - apply list_elem_of_further, list_elem_of_here.
  - vm_compute. reflexivity.
Defined.

(** C6. When the fetch for a row whose link was classified as a PDF fails
    (bad status, request exception or any other exception), the loop goes
    on to the next row with only this row marked Failed; in the result
    the row has PDF Available = Failed and empty PDF ID and PDF Path; and
    the pass completes whatever the fetches do, as long as the classifier
    raises on no link. The column labels of the table are distinct: with
    a repeated link label the code raises at the first row, before any
    fetch. *)
Theorem failed_fetch_marks_row_and_continues (ok : str -> bool) (w : World)
    (link : str) (df : DataFrame) (i : nat) (r : row) (url : str) :
  NoDup (columns df) ->
  link ∈ columns df ->
  link <> COL_AVAILABLE -> link <> COL_ID -> link <> COL_PATH ->
  rows df !! i = Some r ->
  r !! link = Some url ->
  strip url <> [] ->
  is_pdf_url ok (PyStr url) = Ok true ->
  http_get w i url <> Fetched ->
  (forall (r' : row) (rest : list row) (cur : DataFrame),
      r' !! link = Some url ->
      links_loop ok w link i (r' :: rest) cur
      = links_loop ok w link (S i) rest (at_set i COL_AVAILABLE FAILED cur))
  /\ (forall df', process_links_and_download_pdfs ok w link df = Ok df' ->
        at_get df' i COL_AVAILABLE = Some FAILED
        /\ at_get df' i COL_ID = Some []
        /\ at_get df' i COL_PATH = Some [])
  /\ ((forall (r' : row) (u : str), r' ∈ rows df -> r' !! link = Some u ->
         is_pdf_url ok (PyStr u) <> Raise ValueError) ->
      exists df', process_links_and_download_pdfs ok w link df = Ok df').
Proof.
  intros _ Hin Ha Hi Hp Hr Hl Hs Hc Hf.
  assert (Hd : download_pdf w i url (generate_unique_id (uuid4 w i)) = None).
  { unfold download_pdf. destruct (http_get w i url); congruence. }
  assert (Hfresh : forall x : row, fresh_row x !! link = x !! link).
  { intros x. unfold fresh_row.
    rewrite !lookup_insert_ne by (apply not_eq_sym; assumption). reflexivity. }
  split; [|split].
  - intros r' rest cur Hl'. cbn [links_loop]. rewrite Hl'.
    destruct (strip url) as [|c s]; [congruence|].
    rewrite Hc. cbv zeta. rewrite Hd. reflexivity.
  - intros df' Hdf. unfold at_get.
    rewrite (process_links_rows ok w link df df' i Hin Hdf), Hr.
    cbn [fmap option_fmap option_map mbind option_bind].
    unfold link_fn, link_step. rewrite Hfresh, Hl.
    destruct (strip url) as [|c s]; [congruence|].
    rewrite Hc. cbv zeta. rewrite Hd. apply mark_failed_cells.
  - intros Hno. unfold process_links_and_download_pdfs.
    destruct (decide (link ∈ columns df)); [|contradiction].
    apply links_loop_total. cbn [set_column rows].
    intros r' u Hr' Hu.
    rewrite <- !list_fmap_compose in Hr'.
    apply list_elem_of_fmap in Hr' as (x & -> & Hx).
    apply (Hno x u Hx). rewrite <- Hu. symmetry. apply (Hfresh x).
Qed.

Lemma failed_fetch_marks_row_and_continues_witness :
  exists df',
    process_links_and_download_pdfs (fun _ => true) sample_world LINK
      sample_sheet = Ok df'
    /\ at_get df' 1 COL_AVAILABLE = Some FAILED
    /\ at_get df' 1 COL_ID = Some []
    /\ at_get df' 1 COL_PATH = Some []
    /\ at_get df' 2 COL_AVAILABLE = Some NO.
Proof.
  eexists. split; [reflexivity|].
  destruct (failed_fetch_marks_row_and_continues (fun _ => true) sample_world
              LINK sample_sheet 1
              {[ lit "title" := lit "b";
                 LINK := lit "https://example.org/gone.pdf" ]}
              (lit "https://example.org/gone.pdf")) as (_ & H & _).
  - apply NoDup_cons. split; [|apply NoDup_singleton].
    intros E. apply list_elem_of_singleton in E. discriminate E.
  - apply list_elem_of_further, list_elem_of_here.
  - discriminate.
  - discriminate.
  - discriminate.
  - reflexivity.
  - vm_compute. reflexivity.
  - vm_compute. discriminate.
  - vm_compute. reflexivity.
  - vm_compute. discriminate.
  - destruct (H _ eq_refl) as (H1 & H2 & H3).
    split; [exact H1|]. split; [exact H2|]. split; [exact H3|].
    vm_compute. reflexivity.
Defined.

(** ** Extraction engine: fallback *)

Definition is_chat (c : call) : bool :=
  match c with
  | ChatCompletionsCreate _ => true
  | _ => false
  end.

Definition is_run_create (c : call) : bool :=
  match c with
  | RunsCreate => true
  | _ => false
  end.

(** How many calls of a log satisfy [p]. *)
Definition count (p : call -> bool) (log : list call) : nat :=
  length (List.filter p log).

Lemma count_app (p : call -> bool) (l l' : list call) :
  count p (l ++ l') = (count p l + count p l')%nat.
Proof. unfold count. now rewrite List.filter_app, length_app. Qed.

Lemma poll_log (responses : list (option str)) (status : str) :
  Forall (fun c => c = RunsRetrieve) (snd (poll responses status)).
Proof.
  revert status; induction responses as [|r rest IH]; intros status; simpl.
  - destruct (is_pending status); constructor.
  - destruct (is_pending status); [|constructor].
    destruct r as [s|]; simpl.
    + specialize (IH s). destruct (poll rest s) as [res l]. simpl in *.
      constructor; [reflexivity | exact IH].
    + constructor; [reflexivity | constructor].
Qed.

Lemma count_retrieves (p : call -> bool) (l : list call) :
  p RunsRetrieve = false ->
  Forall (fun c => c = RunsRetrieve) l -> count p l = 0%nat.
Proof.
  intros Hp H. unfold count. induction H as [|c l -> _ IH]; simpl;
    [reflexivity|]. now rewrite Hp.
Qed.

Lemma retrieves_no_chat (l : list call) (prompt : str) :
  Forall (fun c => c = RunsRetrieve) l -> ChatCompletionsCreate prompt ∉ l.
Proof.
  intros H Hin. rewrite Forall_forall in H. specialize (H _ Hin).
  discriminate.
Qed.

(** A completion call is not in a log that lists none. *)
Ltac not_in_log :=
  let Hin := fresh "Hin" in
  intros ? Hin;
  repeat (apply elem_of_cons in Hin as [Hin|Hin]; [discriminate|]);
  first [ now apply elem_of_nil in Hin | eauto ].

(** Strategy A, up to the end of polling, makes no completion call and
    creates at most one run. *)
Lemma run_assistant_log (api : Api) (fid : str) :
  count is_chat (snd (run_assistant api fid)) = 0%nat
  /\ (count is_run_create (snd (run_assistant api fid)) <= 1)%nat
  /\ (forall prompt,
         ChatCompletionsCreate prompt ∉ snd (run_assistant api fid)).
Proof.
  unfold run_assistant.
  pose proof (fun s => poll_log (runs_retrieve api) s) as Hpoll.
  destruct (assistants_create api), (threads_create api),
    (messages_create api), (runs_create api) as [s|];
    cbn [guard_ok perform bind fst snd app];
    try (split; [reflexivity | split; [cbn; lia | not_in_log]]).
  specialize (Hpoll s). destruct (poll (runs_retrieve api) s) as [r l].
  cbn [fst snd] in *. split; [|split].
  - change (count is_chat l = 0%nat). now apply count_retrieves.
  - change (S (count is_run_create l) <= 1)%nat.
    rewrite count_retrieves; [lia | reflexivity | assumption].
  - intros prompt Hin.
    repeat (apply elem_of_cons in Hin as [Hin|Hin]; [discriminate|]).
    now apply (retrieves_no_chat l prompt).
Qed.

Lemma chat_prompt_has_id (fid : str) : contains fid (chat_prompt fid) = true.
Proof.
  apply contains_spec.
  exists CHAT_PROMPT_HEAD, (CHAT_PROMPT_BODY ++ fid ++ CHAT_PROMPT_TAIL).
  reflexivity.
Qed.

(** Strategy A reports failure when it throws and when the job ends in a
    state other than [completed]. *)
Lemma assistants_failure (api : Api) (fid pdf_name : str) :
  (fst (run_assistant api fid) = Thrown
   \/ exists s, fst (run_assistant api fid) = Val s /\ s <> COMPLETED) ->
  generate_methodology_summary_with_assistants api fid pdf_name
  = (Val None, snd (run_assistant api fid)).
Proof.
  unfold generate_methodology_summary_with_assistants.
  destruct (run_assistant api fid) as [r l]. cbn [fst snd].
  intros [-> | (s & -> & Hs)]; cbn [bind try_except ret].
  - now rewrite app_nil_r.
  - destruct (str_eqb s COMPLETED) eqn:E.
    + apply str_eqb_eq in E. contradiction.
    + cbn. now rewrite app_nil_r.
Qed.

(** Strategy B makes one completion call, first, with the prompt built
    from the file id; it catches what it throws. *)
Lemma chat_log (api : Api) (fid pdf_name : str) :
  exists (r : option str) (rest : list call),
    generate_methodology_summary_with_chat api fid pdf_name
    = (Val r, ChatCompletionsCreate (chat_prompt fid) :: rest)
    /\ count is_chat rest = 0%nat
    /\ count is_run_create rest = 0%nat
    /\ forall prompt, ChatCompletionsCreate prompt ∉ rest.
Proof.
  unfold generate_methodology_summary_with_chat.
  destruct (chat_create api) as [s|], (chat_write api); cbn;
    eexists _, _; (split; [reflexivity|]);
    (split; [reflexivity | split; [reflexivity | not_in_log]]).
Qed.

(** The extraction of a document whose upload succeeded and whose
    Strategy A failed: the upload, Strategy A's calls, Strategy B's. *)
Lemma generate_after_failure (api : Api) (pdf_name fid : str) :
  files_create api = Some fid ->
  fid <> [] ->
  (fst (run_assistant api fid) = Thrown
   \/ exists s, fst (run_assistant api fid) = Val s /\ s <> COMPLETED) ->
  generate_methodology_summary api pdf_name
  = (fst (generate_methodology_summary_with_chat api fid pdf_name),
     [FilesCreate pdf_name] ++ snd (run_assistant api fid)
     ++ snd (generate_methodology_summary_with_chat api fid pdf_name)).
Proof.
  intros Hup Hfid Hfail.
  unfold generate_methodology_summary, upload_pdf_to_openai.
  rewrite Hup. destruct fid as [|c fid]; [congruence|].
  cbn [perform bind try_except ret app].
  rewrite (assistants_failure api (c :: fid) pdf_name Hfail).
  cbn [truthy].
  destruct (chat_log api (c :: fid) pdf_name) as (r & rest & -> & _).
  reflexivity.
Qed.

(** C7, as stated, fails for a failure during upload: there is then no
    upload reference, and the fallback is not invoked at all. *)
Lemma no_fallback_after_failed_upload :
  let api := {| files_create := None;
                assistants_create := true; threads_create := true;
                messages_create := true; runs_create := Some (lit "queued");
                runs_retrieve := [Some COMPLETED];
                messages_list := Some (lit "text"); assistants_write := true;
                chat_create := Some (lit "text"); chat_write := true |} in
  upload_pdf_to_openai api (lit "a1b2c3d4.pdf")
  = (Val None, [FilesCreate (lit "a1b2c3d4.pdf")])
  /\ generate_methodology_summary api (lit "a1b2c3d4.pdf")
     = (Val None, [FilesCreate (lit "a1b2c3d4.pdf")])
  /\ count is_chat (snd (generate_methodology_summary api (lit "a1b2c3d4.pdf")))
     = 0%nat.
Proof. repeat split. Qed.

(** C7, amended. For every document whose upload gave a file id and
    whose Strategy A throws during job creation or polling, or ends in a
    job state other than [completed], Strategy B is invoked exactly once,
    with a prompt that contains the file id, its result is the result of
    the extraction, and Strategy A's run is created at most once. *)
Theorem fallback_invoked_once (api : Api) (pdf_name fid : str) :
  files_create api = Some fid ->
  fid <> [] ->
  (fst (run_assistant api fid) = Thrown
   \/ exists s, fst (run_assistant api fid) = Val s /\ s <> COMPLETED) ->
  let log := snd (generate_methodology_summary api pdf_name) in
  count is_chat log = 1%nat
  /\ (forall prompt, ChatCompletionsCreate prompt ∈ log ->
                     prompt = chat_prompt fid /\ contains fid prompt = true)
  /\ (count is_run_create log <= 1)%nat
  /\ fst (generate_methodology_summary api pdf_name)
     = fst (generate_methodology_summary_with_chat api fid pdf_name).
Proof.
  intros Hup Hfid Hfail log. subst log.
  rewrite (generate_after_failure api pdf_name fid Hup Hfid Hfail).
  cbn [fst snd].
  destruct (run_assistant_log api fid) as (Hc & Hr & Hn).
  destruct (chat_log api fid pdf_name) as (r & rest & -> & Hc' & Hr' & Hn').
  cbn [fst snd].
  change (ChatCompletionsCreate (chat_prompt fid) :: rest)
    with ([ChatCompletionsCreate (chat_prompt fid)] ++ rest).
  split; [|split; [|split]].
  - rewrite !count_app, Hc, Hc'. reflexivity.
  - intros prompt Hin.
    apply elem_of_app in Hin as [Hin|Hin];
      [apply elem_of_cons in Hin as [Hin|Hin];
         [discriminate | now apply elem_of_nil in Hin]|].
    apply elem_of_app in Hin as [Hin|Hin]; [now apply Hn in Hin|].
    apply elem_of_app in Hin as [Hin|Hin]; [|now apply Hn' in Hin].
    apply elem_of_cons in Hin as [Hin|Hin];
      [|now apply elem_of_nil in Hin].
    injection Hin as ->. split; [reflexivity | apply chat_prompt_has_id].
  - rewrite !count_app, Hr'.
    change (count is_run_create [FilesCreate pdf_name]) with O.
    change (count is_run_create [ChatCompletionsCreate (chat_prompt fid)])
      with O.
    lia.
  - reflexivity.
Qed.

Lemma fallback_invoked_once_witness :
  let api := {| files_create := Some (lit "file-abc123");
                assistants_create := true; threads_create := true;
                messages_create := true; runs_create := Some (lit "queued");
                runs_retrieve := [Some (lit "in_progress"); Some (lit "failed")];
                messages_list := Some (lit "text"); assistants_write := true;
                chat_create := Some (lit "summary"); chat_write := true |} in
  let log := snd (generate_methodology_summary api (lit "a1b2c3d4.pdf")) in
  count is_chat log = 1%nat
  /\ fst (generate_methodology_summary api (lit "a1b2c3d4.pdf"))
     = Val (Some (lit "summary")).
Proof.
  intros api log.
  destruct (fallback_invoked_once api (lit "a1b2c3d4.pdf") (lit "file-abc123"))
    as (H1 & _ & _ & H4).
  - reflexivity.
  - discriminate.
  - right. exists (lit "failed"). split; [reflexivity | discriminate].
  - split; [exact H1 | exact H4].
Defined.

(** ** Batch: the sentinel for a failed extraction *)

(** What the batch stores for an extraction result. *)
Definition summary_entry (summary : option str) : str :=
  if truthy summary then format_for_google_sheets summary
  else FAILED_SUMMARY.

(** A strategy failed: it ended without a usable summary. *)
Definition strategy_failed (m : M (option str)) : Prop :=
  exists o, fst m = Val o /\ truthy o = false.

Lemma try_except_ret_not_thrown {A : Type} (m : M A) (a : A) :
  fst (try_except m (ret a)) <> Thrown.
Proof. destruct m as [[x| |] l]; cbn; discriminate. Qed.

(** Each extraction catches what it throws. *)
Lemma generate_not_thrown (api : Api) (pdf_name : str) :
  fst (generate_methodology_summary api pdf_name) <> Thrown.
Proof. apply try_except_ret_not_thrown. Qed.

(** The batch loop, when every extraction ends: it ends, every file's id
    has its entry, and the other keys are as before. *)
Lemma batch_loop_spec (generate : str -> M (option str))
    (pdf_files : list str) (acc : gmap (list N) (list N)) :
  NoDup (stem <$> pdf_files) ->
  (forall f, f ∈ pdf_files -> exists o, fst (generate f) = Val o) ->
  exists summaries log,
    batch_loop generate pdf_files acc = (Val summaries, log)
    /\ (forall f o, f ∈ pdf_files -> fst (generate f) = Val o ->
          summaries !! stem f = Some (summary_entry o))
    /\ (forall k, k ∉ stem <$> pdf_files -> summaries !! k = acc !! k).
Proof.
  revert acc; induction pdf_files as [|f0 rest IH]; intros acc Hnd Hall.
  - exists acc, []. split; [reflexivity|]. split.
    + intros f o Hin. now apply elem_of_nil in Hin.
    + reflexivity.
  - rewrite fmap_cons in Hnd. apply NoDup_cons in Hnd as [Hnot Hnd].
    destruct (Hall f0 (list_elem_of_here _ _)) as [o0 Ho0].
    assert (Hrest : forall f, f ∈ rest -> exists o, fst (generate f) = Val o).
    { intros f Hin. apply Hall. now apply list_elem_of_further. }
    destruct (IH (<[stem f0 := summary_entry o0]> acc) Hnd Hrest)
      as (s & l & Hs & Hentries & Hother).
    destruct (generate f0) as [r0 l0] eqn:Eg. cbn [fst] in Ho0. subst r0.
    exists s, (l0 ++ l). split; [|split].
    + cbn [batch_loop]. rewrite Eg. cbn [bind]. unfold summary_entry in Hs.
      destruct (truthy o0); rewrite Hs; reflexivity.
    + intros f o Hin Ho. apply elem_of_cons in Hin as [-> | Hin].
      * rewrite Eg in Ho. cbn [fst] in Ho. injection Ho as <-.
        rewrite (Hother _ Hnot). apply lookup_insert_eq.
      * now apply Hentries.
    + intros k Hk. rewrite fmap_cons in Hk.
      apply not_elem_of_cons in Hk as [Hne Hk].
      rewrite (Hother k Hk). apply lookup_insert_ne. congruence.
Qed.

(** The same for the whole of [process_all_pdfs]. *)
Lemma process_all_pdfs_spec (generate : str -> M (option str))
    (pdf_files : list str) :
  NoDup (stem <$> pdf_files) ->
  (forall f, f ∈ pdf_files -> exists o, fst (generate f) = Val o) ->
  exists summaries log,
    process_all_pdfs generate true pdf_files = (Val summaries, log)
    /\ (forall f o, f ∈ pdf_files -> fst (generate f) = Val o ->
          summaries !! stem f = Some (summary_entry o)).
Proof.
  intros Hnd Hall. unfold process_all_pdfs. cbn [negb].
  destruct pdf_files as [|f0 rest].
  - exists ∅, []. split; [reflexivity|].
    intros f o Hin. now apply elem_of_nil in Hin.
  - destruct (batch_loop_spec generate (f0 :: rest) ∅ Hnd Hall)
      as (s & l & Hs & He & _).
    exists s, l. split; assumption.
Qed.

(** When both strategies fail, the extraction returns no usable
    summary. *)
Lemma generate_fails_when_both_fail (api : Api) (pdf_name fid : str) :
  files_create api = Some fid ->
  fid <> [] ->
  strategy_failed (generate_methodology_summary_with_assistants api fid pdf_name) ->
  strategy_failed (generate_methodology_summary_with_chat api fid pdf_name) ->
  strategy_failed (generate_methodology_summary api pdf_name).
Proof.
  intros Hup Hfid (a & Ha & Hta) (b & Hb & Htb).
  unfold strategy_failed, generate_methodology_summary, upload_pdf_to_openai.
  rewrite Hup. destruct fid as [|c fid]; [congruence|].
  cbn [perform bind try_except ret app].
  destruct (generate_methodology_summary_with_assistants api (c :: fid) pdf_name)
    as [ra la]. cbn [fst] in Ha. subst ra.
  destruct (generate_methodology_summary_with_chat api (c :: fid) pdf_name)
    as [rb lb]. cbn [fst] in Hb. subst rb.
  cbn [bind]. rewrite Hta. cbn. exists b. split; [reflexivity | exact Htb].
Qed.

(** C8. For every PDF file of the storage directory (the files have
    distinct ids) whose extraction fails under both strategies, the
    mapping that the batch returns has, at the document's id, the
    sentinel [Failed to generate summary]; the batch ends with an entry
    for every file, provided no extraction waits forever on its job. *)
Theorem failed_extraction_gets_sentinel (apis : str -> Api)
    (pdf_files : list str) (f fid : str) :
  f ∈ pdf_files ->
  NoDup (stem <$> pdf_files) ->
  (forall g, g ∈ pdf_files ->
             fst (generate_methodology_summary (apis g) g) <> Hangs) ->
  files_create (apis f) = Some fid ->
  fid <> [] ->
  strategy_failed
    (generate_methodology_summary_with_assistants (apis f) fid f) ->
  strategy_failed (generate_methodology_summary_with_chat (apis f) fid f) ->
  exists summaries log,
    process_all_pdfs (fun g => generate_methodology_summary (apis g) g)
      true pdf_files = (Val summaries, log)
    /\ summaries !! stem f = Some FAILED_SUMMARY
    /\ (forall g, g ∈ pdf_files -> is_Some (summaries !! stem g)).
Proof.
  intros Hin Hnd Hnh Hup Hfid HA HB.
  assert (Hall : forall g, g ∈ pdf_files ->
            exists o, fst (generate_methodology_summary (apis g) g) = Val o).
  { intros g Hg. specialize (Hnh g Hg).
    pose proof (generate_not_thrown (apis g) g) as Hnt.
    destruct (fst (generate_methodology_summary (apis g) g)) as [o| |];
      [eauto | congruence | congruence]. }
  destruct (process_all_pdfs_spec
              (fun g => generate_methodology_summary (apis g) g)
              pdf_files Hnd Hall) as (s & l & Hs & He).
  exists s, l. split; [exact Hs|]. split.
  - destruct (generate_fails_when_both_fail (apis f) f fid Hup Hfid HA HB)
      as (o & Ho & Hto).
    rewrite (He f o Hin Ho). unfold summary_entry. now rewrite Hto.
  - intros g Hg. destruct (Hall g Hg) as [o Ho].
    rewrite (He g o Hg Ho). eauto.
Qed.

(** The text variant stores the sentinel in the same way. *)
Lemma failed_text_extraction_gets_sentinel (apis : str -> TextApi)
    (pdf_files : list str) (f : str) :
  f ∈ pdf_files ->
  NoDup (stem <$> pdf_files) ->
  strategy_failed (generate_methodology_summary_text (apis f) f) ->
  exists summaries log,
    process_all_pdfs (fun g => generate_methodology_summary_text (apis g) g)
      true pdf_files = (Val summaries, log)
    /\ summaries !! stem f = Some FAILED_SUMMARY.
Proof.
  intros Hin Hnd (o & Ho & Hto).
  assert (Hall : forall g, g ∈ pdf_files ->
            exists o, fst (generate_methodology_summary_text (apis g) g) = Val o).
  { intros g Hg. unfold generate_methodology_summary_text.
    destruct (extract_text (apis g)) as [t|]; cbn; [|eauto].
    destruct (strip t); cbn; [eauto|].
    destruct (text_chat_create (apis g)), (text_chat_write (apis g)); cbn;
      eauto. }
  destruct (process_all_pdfs_spec _ pdf_files Hnd Hall) as (s & l & Hs & He).
  exists s, l. split; [exact Hs|].
  rewrite (He f o Hin Ho). unfold summary_entry. now rewrite Hto.
Qed.

Definition sample_apis (g : str) : Api :=
  {| files_create := Some (lit "file-abc123");
     assistants_create := true; threads_create := true;
     messages_create := true; runs_create := Some (lit "queued");
     runs_retrieve := [Some (lit "failed")];
     messages_list := Some (lit "text"); assistants_write := true;
     chat_create := if str_eqb g (lit "a1b2c3d4.pdf") then None
                    else Some (lit "summary");
     chat_write := true |}.

Lemma failed_extraction_gets_sentinel_witness :
  exists summaries log,
    process_all_pdfs (fun g => generate_methodology_summary (sample_apis g) g)
      true [lit "a1b2c3d4.pdf"; lit "e5f6a7b8.pdf"] = (Val summaries, log)
    /\ summaries !! lit "a1b2c3d4" = Some FAILED_SUMMARY
    /\ summaries !! lit "e5f6a7b8" = Some (lit "summary").
Proof.
  destruct (failed_extraction_gets_sentinel sample_apis
              [lit "a1b2c3d4.pdf"; lit "e5f6a7b8.pdf"]
              (lit "a1b2c3d4.pdf") (lit "file-abc123"))
    as (s & l & Hs & H1 & _).
  - apply list_elem_of_here.
  - apply NoDup_cons. split; [|apply NoDup_singleton].
    intros H. apply list_elem_of_singleton in H. vm_compute in H.
    discriminate.
  - intros g Hg.
    apply elem_of_cons in Hg as [-> | Hg]; [vm_compute; discriminate|].
    apply elem_of_cons in Hg as [-> | Hg]; [vm_compute; discriminate|].
    now apply elem_of_nil in Hg.
  - reflexivity.
  - discriminate.
  - exists None. split; reflexivity.
  - exists None. split; reflexivity.
  - exists s, l. split; [exact Hs|]. split; [exact H1|].
    vm_compute in Hs. injection Hs as <- _. vm_compute. reflexivity.
Defined.

(** ** Sheet formatter: idempotence *)

(** C3, as stated, fails: a space followed by 45,000 letters is cut to
    45,000 characters, the marker is appended and the leading space is
    stripped; formatting that again cuts at a different place and leaves
    one more line feed before the marker's text. *)
Lemma format_not_idempotent_when_truncated :
  let x := SP :: repeat 97 CELL_CAP in
  format_for_google_sheets (Some (format_for_google_sheets (Some x)))
  <> format_for_google_sheets (Some x).
Proof.
  intros x H.
  assert (E : str_eqb
                (format_for_google_sheets
                   (Some (format_for_google_sheets (Some x))))
                (format_for_google_sheets (Some x)) = false)
    by (vm_compute; reflexivity).
  rewrite H, str_eqb_refl in E. discriminate.
Qed.

(** *** Character facts *)

Lemma is_space_NL : is_space NL = true. Proof. reflexivity. Qed.
Lemma is_space_SP : is_space SP = true. Proof. reflexivity. Qed.
Lemma is_space_BULLET : is_space BULLET = false. Proof. reflexivity. Qed.

Lemma is_blank_space (c : char) : is_blank c = true -> is_space c = true.
Proof.
  unfold is_blank. intros H. apply orb_true_iff in H as [H|H];
    apply N.eqb_eq in H; subst; reflexivity.
Qed.

Lemma not_space_not_blank (c : char) : is_space c = false -> is_blank c = false.
Proof.
  intros H. destruct (is_blank c) eqn:E; [|reflexivity].
  apply is_blank_space in E. congruence.
Qed.

Lemma not_space_not_NL (c : char) : is_space c = false -> (c =? NL) = false.
Proof.
  intros H. destruct (c =? NL) eqn:E; [|reflexivity].
  apply N.eqb_eq in E. subst. discriminate.
Qed.

(** *** The scan *)

(** The character before the position reached after passing over [t]. *)
Definition new_prev (prev : option char) (t : str) : option char :=
  match last t with
  | Some c => Some c
  | None => prev
  end.

Lemma last_cons_Some (d : char) (t : str) : exists x, last (d :: t) = Some x.
Proof.
  revert d; induction t as [|e t IH]; intros d; [now exists d|].
  destruct (IH e) as [x Hx]. exists x. exact Hx.
Qed.

(** Passing over the rest of a match. *)
Lemma sub_scan_skip (m : matcher) (repl : str) (n : nat) (prev : option char)
    (s : str) :
  sub_scan m repl n prev s
  = sub_scan m repl 0 (new_prev prev (take n s)) (drop n s).
Proof.
  revert prev s; induction n as [|n IH]; intros prev s.
  - rewrite take_0, drop_0. reflexivity.
  - destruct s as [|c r]; [reflexivity|].
    cbn [sub_scan take drop]. rewrite IH. f_equal.
    unfold new_prev. cbn [last]. destruct (take n r) as [|d t] eqn:E.
    + reflexivity.
    + change (last (c :: d :: t)) with (last (d :: t)).
      destruct (last_cons_Some d t) as [x ->]. reflexivity.
Qed.

(** A pattern without anchor does not look at the previous character. *)
Lemma sub_scan_prev (m : matcher) (repl : str) :
  (forall p q s, m p s = m q s) ->
  forall s n p q, sub_scan m repl n p s = sub_scan m repl n q s.
Proof.
  intros Hm s; induction s as [|c r IH]; intros n p q; [reflexivity|].
  cbn [sub_scan]. destruct n; [|reflexivity].
  rewrite (Hm p q). reflexivity.
Qed.

Lemma drop_length_take_while (p : char -> bool) (s : str) :
  drop (length (take_while p s)) s = drop_while p s.
Proof.
  induction s as [|c r IH]; [reflexivity|].
  cbn [take_while drop_while]. destruct (p c); [exact IH | reflexivity].
Qed.

Lemma rfind_char_None (c : char) (s : str) :
  rfind_char c s = None <-> has_char c s = false.
Proof.
  unfold has_char. induction s as [|x r IH]; cbn [rfind_char existsb];
    [tauto|].
  rewrite (N.eqb_sym c x). destruct (rfind_char c r) as [j|].
  - split; [discriminate|]. intros H. apply orb_false_iff in H as [_ H].
    apply IH in H. discriminate.
  - destruct (x =? c); cbn [orb]; [split; discriminate|].
    split; intros _; [now apply IH | reflexivity].
Qed.

Lemma rfind_char_Some (c : char) (s : str) (j : nat) :
  rfind_char c s = Some j ->
  (j < length s)%nat /\ has_char c (drop (S j) s) = false.
Proof.
  revert j; induction s as [|x r IH]; intros j; cbn [rfind_char];
    [discriminate|].
  destruct (rfind_char c r) as [k|] eqn:E.
  - intros [= <-]. destruct (IH k eq_refl) as [H1 H2].
    split; [cbn [length]; lia | exact H2].
  - destruct (x =? c); [|discriminate]. intros [= <-].
    split; [cbn [length]; lia|]. rewrite drop_0' || cbn [drop].
    now apply rfind_char_None.
Qed.

Lemma take_while_drop (p : char -> bool) (k : nat) (s : str) :
  (k <= length (take_while p s))%nat ->
  take_while p (drop k s) = drop k (take_while p s).
Proof.
  revert s; induction k as [|k IH]; intros s H; [reflexivity|].
  destruct s as [|c r]; [reflexivity|].
  cbn [take_while] in *. destruct (p c); cbn [length drop] in *; [|lia].
  apply IH. lia.
Qed.

(** *** The three substitutions and their equations *)

Definition sub_blank_lines (s : str) : str := re_sub blank_lines [NL] s.
Definition sub_blank_run (s : str) : str := re_sub blank_run [SP] s.
Definition sub_bullet (prev : option char) (s : str) : str :=
  sub_scan bullet_lead [BULLET; SP] 0 prev s.

Lemma normalize_eq (s : str) :
  normalize s = sub_bullet None (sub_blank_run (sub_blank_lines s)).
Proof. reflexivity. Qed.

(** The leading run of white space of [r] has a line feed. *)
Definition lead_nl (r : str) : bool := has_char NL (take_while is_space r).

Lemma lead_nl_cons (c : char) (r : str) :
  lead_nl (c :: r)
  = if is_space c then (c =? NL) || lead_nl r else false.
Proof.
  unfold lead_nl, has_char. cbn [take_while].
  destruct (is_space c); [|reflexivity].
  cbn [existsb]. now rewrite (N.eqb_sym NL c).
Qed.

(** What remains to scan after a line feed. *)
Definition after_blank_lines (r : str) : str :=
  match rfind_char NL (take_while is_space r) with
  | Some j => drop (S j) r
  | None => r
  end.

Lemma sub_blank_lines_other (c : char) (r : str) :
  (c =? NL) = false -> sub_blank_lines (c :: r) = c :: sub_blank_lines r.
Proof.
  intros H. unfold sub_blank_lines, re_sub. cbn [sub_scan blank_lines].
  rewrite H. f_equal. now apply sub_scan_prev.
Qed.

Lemma sub_blank_lines_nl (r : str) :
  sub_blank_lines (NL :: r) = NL :: sub_blank_lines (after_blank_lines r).
Proof.
  unfold sub_blank_lines, re_sub, after_blank_lines.
  cbn [sub_scan blank_lines]. rewrite N.eqb_refl.
  destruct (rfind_char NL (take_while is_space r)) as [j|].
  - cbn [app]. f_equal. rewrite sub_scan_skip. now apply sub_scan_prev.
  - f_equal. now apply sub_scan_prev.
Qed.

Lemma lead_nl_after_blank_lines (r : str) :
  lead_nl (after_blank_lines r) = false.
Proof.
  unfold after_blank_lines, lead_nl.
  destruct (rfind_char NL (take_while is_space r)) as [j|] eqn:E.
  - apply rfind_char_Some in E as [Hj Hd].
    rewrite take_while_drop by lia. exact Hd.
  - now apply rfind_char_None.
Qed.

Lemma length_after_blank_lines (r : str) :
  (length (after_blank_lines r) <= length r)%nat.
Proof.
  unfold after_blank_lines. destruct (rfind_char _ _); [|lia].
  rewrite length_drop. lia.
Qed.

Lemma sub_blank_run_other (c : char) (r : str) :
  is_blank c = false -> sub_blank_run (c :: r) = c :: sub_blank_run r.
Proof.
  intros H. unfold sub_blank_run, re_sub. cbn [sub_scan].
  unfold blank_run at 1. cbn [take_while].
  rewrite H. cbn [length]. f_equal. now apply sub_scan_prev.
Qed.

Lemma sub_blank_run_blank (c : char) (r : str) :
  is_blank c = true ->
  sub_blank_run (c :: r) = SP :: sub_blank_run (drop_while is_blank r).
Proof.
  intros H. unfold sub_blank_run, re_sub. cbn [sub_scan].
  unfold blank_run at 1. cbn [take_while].
  rewrite H. cbn [length app]. f_equal.
  rewrite sub_scan_skip, drop_length_take_while. now apply sub_scan_prev.
Qed.

(** The text starts a bulleted line: white space, then a dash. *)
Definition dash_line (s : str) : bool :=
  match drop_while is_space s with
  | c :: _ => c =? DASH
  | [] => false
  end.

Lemma dash_line_cons (c : char) (r : str) :
  dash_line (c :: r) = if is_space c then dash_line r else c =? DASH.
Proof. unfold dash_line. cbn [drop_while]. now destruct (is_space c). Qed.

(** What remains to scan after a bullet lead. *)
Definition after_bullet (s : str) : str :=
  drop_while is_space (drop 1 (drop_while is_space s)).

Lemma bullet_lead_None (prev : option char) (s : str) :
  line_start prev && dash_line s = false -> bullet_lead prev s = None.
Proof.
  unfold bullet_lead, dash_line. destruct (line_start prev); [|reflexivity].
  cbn [andb]. destruct (drop_while is_space s) as [|c r]; [reflexivity|].
  now intros ->.
Qed.

Lemma sub_bullet_copy (prev : option char) (c : char) (r : str) :
  line_start prev && dash_line (c :: r) = false ->
  sub_bullet prev (c :: r) = c :: sub_bullet (Some c) r.
Proof.
  intros H. unfold sub_bullet. cbn [sub_scan].
  now rewrite (bullet_lead_None prev (c :: r) H).
Qed.

Lemma sub_bullet_match (prev : option char) (s : str) :
  line_start prev = true -> dash_line s = true ->
  exists p, sub_bullet prev s = BULLET :: SP :: sub_bullet p (after_bullet s).
Proof.
  intros Hp Hd. unfold dash_line in Hd.
  destruct (drop_while is_space s) as [|d r'] eqn:E; [discriminate|].
  destruct s as [|c r]; [discriminate|].
  set (a := length (take_while is_space (c :: r))).
  set (b := length (take_while is_space r')).
  assert (Hdrop : drop (a + b) r = after_bullet (c :: r)).
  { unfold after_bullet. rewrite E. cbn [drop].
    change (drop (a + b) r) with (drop (S (a + b)) (c :: r)).
    rewrite <- (take_drop_while is_space (c :: r)) at 1. rewrite E.
    rewrite drop_app_ge by (fold a; lia). fold a.
    replace (S (a + b) - a)%nat with (S b) by lia. cbn [drop].
    apply drop_length_take_while. }
  unfold sub_bullet. cbn [sub_scan]. unfold bullet_lead at 1.
  rewrite Hp, E, Hd. fold a b.
  replace (a + 1 + b)%nat with (S (a + b)) by lia.
  cbn [app]. rewrite sub_scan_skip, Hdrop. eexists. reflexivity.
Qed.

(** *** Texts the substitutions leave as they are *)

(** No line feed is followed by white space up to another line feed. *)
Fixpoint no_blank_lines (s : str) : Prop :=
  match s with
  | [] => True
  | c :: r => ((c =? NL) = true -> lead_nl r = false) /\ no_blank_lines r
  end.

Definition head_not_blank (s : str) : Prop :=
  match s with
  | [] => True
  | c :: _ => is_blank c = false
  end.

(** Every space or tab is one space followed by something else. *)
Fixpoint single_spaces (s : str) : Prop :=
  match s with
  | [] => True
  | c :: r =>
      (is_blank c = true -> c = SP /\ head_not_blank r) /\ single_spaces r
  end.

(** No line starts with white space and a dash; [prev] is the character
    before the text. *)
Fixpoint no_bullet_lead (prev : option char) (s : str) : Prop :=
  line_start prev && dash_line s = false
  /\ match s with
     | [] => True
     | c :: r => no_bullet_lead (Some c) r
     end.

Lemma fix_blank_lines (s : str) : no_blank_lines s -> sub_blank_lines s = s.
Proof.
  induction s as [|c r IH]; [reflexivity|]. intros [H1 H2].
  destruct (c =? NL) eqn:E.
  - apply N.eqb_eq in E. subst c. rewrite sub_blank_lines_nl.
    unfold after_blank_lines.
    assert (rfind_char NL (take_while is_space r) = None) as ->.
    { apply rfind_char_None. apply H1. reflexivity. }
    now rewrite IH.
  - rewrite sub_blank_lines_other by assumption. now rewrite IH.
Qed.

Lemma drop_while_fix (p : char -> bool) (s : str) :
  match s with [] => True | c :: _ => p c = false end ->
  drop_while p s = s.
Proof. destruct s as [|c r]; [reflexivity|]. cbn. now intros ->. Qed.

Lemma fix_blank_run (s : str) : single_spaces s -> sub_blank_run s = s.
Proof.
  induction s as [|c r IH]; [reflexivity|]. intros [H1 H2].
  destruct (is_blank c) eqn:E.
  - destruct (H1 eq_refl) as [-> Hh].
    rewrite sub_blank_run_blank by assumption.
    rewrite (drop_while_fix is_blank r Hh). now rewrite IH.
  - rewrite sub_blank_run_other by assumption. now rewrite IH.
Qed.

Lemma fix_bullet (s : str) (prev : option char) :
  no_bullet_lead prev s -> sub_bullet prev s = s.
Proof.
  revert prev; induction s as [|c r IH]; intros prev; [reflexivity|].
  intros [H1 H2]. rewrite sub_bullet_copy by assumption. now rewrite IH.
Qed.

(** *** The first substitution *)

Lemma lead_nl_sub_blank_lines (r : str) :
  lead_nl r = false -> lead_nl (sub_blank_lines r) = false.
Proof.
  induction r as [|c t IH]; [reflexivity|].
  rewrite lead_nl_cons. destruct (is_space c) eqn:Es.
  - intros H. apply orb_false_iff in H as [Hc Ht].
    rewrite sub_blank_lines_other, lead_nl_cons, Es, Hc by assumption.
    now apply IH.
  - intros _. rewrite sub_blank_lines_other by now apply not_space_not_NL.
    now rewrite lead_nl_cons, Es.
Qed.

Lemma no_blank_lines_sub_blank_lines (s : str) :
  no_blank_lines (sub_blank_lines s).
Proof.
  remember (length s) as n eqn:Hn.
  assert (Hle : (length s <= n)%nat) by lia. clear Hn.
  revert s Hle; induction n as [|n IH]; intros s Hle.
  - destruct s; [exact I | cbn in Hle; lia].
  - destruct s as [|c r]; [exact I|]. cbn [length] in Hle.
    destruct (c =? NL) eqn:E.
    + apply N.eqb_eq in E. subst c. rewrite sub_blank_lines_nl.
      split.
      * intros _. apply lead_nl_sub_blank_lines, lead_nl_after_blank_lines.
      * apply IH. pose proof (length_after_blank_lines r). lia.
    + rewrite sub_blank_lines_other by assumption. split.
      * congruence.
      * apply IH. lia.
Qed.

(** *** The second substitution *)

Lemma head_not_blank_drop_while (r : str) :
  head_not_blank (drop_while is_blank r).
Proof.
  destruct (drop_while is_blank r) as [|c t] eqn:E; [exact I|].
  now apply drop_while_head in E.
Qed.

Lemma head_not_blank_sub_blank_run (t : str) :
  head_not_blank t -> head_not_blank (sub_blank_run t).
Proof.
  destruct t as [|c t]; [intros _; exact I|]. intros H.
  rewrite sub_blank_run_other by exact H. exact H.
Qed.

Lemma single_spaces_sub_blank_run (s : str) : single_spaces (sub_blank_run s).
Proof.
  remember (length s) as n eqn:Hn.
  assert (Hle : (length s <= n)%nat) by lia. clear Hn.
  revert s Hle; induction n as [|n IH]; intros s Hle.
  - destruct s; [exact I | cbn in Hle; lia].
  - destruct s as [|c r]; [exact I|]. cbn [length] in Hle.
    destruct (is_blank c) eqn:E.
    + rewrite sub_blank_run_blank by assumption. split.
      * intros _. split; [reflexivity|].
        apply head_not_blank_sub_blank_run, head_not_blank_drop_while.
      * apply IH. pose proof (length_drop_while is_blank r). lia.
    + rewrite sub_blank_run_other by assumption. split.
      * congruence.
      * apply IH. lia.
Qed.

Lemma lead_nl_drop_blank (t : str) :
  lead_nl t = false -> lead_nl (drop_while is_blank t) = false.
Proof.
  induction t as [|c t IH]; [reflexivity|]. intros H.
  cbn [drop_while]. destruct (is_blank c) eqn:E; [|exact H].
  rewrite lead_nl_cons, (is_blank_space c E) in H.
  apply orb_false_iff in H as [_ H]. now apply IH.
Qed.

Lemma lead_nl_sub_blank_run (r : str) :
  lead_nl r = false -> lead_nl (sub_blank_run r) = false.
Proof.
  remember (length r) as n eqn:Hn.
  assert (Hle : (length r <= n)%nat) by lia. clear Hn.
  revert r Hle; induction n as [|n IH]; intros r Hle H.
  - destruct r; [reflexivity | cbn in Hle; lia].
  - destruct r as [|c t]; [reflexivity|]. cbn [length] in Hle.
    rewrite lead_nl_cons in H. destruct (is_blank c) eqn:E.
    + rewrite (is_blank_space c E) in H.
      apply orb_false_iff in H as [_ H].
      rewrite sub_blank_run_blank, lead_nl_cons, is_space_SP by assumption.
      change (SP =? NL) with false. cbn [orb].
      apply IH; [|now apply lead_nl_drop_blank].
      pose proof (length_drop_while is_blank t). lia.
    + rewrite sub_blank_run_other, lead_nl_cons by assumption.
      destruct (is_space c); [|reflexivity].
      apply orb_false_iff in H as [-> H]. cbn [orb]. apply IH; [lia|exact H].
Qed.

Lemma no_blank_lines_suffix (a b : str) :
  no_blank_lines (a ++ b) -> no_blank_lines b.
Proof. induction a as [|c a IH]; [tauto|]. intros [_ H]. now apply IH. Qed.

Lemma single_spaces_suffix (a b : str) :
  single_spaces (a ++ b) -> single_spaces b.
Proof. induction a as [|c a IH]; [tauto|]. intros [_ H]. now apply IH. Qed.

Lemma no_blank_lines_sub_blank_run (s : str) :
  no_blank_lines s -> no_blank_lines (sub_blank_run s).
Proof.
  remember (length s) as n eqn:Hn.
  assert (Hle : (length s <= n)%nat) by lia. clear Hn.
  revert s Hle; induction n as [|n IH]; intros s Hle H.
  - destruct s; [exact I | cbn in Hle; lia].
  - destruct s as [|c r]; [exact I|]. cbn [length] in Hle.
    destruct H as [H1 H2]. destruct (is_blank c) eqn:E.
    + rewrite sub_blank_run_blank by assumption. split.
      * discriminate.
      * apply IH.
        -- pose proof (length_drop_while is_blank r). lia.
        -- apply (no_blank_lines_suffix (take_while is_blank r)).
           now rewrite take_drop_while.
    + rewrite sub_blank_run_other by assumption. split.
      * intros Ec. apply lead_nl_sub_blank_run. auto.
      * apply IH; [lia | exact H2].
Qed.

(** *** The third substitution *)

Lemma sub_bullet_cases (prev : option char) (c : char) (r : str) :
  (line_start prev && dash_line (c :: r) = true
   /\ exists p, sub_bullet prev (c :: r)
                = BULLET :: SP :: sub_bullet p (after_bullet (c :: r)))
  \/ (line_start prev && dash_line (c :: r) = false
      /\ sub_bullet prev (c :: r) = c :: sub_bullet (Some c) r).
Proof.
  destruct (line_start prev && dash_line (c :: r)) eqn:E.
  - left. split; [reflexivity|]. apply andb_true_iff in E as [E1 E2].
    now apply sub_bullet_match.
  - right. split; [reflexivity|]. now apply sub_bullet_copy.
Qed.

Lemma length_after_bullet (c : char) (r : str) :
  (length (after_bullet (c :: r)) <= length r)%nat.
Proof.
  unfold after_bullet.
  etransitivity; [apply length_drop_while|]. rewrite length_drop.
  pose proof (length_drop_while is_space (c :: r)). cbn [length] in *. lia.
Qed.

Lemma after_bullet_suffix (s : str) : exists a, s = a ++ after_bullet s.
Proof.
  unfold after_bullet.
  destruct (drop_while_suffix is_space s) as [a Ha].
  destruct (drop_while_suffix is_space (drop 1 (drop_while is_space s)))
    as [b Hb].
  exists (a ++ take 1 (drop_while is_space s) ++ b).
  rewrite <- !app_assoc, <- Hb, take_drop. exact Ha.
Qed.

Lemma head_not_blank_after_bullet (s : str) : head_not_blank (after_bullet s).
Proof.
  unfold after_bullet.
  destruct (drop_while is_space _) as [|c t] eqn:E; [exact I|].
  apply drop_while_head in E. now apply not_space_not_blank.
Qed.

Lemma dash_line_sub_bullet (r : str) (p : option char) :
  dash_line r = false -> dash_line (sub_bullet p r) = false.
Proof.
  revert p; induction r as [|d r IH]; intros p H; [reflexivity|].
  rewrite sub_bullet_copy by (rewrite H; apply andb_false_r).
  rewrite dash_line_cons in *. destruct (is_space d); [now apply IH | exact H].
Qed.

Lemma no_bullet_lead_sub_bullet (s : str) (prev p' : option char) :
  (line_start p' = true -> line_start prev = true) ->
  no_bullet_lead p' (sub_bullet prev s).
Proof.
  remember (length s) as n eqn:Hn.
  assert (Hle : (length s <= n)%nat) by lia. clear Hn.
  revert s prev p' Hle; induction n as [|n IH]; intros s prev p' Hle Hp.
  - destruct s; [|cbn in Hle; lia]. split; [apply andb_false_r | exact I].
  - destruct s as [|c r]; [split; [apply andb_false_r | exact I]|].
    cbn [length] in Hle.
    destruct (sub_bullet_cases prev c r) as [[_ [p ->]] | [E ->]].
    + split; [|split].
      * rewrite dash_line_cons, is_space_BULLET. apply andb_false_r.
      * reflexivity.
      * apply IH; [|discriminate].
        pose proof (length_after_bullet c r). lia.
    + split.
      * destruct (line_start p'); [|reflexivity]. cbn [andb].
        rewrite (Hp eq_refl) in E. cbn [andb] in E.
        rewrite dash_line_cons in *.
        destruct (is_space c); [now apply dash_line_sub_bullet | exact E].
      * apply IH; [lia | auto].
Qed.

Lemma lead_nl_sub_bullet (r : str) (p : option char) :
  lead_nl r = false -> lead_nl (sub_bullet p r) = false.
Proof.
  revert p; induction r as [|d r IH]; intros p H; [reflexivity|].
  destruct (sub_bullet_cases p d r) as [[_ [q ->]] | [_ ->]].
  - now rewrite lead_nl_cons, is_space_BULLET.
  - rewrite lead_nl_cons in *. destruct (is_space d); [|reflexivity].
    apply orb_false_iff in H as [-> H]. cbn [orb]. now apply IH.
Qed.

Lemma no_blank_lines_sub_bullet (s : str) (prev : option char) :
  no_blank_lines s -> no_blank_lines (sub_bullet prev s).
Proof.
  remember (length s) as n eqn:Hn.
  assert (Hle : (length s <= n)%nat) by lia. clear Hn.
  revert s prev Hle; induction n as [|n IH]; intros s prev Hle H.
  - destruct s; [exact I | cbn in Hle; lia].
  - destruct s as [|c r]; [exact I|]. cbn [length] in Hle.
    destruct (sub_bullet_cases prev c r) as [[_ [p ->]] | [_ ->]].
    + split; [discriminate|]. split; [discriminate|].
      apply IH.
      * pose proof (length_after_bullet c r). lia.
      * destruct (after_bullet_suffix (c :: r)) as [a Ha].
        apply (no_blank_lines_suffix a). now rewrite <- Ha.
    + destruct H as [H1 H2]. split.
      * intros Ec. apply lead_nl_sub_bullet. auto.
      * apply IH; [lia | exact H2].
Qed.

Lemma head_not_blank_sub_bullet (t : str) (p : option char) :
  head_not_blank t -> head_not_blank (sub_bullet p t).
Proof.
  destruct t as [|d t]; [intros _; exact I|]. intros H.
  destruct (sub_bullet_cases p d t) as [[_ [q ->]] | [_ ->]].
  - reflexivity.
  - exact H.
Qed.

Lemma single_spaces_sub_bullet (s : str) (prev : option char) :
  single_spaces s -> single_spaces (sub_bullet prev s).
Proof.
  remember (length s) as n eqn:Hn.
  assert (Hle : (length s <= n)%nat) by lia. clear Hn.
  revert s prev Hle; induction n as [|n IH]; intros s prev Hle H.
  - destruct s; [exact I | cbn in Hle; lia].
  - destruct s as [|c r]; [exact I|]. cbn [length] in Hle.
    destruct (sub_bullet_cases prev c r) as [[_ [p ->]] | [_ ->]].
    + split; [discriminate|]. split.
      * intros _. split; [reflexivity|].
        apply head_not_blank_sub_bullet, head_not_blank_after_bullet.
      * apply IH.
        -- pose proof (length_after_bullet c r). lia.
        -- destruct (after_bullet_suffix (c :: r)) as [a Ha].
           apply (single_spaces_suffix a). now rewrite <- Ha.
    + destruct H as [H1 H2]. split.
      * intros Ec. destruct (H1 Ec) as [-> Hh]. split; [reflexivity|].
        now apply head_not_blank_sub_bullet.
      * apply IH; [lia | exact H2].
Qed.

(** The normalised text is left as it is by each substitution. *)
Lemma normalize_settled (x : str) :
  no_blank_lines (normalize x) /\ single_spaces (normalize x)
  /\ no_bullet_lead None (normalize x).
Proof.
  rewrite normalize_eq. split; [|split].
  - apply no_blank_lines_sub_bullet, no_blank_lines_sub_blank_run,
      no_blank_lines_sub_blank_lines.
  - apply single_spaces_sub_bullet, single_spaces_sub_blank_run.
  - now apply no_bullet_lead_sub_bullet.
Qed.

Lemma normalize_fix (y : str) :
  no_blank_lines y -> single_spaces y -> no_bullet_lead None y ->
  normalize y = y.
Proof.
  intros H1 H2 H3. rewrite normalize_eq.
  rewrite (fix_blank_lines y H1), (fix_blank_run y H2).
  now apply fix_bullet.
Qed.

(** *** Stripping *)

Lemma lead_nl_prefix (r b : str) : lead_nl (r ++ b) = false -> lead_nl r = false.
Proof.
  induction r as [|c r IH]; [reflexivity|].
  cbn [app]. rewrite !lead_nl_cons. destruct (is_space c); [|reflexivity].
  intros H. apply orb_false_iff in H as [-> H]. now apply IH.
Qed.

Lemma dash_line_prefix (t b : str) :
  dash_line (t ++ b) = false -> dash_line t = false.
Proof.
  induction t as [|c t IH]; [reflexivity|].
  cbn [app]. rewrite !dash_line_cons. now destruct (is_space c).
Qed.

Lemma no_blank_lines_prefix (a b : str) :
  no_blank_lines (a ++ b) -> no_blank_lines a.
Proof.
  induction a as [|c a IH]; [intros _; exact I|]. intros [H1 H2]. split.
  - intros Ec. eapply lead_nl_prefix. eauto.
  - now apply IH.
Qed.

Lemma single_spaces_prefix (a b : str) :
  single_spaces (a ++ b) -> single_spaces a.
Proof.
  induction a as [|c a IH]; [intros _; exact I|]. intros [H1 H2]. split.
  - intros Ec. destruct (H1 Ec) as [-> Hh]. split; [reflexivity|].
    destruct a; [exact I | exact Hh].
  - now apply IH.
Qed.

Lemma no_bullet_lead_prefix (a b : str) (p : option char) :
  no_bullet_lead p (a ++ b) -> no_bullet_lead p a.
Proof.
  revert p; induction a as [|c a IH]; intros p.
  - intros _. split; [apply andb_false_r | exact I].
  - intros [H1 H2]. split.
    + destruct (line_start p); [|reflexivity]. cbn [andb] in *.
      eapply dash_line_prefix. exact H1.
    + now apply IH.
Qed.

Lemma no_bullet_lead_head (s : str) (p : option char) :
  no_bullet_lead p s -> line_start p && dash_line s = false.
Proof. destruct s; intros [H _]; exact H. Qed.

Lemma no_bullet_lead_lstrip (s : str) (p : option char) :
  dash_line s = false -> no_bullet_lead p s -> no_bullet_lead None (lstrip s).
Proof.
  revert p; induction s as [|c r IH]; intros p Hd H.
  - split; [reflexivity | exact I].
  - unfold lstrip in *. cbn [drop_while]. rewrite dash_line_cons in Hd.
    destruct H as [_ H]. destruct (is_space c) eqn:Es.
    + now apply (IH (Some c)).
    + split; [|exact H]. cbn [line_start andb].
      now rewrite dash_line_cons, Es.
Qed.

Lemma rstrip_prefix (s : str) : exists b, s = rstrip s ++ b.
Proof.
  unfold rstrip. destruct (drop_while_suffix is_space (reverse s)) as [a Ha].
  exists (reverse a). apply (f_equal reverse) in Ha.
  now rewrite reverse_involutive, reverse_app in Ha.
Qed.

Lemma drop_while_idem (p : char -> bool) (s : str) :
  drop_while p (drop_while p s) = drop_while p s.
Proof.
  destruct (drop_while p s) as [|c r] eqn:E; [reflexivity|].
  apply drop_while_head in E. cbn. now rewrite E.
Qed.

Lemma strip_idem (s : str) : strip (strip s) = strip s.
Proof.
  unfold strip.
  assert (H : lstrip (rstrip (lstrip s)) = rstrip (lstrip s)).
  { destruct (rstrip_prefix (lstrip s)) as [b Hb].
    destruct (rstrip (lstrip s)) as [|c u]; [reflexivity|].
    unfold lstrip in *. cbn [app] in Hb.
    apply drop_while_head in Hb. cbn. now rewrite Hb. }
  rewrite H. unfold rstrip.
  now rewrite reverse_involutive, drop_while_idem.
Qed.

(** Stripping keeps a settled text settled. *)
Lemma strip_settled (n : str) :
  no_blank_lines n -> single_spaces n -> no_bullet_lead None n ->
  no_blank_lines (strip n) /\ single_spaces (strip n)
  /\ no_bullet_lead None (strip n).
Proof.
  intros H1 H2 H3. unfold strip.
  destruct (rstrip_prefix (lstrip n)) as [b Hb].
  destruct (drop_while_suffix is_space n) as [a Ha]. fold (lstrip n) in Ha.
  rewrite Ha in H1, H2.
  apply no_blank_lines_suffix in H1. apply single_spaces_suffix in H2.
  assert (H3' : no_bullet_lead None (lstrip n)).
  { apply (no_bullet_lead_lstrip n None); [|exact H3].
    apply (no_bullet_lead_head n None H3). }
  rewrite Hb in H1, H2, H3'.
  split; [|split].
  - eapply no_blank_lines_prefix; exact H1.
  - eapply single_spaces_prefix; exact H2.
  - eapply no_bullet_lead_prefix; exact H3'.
Qed.

Lemma format_some (t : str) :
  format_for_google_sheets (Some t) = strip (cap_length (normalize t)).
Proof. destruct t; reflexivity. Qed.

Lemma cap_length_small (t : str) :
  (length t <= CELL_CAP)%nat -> cap_length t = t.
Proof.
  intros H. unfold cap_length.
  assert ((CELL_CAP <? length t)%nat = false) as ->; [|reflexivity].
  now apply Nat.ltb_ge.
Qed.

(** C3, amended. For every input whose normalised text (after the three
    substitutions) has at most 45,000 characters, so that nothing is cut,
    formatting the formatted text again changes nothing. *)
Theorem format_idempotent_without_truncation (x : str) :
  (length (normalize x) <= CELL_CAP)%nat ->
  format_for_google_sheets (Some (format_for_google_sheets (Some x)))
  = format_for_google_sheets (Some x).
Proof.
  intros Hlen. rewrite (format_some x), (cap_length_small _ Hlen).
  rewrite format_some.
  destruct (normalize_settled x) as (H1 & H2 & H3).
  destruct (strip_settled (normalize x) H1 H2 H3) as (S1 & S2 & S3).
  rewrite (normalize_fix _ S1 S2 S3).
  rewrite cap_length_small.
  - apply strip_idem.
  - pose proof (length_strip (normalize x)). lia.
Qed.

Lemma format_idempotent_without_truncation_witness :
  format_for_google_sheets
    (Some (format_for_google_sheets
             (Some (lit "  Steps:" ++ [NL; NL; TAB] ++ lit "-  one" ++ [NL]))))
  = format_for_google_sheets
      (Some (lit "  Steps:" ++ [NL; NL; TAB] ++ lit "-  one" ++ [NL])).
Proof.
  apply format_idempotent_without_truncation.
  apply Nat.leb_le. vm_compute. reflexivity.
Defined.

(* ===================================================================== *)
(** * Further properties of the pipeline *)
(* ===================================================================== *)

(** ** Sheet formatter: shape of the output *)

Definition starts_with_space (s : str) : bool :=
  match s with
  | c :: _ => is_space c
  | [] => false
  end.

Definition ends_with_space (s : str) : bool := starts_with_space (reverse s).

Lemma lstrip_starts (s : str) : starts_with_space (lstrip s) = false.
Proof.
  unfold lstrip. destruct (drop_while is_space s) as [|c r] eqn:E;
    [reflexivity|]. now apply drop_while_head in E.
Qed.

Lemma strip_ends (s : str) :
  starts_with_space (strip s) = false /\ ends_with_space (strip s) = false.
Proof.
  unfold strip. split.
  - destruct (rstrip_prefix (lstrip s)) as [b Hb].
    pose proof (lstrip_starts s) as H. rewrite Hb in H.
    destruct (rstrip (lstrip s)); [reflexivity | exact H].
  - unfold ends_with_space, rstrip. rewrite reverse_involutive.
    apply (lstrip_starts (reverse (lstrip s))).
Qed.

(** X1. The formatter's output never starts or ends with white space,
    whatever the input and whether or not it was cut. *)
Theorem format_output_stripped (text : option str) :
  starts_with_space (format_for_google_sheets text) = false
  /\ ends_with_space (format_for_google_sheets text) = false.
Proof.
  destruct text as [t|]; [|split; reflexivity].
  rewrite format_some. apply strip_ends.
Qed.

Lemma single_spaces_app (a b : str) :
  single_spaces a -> single_spaces b -> head_not_blank b ->
  single_spaces (a ++ b).
Proof.
  intros Ha Hb Hh. induction a as [|c a IH]; [exact Hb|].
  destruct Ha as [H1 H2]. split; [|now apply IH].
  intros Ec. destruct (H1 Ec) as [-> Hn]. split; [reflexivity|].
  destruct a; [exact Hh | exact Hn].
Qed.

Lemma single_spaces_marker : single_spaces TRUNCATION_MARKER.
Proof.
  unfold TRUNCATION_MARKER, TRUNCATION_TEXT.
  repeat (split;
          [intros H; first [discriminate H | split; reflexivity]|]).
  exact I.
Qed.

Lemma single_spaces_cap_length (n : str) :
  single_spaces n -> single_spaces (cap_length n).
Proof.
  intros H. unfold cap_length. destruct (CELL_CAP <? length n)%nat; [|exact H].
  apply single_spaces_app.
  - apply (single_spaces_prefix _ (drop CELL_CAP n)). now rewrite take_drop.
  - apply single_spaces_marker.
  - reflexivity.
Qed.

Lemma single_spaces_strip (n : str) : single_spaces n -> single_spaces (strip n).
Proof.
  intros H. unfold strip.
  destruct (rstrip_prefix (lstrip n)) as [b Hb].
  destruct (drop_while_suffix is_space n) as [a Ha]. fold (lstrip n) in Ha.
  rewrite Ha in H. apply single_spaces_suffix in H.
  rewrite Hb in H. now apply single_spaces_prefix in H.
Qed.

Lemma single_spaces_no_tab (s : str) :
  single_spaces s ->
  has_char TAB s = false /\ contains [SP; SP] s = false.
Proof.
  induction s as [|c r IH]; [intros _; split; reflexivity|].
  intros [H1 H2]. destruct (IH H2) as [IH1 IH2]. split.
  - unfold has_char in *. cbn [existsb]. rewrite IH1, orb_false_r.
    destruct (TAB =? c) eqn:E; [|reflexivity].
    apply N.eqb_eq in E. subst c. destruct (H1 eq_refl) as [E _].
    discriminate E.
  - cbn [contains]. rewrite IH2, orb_false_r. cbn [startswith].
    destruct (SP =? c) eqn:E; [|reflexivity]. cbn [andb].
    apply N.eqb_eq in E. subst c. destruct (H1 eq_refl) as [_ Hh].
    destruct r as [|d r]; [reflexivity|]. cbn [head_not_blank] in Hh.
    destruct (SP =? d) eqn:Ed; [|reflexivity].
    apply N.eqb_eq in Ed. subst d. discriminate Hh.
Qed.

(** X2. The formatter's output has no tab and no two spaces in a row,
    whatever the input and whether or not it was cut. *)
Theorem format_output_single_spaces (text : option str) :
  has_char TAB (format_for_google_sheets text) = false
  /\ contains [SP; SP] (format_for_google_sheets text) = false.
Proof.
  apply single_spaces_no_tab.
  destruct text as [t|]; [|exact I].
  rewrite format_some.
  apply single_spaces_strip, single_spaces_cap_length.
  apply (normalize_settled t).
Qed.

Lemma no_blank_lines_no_empty_line (s : str) :
  no_blank_lines s -> contains [NL; NL] s = false.
Proof.
  induction s as [|c r IH]; [reflexivity|]. intros [H1 H2].
  cbn [contains]. rewrite (IH H2), orb_false_r. cbn [startswith].
  destruct (NL =? c) eqn:E; [|reflexivity]. cbn [andb].
  apply N.eqb_eq in E. subst c. specialize (H1 eq_refl).
  destruct r as [|d r]; [reflexivity|].
  rewrite lead_nl_cons in H1.
  destruct (NL =? d) eqn:Ed; [|reflexivity].
  apply N.eqb_eq in Ed. subst d. discriminate H1.
Qed.

Lemma no_bullet_lead_no_dash (s : str) (p : option char) :
  no_bullet_lead p s -> contains [NL; DASH] s = false.
Proof.
  revert p; induction s as [|c r IH]; intros p; [reflexivity|].
  intros [_ H2]. cbn [contains]. rewrite (IH _ H2), orb_false_r.
  cbn [startswith]. destruct (NL =? c) eqn:E; [|reflexivity]. cbn [andb].
  apply N.eqb_eq in E. subst c.
  apply no_bullet_lead_head in H2. cbn [line_start] in H2.
  change (NL =? NL) with true in H2. cbn [andb] in H2.
  destruct r as [|d r]; [reflexivity|].
  rewrite dash_line_cons in H2.
  destruct (DASH =? d) eqn:Ed; [|reflexivity].
  apply N.eqb_eq in Ed. subst d. discriminate H2.
Qed.

(** X3. When nothing is cut, the formatter's output has no empty line, does
    not start with a dash and has no line that starts with a dash: every
    dash that led a line has become a bullet. *)
Theorem format_output_lines (x : str) :
  (length (normalize x) <= CELL_CAP)%nat ->
  contains [NL; NL] (format_for_google_sheets (Some x)) = false
  /\ startswith [DASH] (format_for_google_sheets (Some x)) = false
  /\ contains [NL; DASH] (format_for_google_sheets (Some x)) = false.
Proof.
  intros Hlen. rewrite format_some, (cap_length_small _ Hlen).
  destruct (normalize_settled x) as (H1 & H2 & H3).
  destruct (strip_settled (normalize x) H1 H2 H3) as (S1 & S2 & S3).
  split; [now apply no_blank_lines_no_empty_line|]. split.
  - apply no_bullet_lead_head in S3. cbn [line_start andb] in S3.
    destruct (strip (normalize x)) as [|d r]; [reflexivity|].
    rewrite dash_line_cons in S3. cbn [startswith].
    destruct (DASH =? d) eqn:Ed; [|reflexivity].
    apply N.eqb_eq in Ed. subst d. discriminate S3.
  - now apply (no_bullet_lead_no_dash _ None).
Qed.

Lemma format_output_lines_witness :
  contains [NL; NL]
    (format_for_google_sheets
       (Some (lit "Steps:" ++ [NL; SP; NL] ++ lit "- one" ++ [NL] ++ lit "-two")))
  = false
  /\ format_for_google_sheets
       (Some (lit "Steps:" ++ [NL; SP; NL] ++ lit "- one" ++ [NL] ++ lit "-two"))
     = lit "Steps:" ++ [NL; BULLET; SP] ++ lit "one" ++ [NL; BULLET; SP]
       ++ lit "two".
Proof.
  split.
  - apply format_output_lines. apply Nat.leb_le. vm_compute. reflexivity.
  - vm_compute. reflexivity.
Defined.

(** ** Link classifier: links that cannot make it raise *)

Lemma forallb_occurs (q : char -> bool) (a s : str) :
  occurs_in a s -> forallb q s = true -> forallb q a = true.
Proof.
  intros (x & y & ->). rewrite !forallb_app, !andb_true_iff. tauto.
Qed.

Lemma forallb_filter (q f : char -> bool) (s : str) :
  forallb q s = true -> forallb q (List.filter f s) = true.
Proof.
  induction s as [|c s IH]; [reflexivity|]. cbn [forallb List.filter].
  intros H. apply andb_true_iff in H as [Hc Hs].
  destruct (f c); cbn [forallb]; [rewrite Hc|]; auto.
Qed.

Lemma has_char_forallb (c : char) (s : str) :
  has_char c s = false <-> forallb (fun x => negb (c =? x)) s = true.
Proof.
  unfold has_char. induction s as [|d s IH]; cbn [existsb forallb]; [tauto|].
  rewrite orb_false_iff, andb_true_iff, negb_true_iff, IH. tauto.
Qed.

Lemma forallb_weaken (p q : char -> bool) (s : str) :
  (forall x, p x = true -> q x = true) ->
  forallb p s = true -> forallb q s = true.
Proof.
  intros Hpq. induction s as [|c s IH]; [reflexivity|]. cbn [forallb].
  rewrite !andb_true_iff. intros [H1 H2]. auto.
Qed.

(** The characters of the network location come from the link. *)
Lemma urlsplit_safe (ok : str -> bool) (q : char -> bool) (u : str) :
  forallb q u = true ->
  (forall netloc, forallb q netloc = true ->
     has_char 91 netloc = false /\ has_char 93 netloc = false
     /\ is_ascii netloc = true) ->
  exists r, urlsplit ok u = Ok r.
Proof.
  intros Hu Hq. unfold urlsplit.
  set (u' := List.filter _ _).
  assert (Hu' : forallb q u' = true).
  { apply forallb_filter.
    apply (forallb_occurs q _ u (occurs_in_drop_while _ u) Hu). }
  pose proof (split_scheme_rest u') as Hs.
  destruct (split_scheme u') as [scheme rest]. cbn [snd] in Hs.
  destruct (startswith [47; 47] rest); [|eauto].
  unfold splitnetloc.
  set (netloc := take_while _ (drop 2 rest)).
  assert (Hn : forallb q netloc = true).
  { apply (forallb_occurs q netloc u'); [|exact Hu'].
    eapply occurs_in_trans; [|exact Hs].
    eapply occurs_in_trans; [|apply (occurs_in_drop 2)].
    unfold netloc.
    rewrite <- (take_drop_while (fun c => negb (is_netloc_delim c))
                  (drop 2 rest)) at 2.
    apply occurs_in_app_l. }
  destruct (Hq netloc Hn) as (H1 & H2 & H3).
  rewrite H1, H2, H3. cbn. eauto.
Qed.

(** X4. A link of ASCII characters without square brackets never makes the
    classifier raise, whatever the library's further checks of network
    locations would do: it answers [true] or [false]. *)
Theorem is_pdf_url_total_on_plain_links (ok : str -> bool) (u : str) :
  is_ascii u = true ->
  has_char 91 u = false ->
  has_char 93 u = false ->
  exists b, is_pdf_url ok (PyStr u) = Ok b.
Proof.
  intros Ha Hl Hr. destruct u as [|c u]; [now exists false|].
  set (q := fun x : char => (x <? 128) && negb (91 =? x) && negb (93 =? x)).
  assert (Hq : forallb q (c :: u) = true).
  { apply has_char_forallb in Hl, Hr. unfold is_ascii in Ha.
    revert Ha Hl Hr. generalize (c :: u). intros s.
    induction s as [|d s IH]; [reflexivity|]. cbn [forallb].
    rewrite !andb_true_iff. intros [A1 A2] [L1 L2] [R1 R2].
    split; [|auto]. unfold q. now rewrite A1, L1, R1. }
  destruct (urlsplit_safe ok q (c :: u) Hq) as [[scheme path] Hs].
  { intros netloc Hn. repeat split.
    - apply has_char_forallb. revert Hn. apply forallb_weaken.
      intros x. unfold q. rewrite !andb_true_iff. tauto.
    - apply has_char_forallb. revert Hn. apply forallb_weaken.
      intros x. unfold q. rewrite !andb_true_iff. tauto.
    - unfold is_ascii. revert Hn. apply forallb_weaken.
      intros x. unfold q. rewrite !andb_true_iff. tauto. }
  unfold is_pdf_url, urlparse_path. rewrite Hs.
  destruct (existsb _ _ && _);
    (destruct (endswith DOT_PDF _); eauto).
Qed.

Lemma is_pdf_url_total_on_plain_links_witness :
  exists b, is_pdf_url (fun _ => false)
              (PyStr (lit "https://example.org/a/b.html?x=1")) = Ok b.
Proof.
  apply is_pdf_url_total_on_plain_links; reflexivity.
Defined.

(** ** Identifier allocator: what an identifier is *)

Definition is_lower_hex (c : char) : bool :=
  ((48 <=? c) && (c <=? 57)) || ((97 <=? c) && (c <=? 102)).

Lemma hex_digits_app (a b : nat) (n : N) :
  hex_digits (a + b) n
  = hex_digits a (n / 16 ^ N.of_nat b) ++ hex_digits b n.
Proof.
  revert n; induction b as [|b IH]; intros n.
  - rewrite Nat.add_0_r. cbn [hex_digits]. rewrite app_nil_r.
    change (16 ^ N.of_nat 0) with 1. now rewrite N.div_1_r.
  - rewrite Nat.add_succ_r. cbn [hex_digits]. rewrite IH, <- app_assoc.
    do 2 f_equal. rewrite N.Div0.div_div. f_equal.
    rewrite Nat2N.inj_succ, N.pow_succ_r by lia. reflexivity.
Qed.

Lemma hex_digits_lower_hex (k : nat) (n : N) :
  forallb is_lower_hex (hex_digits k n) = true.
Proof.
  revert n; induction k as [|k IH]; intros n; [reflexivity|].
  cbn [hex_digits]. rewrite forallb_app, IH. cbn [forallb andb].
  rewrite andb_true_r. unfold hex_digit, is_lower_hex.
  assert (Hlt : n mod 16 < 16) by (apply N.mod_lt; discriminate).
  revert Hlt. generalize (n mod 16). intros d Hlt.
  destruct (d <? 10) eqn:E; cbv beta iota.
  - apply N.ltb_lt in E. apply orb_true_iff. left.
    apply andb_true_iff. split; apply N.leb_le; lia.
  - apply N.ltb_ge in E. apply orb_true_iff. right.
    apply andb_true_iff. split; apply N.leb_le; lia.
Qed.

Lemma lower_hex_not_space (c : char) :
  is_lower_hex c = true -> is_space c = false.
Proof.
  unfold is_lower_hex, is_space. intros H.
  apply orb_true_iff in H as [H|H]; apply andb_true_iff in H as [H1 H2];
    apply N.leb_le in H1, H2;
    repeat (match goal with
            | |- context [?a <=? ?b] =>
                destruct (N.leb_spec a b); try lia
            | |- context [?a =? ?b] =>
                destruct (N.eqb_spec a b); try lia
            end); reflexivity.
Qed.

Lemma generate_unique_id_high_bits (u : N) :
  generate_unique_id u = hex_digits 8 (u / 2 ^ 96).
Proof.
  unfold generate_unique_id, uuid_str.
  change 32%nat with (8 + 24)%nat. rewrite hex_digits_app.
  change (16 ^ N.of_nat 24) with (2 ^ 96).
  rewrite (take_app_length' (hex_digits 8 (u / 2 ^ 96)))
    by (symmetry; apply length_hex_digits).
  first [ reflexivity
        | apply take_app_length'; symmetry; apply length_hex_digits ].
Qed.

Lemma generate_unique_id_lower_hex (u : N) :
  forallb is_lower_hex (generate_unique_id u) = true.
Proof. rewrite generate_unique_id_high_bits. apply hex_digits_lower_hex. Qed.

(** X5. An identifier is the first eight hexadecimal digits of the UUID: it
    is made of the digits 0-9 and a-f only and depends on nothing but
    the UUID's 32 high bits, so two UUIDs that agree there get the same
    identifier. *)
Theorem generate_unique_id_spec (u : N) :
  generate_unique_id u = hex_digits 8 (u / 2 ^ 96)
  /\ forallb is_lower_hex (generate_unique_id u) = true
  /\ forall u', u' / 2 ^ 96 = u / 2 ^ 96 ->
                generate_unique_id u' = generate_unique_id u.
Proof.
  split; [apply generate_unique_id_high_bits|]. split.
  - apply generate_unique_id_lower_hex.
  - intros u' E. now rewrite !generate_unique_id_high_bits, E.
Qed.

Lemma generate_unique_id_spec_witness :
  generate_unique_id (5 * 2 ^ 96 + 7) = generate_unique_id (5 * 2 ^ 96 + 1234567).
Proof.
  apply (proj2 (proj2 (generate_unique_id_spec (5 * 2 ^ 96 + 1234567)))).
  reflexivity.
Defined.

Lemma rfind_char_app (c : char) (a b : str) :
  rfind_char c (a ++ b)
  = match rfind_char c b with
    | Some j => Some (length a + j)%nat
    | None => rfind_char c a
    end.
Proof.
  induction a as [|x a IH]; cbn [app rfind_char length].
  - now destruct (rfind_char c b).
  - rewrite IH. destruct (rfind_char c b); reflexivity.
Qed.

(** The name given to a stored file leads back to its identifier. *)
Lemma stem_of_pdf_name (uid : str) : uid <> [] -> stem (uid ++ DOT_PDF) = uid.
Proof.
  intros Hne. unfold stem. rewrite rfind_char_app.
  change (rfind_char 46 DOT_PDF) with (Some 0%nat). cbv beta iota.
  rewrite Nat.add_0_r. destruct uid as [|c r]; [congruence|].
  cbn [length].
  assert ((S (S (length r)) <? length ((c :: r) ++ DOT_PDF))%nat = true) as ->.
  { apply Nat.ltb_lt. rewrite length_app.
    change (length DOT_PDF) with 4%nat. cbn [length]. lia. }
  apply (take_app_length' (c :: r)). reflexivity.
Qed.

Lemma forallb_reverse (p : char -> bool) (s : str) :
  forallb p (reverse s) = forallb p s.
Proof.
  induction s as [|c s IH]; [reflexivity|].
  rewrite reverse_cons, forallb_app, IH. cbn [forallb].
  rewrite andb_true_r. apply andb_comm.
Qed.

Lemma strip_no_space (s : str) :
  forallb (fun c => negb (is_space c)) s = true -> strip s = s.
Proof.
  intros H. unfold strip, lstrip, rstrip.
  assert (Hd : forall t, forallb (fun c => negb (is_space c)) t = true ->
                         drop_while is_space t = t).
  { intros [|c t]; [reflexivity|]. cbn. intros Ht.
    apply andb_true_iff in Ht as [Hc _]. apply negb_true_iff in Hc.
    now rewrite Hc. }
  rewrite (Hd s H), Hd.
  - apply reverse_involutive.
  - now rewrite forallb_reverse.
Qed.

Lemma generate_unique_id_nonempty (u : N) : generate_unique_id u <> [].
Proof.
  intros E. pose proof (length_generate_unique_id u) as Hl.
  rewrite E in Hl. discriminate.
Qed.

Lemma stem_generate_unique_id (u : N) :
  stem (generate_unique_id u ++ DOT_PDF) = generate_unique_id u.
Proof. apply stem_of_pdf_name, generate_unique_id_nonempty. Qed.

Lemma strip_generate_unique_id (u : N) :
  strip (generate_unique_id u) = generate_unique_id u.
Proof.
  apply strip_no_space.
  generalize (generate_unique_id_lower_hex u).
  apply forallb_weaken. intros x Hx.
  apply negb_true_iff. now apply lower_hex_not_space.
Qed.

(** X6. The identifier written to the sheet is found again from the stored
    file: the batch's key for the file <id>.pdf is <id>, and the
    reconciler's stripping of the PDF ID cell leaves <id> as it is. *)
Theorem identifier_round_trip (u : N) :
  stem (generate_unique_id u ++ DOT_PDF) = generate_unique_id u
  /\ strip (generate_unique_id u) = generate_unique_id u.
Proof.
  split; [apply stem_generate_unique_id | apply strip_generate_unique_id].
Qed.

(** ** Row reconciler: matching rows, repetition, missing column *)

Lemma merged_columns (summaries : gmap (list N) (list N)) (df df' : DataFrame) :
  update_google_sheet_with_methodology summaries df = Some df' ->
  columns df' = columns (set_column COL_METHODOLOGY [] df)
  /\ df_empty df = false.
Proof.
  unfold update_google_sheet_with_methodology.
  destruct (df_empty df); [discriminate|]. intros [= <-].
  rewrite methodology_loop_steps. split; reflexivity.
Qed.

Lemma elem_of_set_column (c c' : str) (v : str) (df : DataFrame) :
  c ∈ columns df -> c ∈ columns (set_column c' v df).
Proof.
  intros H. cbn [set_column columns].
  destruct (decide (c' ∈ columns df)); [exact H|].
  apply elem_of_app. now left.
Qed.

Lemma elem_of_set_column_same (c : str) (v : str) (df : DataFrame) :
  c ∈ columns (set_column c v df).
Proof.
  cbn [set_column columns].
  destruct (decide (c ∈ columns df)) as [H|H]; [exact H|].
  apply elem_of_app. right. apply list_elem_of_here.
Qed.

Lemma merge_cell (summaries : gmap (list N) (list N))
    (df df' : DataFrame) (i : nat) (r : gmap (list N) (list N)) (v s : str) :
  update_google_sheet_with_methodology summaries df = Some df' ->
  COL_ID ∈ columns df ->
  rows df !! i = Some r ->
  r !! COL_ID = Some v ->
  summaries !! strip v = Some s ->
  at_get df' i COL_METHODOLOGY = Some s.
Proof.
  intros Hm Hid Hr Hv Hs.
  destruct (merged_columns summaries df df' Hm) as [Hc _].
  unfold at_get. rewrite (merge_rows summaries df df' i Hm), Hr.
  cbn [fmap option_fmap option_map mbind option_bind].
  unfold meth_step. rewrite Hc.
  destruct (decide (COL_ID ∈ columns (set_column COL_METHODOLOGY [] df)))
    as [_|Hn]; [|exfalso; apply Hn; now apply elem_of_set_column].
  rewrite lookup_insert_ne by (apply not_eq_sym, col_id_ne_methodology).
  rewrite Hv, Hs. apply lookup_insert_eq.
Qed.

(** X7. The merge writes the mapped summary into the Methodology cell of
    every row whose PDF ID, with surrounding white space removed, is a
    key of the mapping. *)
Theorem merge_sets_matching_rows (summaries : gmap (list N) (list N))
    (df df' : DataFrame) (i : nat) (r : gmap (list N) (list N)) (v s : str) :
  update_google_sheet_with_methodology summaries df = Some df' ->
  COL_ID ∈ columns df ->
  rows df !! i = Some r ->
  r !! COL_ID = Some v ->
  summaries !! strip v = Some s ->
  at_get df' i COL_METHODOLOGY = Some s.
Proof. apply merge_cell. Qed.

Lemma merge_sets_matching_rows_witness :
  exists T',
    update_google_sheet_with_methodology {[ lit "a1b2c3d4" := lit "SUMMARY" ]}
      {| columns := [COL_ID];
         rows := [ {[ COL_ID := lit " a1b2c3d4 " ]} ] |} = Some T'
    /\ at_get T' 0 COL_METHODOLOGY = Some (lit "SUMMARY").
Proof.
  eexists. split; [reflexivity|].
  eapply (merge_sets_matching_rows {[ lit "a1b2c3d4" := lit "SUMMARY" ]}
            {| columns := [COL_ID];
               rows := [ {[ COL_ID := lit " a1b2c3d4 " ]} ] |}
            _ 0 {[ COL_ID := lit " a1b2c3d4 " ]} (lit " a1b2c3d4 ")).
  - reflexivity.
  - apply list_elem_of_here.
  - reflexivity.
  - reflexivity.
  - reflexivity.
Defined.

Lemma meth_step_again (summaries : gmap (list N) (list N)) (cols : list str)
    (r : gmap (list N) (list N)) :
  let r' := meth_step summaries cols (<[COL_METHODOLOGY := []]> r)
              (<[COL_METHODOLOGY := []]> r) in
  meth_step summaries cols (<[COL_METHODOLOGY := []]> r')
    (<[COL_METHODOLOGY := []]> r') = r'.
Proof.
  intros r'. subst r'. unfold meth_step.
  destruct (decide (COL_ID ∈ cols)); [|now rewrite insert_insert_eq].
  assert (Hne : COL_METHODOLOGY <> COL_ID)
    by apply not_eq_sym, col_id_ne_methodology.
  rewrite (lookup_insert_ne r COL_METHODOLOGY COL_ID [] Hne).
  destruct (r !! COL_ID) as [v|] eqn:Ev.
  - destruct (summaries !! strip v) as [s|] eqn:Es; cbv beta.
    + rewrite !lookup_insert_ne, Ev, Es by exact Hne.
      now rewrite !insert_insert_eq.
    + rewrite !lookup_insert_ne, Ev, Es by exact Hne.
      now rewrite insert_insert_eq.
  - rewrite !lookup_insert_ne, Ev by exact Hne.
    now rewrite insert_insert_eq.
Qed.

(** X8. Merging the same mapping into an already merged table changes
    nothing: a repeated run overwrites the Methodology column with the
    same values. *)
Theorem merge_twice (summaries : gmap (list N) (list N)) (df df' : DataFrame) :
  update_google_sheet_with_methodology summaries df = Some df' ->
  update_google_sheet_with_methodology summaries df' = Some df'.
Proof.
  intros Hm. destruct (merged_columns summaries df df' Hm) as [Hc He].
  pose proof (merge_rows summaries df df') as Hrows.
  specialize (fun i => Hrows i Hm).
  assert (Hlen : length (rows df') = length (rows df)).
  { unfold update_google_sheet_with_methodology in Hm. rewrite He in Hm.
    injection Hm as <-. rewrite methodology_loop_steps. cbn [rows].
    rewrite length_apply_steps. cbn [set_column rows]. apply length_fmap. }
  assert (Hin : COL_METHODOLOGY ∈ columns df').
  { rewrite Hc. apply elem_of_set_column_same. }
  assert (He' : df_empty df' = false).
  { unfold df_empty in *. destruct (columns df') as [|c cs];
      [now apply elem_of_nil in Hin|].
    destruct (rows df') as [|x xs]; [|reflexivity].
    destruct (columns df); [discriminate|].
    destruct (rows df); [discriminate | discriminate Hlen]. }
  unfold update_google_sheet_with_methodology. rewrite He'.
  rewrite methodology_loop_steps. f_equal.
  assert (Hcols : columns (set_column COL_METHODOLOGY [] df') = columns df').
  { cbn [set_column columns].
    destruct (decide (COL_METHODOLOGY ∈ columns df')); [reflexivity|].
    contradiction. }
  rewrite Hcols. destruct df' as [cs rs]. cbn [columns rows] in *. f_equal.
  apply list_eq. intros i. rewrite apply_steps_self. cbn [set_column rows].
  rewrite list_lookup_fmap, Hrows.
  destruct (rows df !! i) as [r|]; [|reflexivity].
  cbn [fmap option_fmap option_map]. f_equal.
  apply (meth_step_again summaries cs r).
Qed.

Lemma merge_twice_witness :
  exists T',
    update_google_sheet_with_methodology {[ lit "a1b2c3d4" := lit "SUMMARY" ]}
      {| columns := [COL_ID];
         rows := [ {[ COL_ID := lit "a1b2c3d4" ]}; {[ COL_ID := [] ]} ] |}
    = Some T'
    /\ update_google_sheet_with_methodology
         {[ lit "a1b2c3d4" := lit "SUMMARY" ]} T' = Some T'.
Proof.
  eexists. split; [reflexivity|].
  apply (merge_twice {[ lit "a1b2c3d4" := lit "SUMMARY" ]}
           {| columns := [COL_ID];
              rows := [ {[ COL_ID := lit "a1b2c3d4" ]}; {[ COL_ID := [] ]} ] |}).
  reflexivity.
Defined.

(** X9. On a table without the PDF ID column no summary reaches any row,
    whatever the mapping holds: the result is the table with an empty
    Methodology column. *)
Theorem merge_without_id_column (summaries : gmap (list N) (list N))
    (df df' : DataFrame) :
  update_google_sheet_with_methodology summaries df = Some df' ->
  COL_ID ∉ columns df ->
  df' = set_column COL_METHODOLOGY [] df.
Proof.
  unfold update_google_sheet_with_methodology.
  destruct (df_empty df); [discriminate|]. intros [= <-] Hn.
  rewrite methodology_loop_steps.
  assert (Hn' : COL_ID ∉ columns (set_column COL_METHODOLOGY [] df)).
  { cbn [set_column columns]. destruct (decide _); [exact Hn|].
    intros H. apply elem_of_app in H as [H|H]; [contradiction|].
    apply list_elem_of_singleton in H. now apply col_id_ne_methodology. }
  change ((fun r : gmap (list N) (list N) => <[COL_METHODOLOGY := []]> r)
            <$> rows df)
    with (rows (set_column COL_METHODOLOGY [] df)).
  destruct (set_column COL_METHODOLOGY [] df) as [cs rs].
  cbn [columns rows] in *. f_equal.
  apply list_eq. intros i. rewrite apply_steps_self.
  destruct (rs !! i) as [r|]; [|reflexivity].
  cbn [fmap option_fmap option_map]. f_equal.
  unfold meth_step. destruct (decide (COL_ID ∈ cs)); [contradiction|].
  reflexivity.
Qed.

Lemma merge_without_id_column_witness :
  exists T',
    update_google_sheet_with_methodology {[ lit "a1b2c3d4" := lit "SUMMARY" ]}
      {| columns := [lit "title"];
         rows := [ {[ lit "title" := lit "a" ]} ] |} = Some T'
    /\ at_get T' 0 COL_METHODOLOGY = Some [].
Proof.
  eexists. split; [reflexivity|].
  rewrite (merge_without_id_column {[ lit "a1b2c3d4" := lit "SUMMARY" ]}
             {| columns := [lit "title"];
                rows := [ {[ lit "title" := lit "a" ]} ] |} _ eq_refl).
  - vm_compute. reflexivity.
  - intros H. apply list_elem_of_singleton in H. discriminate H.
Defined.

(** ** Download pass: what each row ends as, and what is left alone *)

Lemma fresh_row_other (r : gmap (list N) (list N)) (c : str) :
  c <> COL_AVAILABLE -> c <> COL_ID -> c <> COL_PATH ->
  fresh_row r !! c = r !! c.
Proof.
  intros Ha Hi Hp. unfold fresh_row.
  now rewrite !lookup_insert_ne by (apply not_eq_sym; assumption).
Qed.

Lemma link_fn_other (ok : str -> bool) (w : World) (link : str) (i : nat)
    (r x : gmap (list N) (list N)) (c : str) :
  c <> COL_AVAILABLE -> c <> COL_ID -> c <> COL_PATH ->
  link_fn ok w link i r x !! c = x !! c.
Proof.
  intros Ha Hi Hp. unfold link_fn, link_step.
  destruct (r !! link) as [url|]; [|reflexivity].
  destruct (strip url); [reflexivity|].
  destruct (is_pdf_url ok (PyStr url)) as [[|]|]; try reflexivity.
  cbv zeta. destruct (download_pdf _ _ _ _).
  - unfold mark_yes.
    now rewrite !lookup_insert_ne by (apply not_eq_sym; assumption).
  - unfold mark_failed.
    now rewrite lookup_insert_ne by (apply not_eq_sym; assumption).
Qed.

(** The result of the pass over the sample sheet. *)
Definition sample_result : DataFrame :=
  match process_links_and_download_pdfs (fun _ => true) sample_world LINK
          sample_sheet with
  | Ok d => d
  | Raise _ => sample_sheet
  end.

(** X10. The download pass keeps the number and order of the rows and every
    cell outside its three columns; on a table that has none of the three
    it appends them after the existing columns, in the order PDF
    Available, PDF ID, PDF Path. *)
Theorem download_pass_frame (ok : str -> bool) (w : World) (link : str)
    (df df' : DataFrame) :
  link ∈ columns df ->
  process_links_and_download_pdfs ok w link df = Ok df' ->
  length (rows df') = length (rows df)
  /\ (forall i c, c <> COL_AVAILABLE -> c <> COL_ID -> c <> COL_PATH ->
                  at_get df' i c = at_get df i c)
  /\ (COL_AVAILABLE ∉ columns df -> COL_ID ∉ columns df ->
      COL_PATH ∉ columns df ->
      columns df' = columns df ++ [COL_AVAILABLE; COL_ID; COL_PATH]).
Proof.
  intros Hin Hp. pose proof (process_links_rows ok w link df df') as Hrows.
  specialize (fun i => Hrows i Hin Hp).
  unfold process_links_and_download_pdfs in Hp.
  destruct (decide (link ∈ columns df)); [|contradiction].
  apply links_loop_ok in Hp as [Hc Hr]. split; [|split].
  - rewrite Hr, length_apply_steps. cbn [set_column rows].
    now rewrite !length_fmap.
  - intros i c Ha Hi Hpa. unfold at_get. rewrite Hrows.
    destruct (rows df !! i) as [r|]; [|reflexivity].
    cbn [fmap option_fmap option_map mbind option_bind].
    rewrite link_fn_other by assumption. now apply fresh_row_other.
  - intros Ha Hi Hpa. rewrite Hc. cbn [set_column columns].
    destruct (decide (COL_AVAILABLE ∈ columns df)); [contradiction|].
    destruct (decide (COL_ID ∈ columns df ++ [COL_AVAILABLE])) as [H|_].
    { apply elem_of_app in H as [H|H]; [contradiction|].
      apply list_elem_of_singleton in H. discriminate H. }
    destruct (decide (COL_PATH ∈ (columns df ++ [COL_AVAILABLE]) ++ [COL_ID]))
      as [H|_].
    { apply elem_of_app in H as [H|H].
      - apply elem_of_app in H as [H|H]; [contradiction|].
        apply list_elem_of_singleton in H. discriminate H.
      - apply list_elem_of_singleton in H. discriminate H. }
    now rewrite <- !app_assoc.
Qed.

Lemma download_pass_frame_witness :
  exists df',
    process_links_and_download_pdfs (fun _ => true) sample_world LINK
      sample_sheet = Ok df'
    /\ length (rows df') = 3%nat
    /\ at_get df' 0 (lit "title") = Some (lit "a")
    /\ columns df'
       = [lit "title"; LINK; COL_AVAILABLE; COL_ID; COL_PATH].
Proof.
  eexists. split; [reflexivity|].
  destruct (download_pass_frame (fun _ => true) sample_world LINK
              sample_sheet _ (list_elem_of_further _ _ _ (list_elem_of_here _ _))
              eq_refl) as (H1 & H2 & H3).
  split; [exact H1|]. split.
  - rewrite H2 by discriminate. reflexivity.
  - apply H3; intros H;
      repeat (apply elem_of_cons in H as [H|H]; [discriminate H|]);
      now apply elem_of_nil in H.
Defined.

Lemma fetched_row_cells (ok : str -> bool) (w : World)
    (link : str) (df df' : DataFrame) (i : nat)
    (r : gmap (list N) (list N)) (url : str) :
  link ∈ columns df ->
  link <> COL_AVAILABLE -> link <> COL_ID -> link <> COL_PATH ->
  rows df !! i = Some r ->
  r !! link = Some url ->
  strip url <> [] ->
  is_pdf_url ok (PyStr url) = Ok true ->
  http_get w i url = Fetched ->
  process_links_and_download_pdfs ok w link df = Ok df' ->
  at_get df' i COL_AVAILABLE = Some YES
  /\ at_get df' i COL_ID = Some (generate_unique_id (uuid4 w i))
  /\ at_get df' i COL_PATH
     = Some (PDF_DIR ++ [47] ++ generate_unique_id (uuid4 w i) ++ DOT_PDF).
Proof.
  intros Hin Ha Hi Hp Hr Hl Hs Hc Hf Hdf. unfold at_get.
  rewrite (process_links_rows ok w link df df' i Hin Hdf), Hr.
  cbn [fmap option_fmap option_map mbind option_bind].
  unfold link_fn, link_step. rewrite fresh_row_other, Hl by assumption.
  destruct (strip url) as [|c s]; [congruence|].
  rewrite Hc. cbv zeta. unfold download_pdf. rewrite Hf.
  apply mark_yes_cells.
Qed.

(** X11. A row whose link was classified as a PDF and whose fetch succeeds is
    marked Yes, with the identifier drawn for it and the path of the
    stored file. *)
Theorem successful_fetch_marks_row (ok : str -> bool) (w : World)
    (link : str) (df df' : DataFrame) (i : nat)
    (r : gmap (list N) (list N)) (url : str) :
  link ∈ columns df ->
  link <> COL_AVAILABLE -> link <> COL_ID -> link <> COL_PATH ->
  rows df !! i = Some r ->
  r !! link = Some url ->
  strip url <> [] ->
  is_pdf_url ok (PyStr url) = Ok true ->
  http_get w i url = Fetched ->
  process_links_and_download_pdfs ok w link df = Ok df' ->
  at_get df' i COL_AVAILABLE = Some YES
  /\ at_get df' i COL_ID = Some (generate_unique_id (uuid4 w i))
  /\ at_get df' i COL_PATH
     = Some (PDF_DIR ++ [47] ++ generate_unique_id (uuid4 w i) ++ DOT_PDF).
Proof. apply fetched_row_cells. Qed.

Lemma successful_fetch_marks_row_witness :
  exists df',
    process_links_and_download_pdfs (fun _ => true) sample_world LINK
      sample_sheet = Ok df'
    /\ at_get df' 0 COL_AVAILABLE = Some YES
    /\ at_get df' 0 COL_ID = Some (lit "a37b617f").
Proof.
  exists sample_result. split; [reflexivity|].
  destruct (successful_fetch_marks_row (fun _ => true) sample_world LINK
              sample_sheet sample_result 0
              {[ lit "title" := lit "a";
                 LINK := lit "https://example.org/paper.pdf" ]}
              (lit "https://example.org/paper.pdf")) as (H1 & H2 & _).
  - apply list_elem_of_further, list_elem_of_here.
  - discriminate.
  - discriminate.
  - discriminate.
  - reflexivity.
  - vm_compute. reflexivity.
  - vm_compute. discriminate.
  - vm_compute. reflexivity.
  - reflexivity.
  - reflexivity.
  - split; [exact H1|]. rewrite H2. vm_compute. reflexivity.
Defined.

(** X12. A row is left at No, with empty PDF ID and PDF Path, unless its link
    is present, is not blank and is classified as a PDF: a missing link,
    a link of white space only and a link that is not a PDF leave the
    row as the pass initialised it. *)
Theorem unclassified_row_stays_no (ok : str -> bool) (w : World)
    (link : str) (df df' : DataFrame) (i : nat)
    (r : gmap (list N) (list N)) :
  link ∈ columns df ->
  link <> COL_AVAILABLE -> link <> COL_ID -> link <> COL_PATH ->
  rows df !! i = Some r ->
  (forall url, r !! link = Some url ->
               strip url = [] \/ is_pdf_url ok (PyStr url) = Ok false) ->
  process_links_and_download_pdfs ok w link df = Ok df' ->
  at_get df' i COL_AVAILABLE = Some NO
  /\ at_get df' i COL_ID = Some []
  /\ at_get df' i COL_PATH = Some [].
Proof.
  intros Hin Ha Hi Hp Hr Hno Hdf. unfold at_get.
  rewrite (process_links_rows ok w link df df' i Hin Hdf), Hr.
  cbn [fmap option_fmap option_map mbind option_bind].
  unfold link_fn, link_step. rewrite fresh_row_other by assumption.
  destruct (r !! link) as [url|]; [|apply fresh_row_cells].
  destruct (Hno url eq_refl) as [E|E].
  - rewrite E. apply fresh_row_cells.
  - destruct (strip url); [apply fresh_row_cells|].
    rewrite E. apply fresh_row_cells.
Qed.

Lemma unclassified_row_stays_no_witness :
  exists df',
    process_links_and_download_pdfs (fun _ => true) sample_world LINK
      sample_sheet = Ok df'
    /\ at_get df' 2 COL_AVAILABLE = Some NO
    /\ at_get df' 2 COL_ID = Some []
    /\ at_get df' 2 COL_PATH = Some [].
Proof.
  exists sample_result. split; [reflexivity|].
  apply (unclassified_row_stays_no (fun _ => true) sample_world LINK
           sample_sheet sample_result 2
           {[ lit "title" := lit "c";
              LINK := lit "https://example.org/page.html" ]}).
  - apply list_elem_of_further, list_elem_of_here.
  - discriminate.
  - discriminate.
  - discriminate.
  - reflexivity.
  - intros url Hu. vm_compute in Hu. injection Hu as <-. right.
    vm_compute. reflexivity.
  - reflexivity.
Defined.

(** ** Sheet write-back: extent of the request *)

(** X13. Whatever the table, the values sent form a rectangle: one row per
    data row after the header row, and in every row exactly one value per
    header, a missing cell being sent as the empty text. *)
Theorem update_request_rectangular (worksheet_name : str) (df : DataFrame)
    (range : str) (values : list (list str)) :
  update_sheet_with_pdf_info worksheet_name df = Some (range, values) ->
  length values = S (length (rows df))
  /\ Forall (fun row => length row = length (columns df)) values
  /\ (forall i j r c, rows df !! i = Some r -> columns df !! j = Some c ->
        r !! c = None ->
        values !! S i ≫= (fun row => row !! j) = Some []).
Proof.
  unfold update_sheet_with_pdf_info. destruct (end_col df); [|discriminate].
  intros [= _ <-]. unfold sheet_data, data_rows. split; [|split].
  - cbn [length]. now rewrite length_fmap.
  - constructor; [reflexivity|].
    apply Forall_fmap, Forall_forall. intros r _. cbn.
    apply length_fmap.
  - intros i j r c Hr Hc Hn. cbn [lookup list_lookup].
    change (((fun r0 : gmap (list N) (list N) =>
                (fun c0 => clean_cell (r0 !! c0)) <$> columns df)
             <$> rows df) !! i ≫= (fun row => row !! j) = Some []).
    rewrite list_lookup_fmap, Hr.
    cbn [fmap option_fmap option_map mbind option_bind].
    rewrite list_lookup_fmap, Hc. cbn. now rewrite Hn.
Qed.

Lemma update_request_rectangular_witness :
  exists range values,
    update_sheet_with_pdf_info (lit "Sheet1")
      {| columns := [lit "title"; lit "link"];
         rows := [ {[ lit "title" := lit "a" ]} ] |} = Some (range, values)
    /\ length values = 2%nat
    /\ Forall (fun row => length row = 2%nat) values.
Proof.
  eexists _, _. split; [reflexivity|].
  destruct (update_request_rectangular (lit "Sheet1")
              {| columns := [lit "title"; lit "link"];
                 rows := [ {[ lit "title" := lit "a" ]} ] |} _ _ eq_refl)
    as (H1 & H2 & _).
  split; [exact H1 | exact H2].
Defined.



(** ** Extraction engine: the calls of one extraction *)

Definition is_files_create (c : call) : bool :=
  match c with
  | FilesCreate _ => true
  | _ => false
  end.

Lemma count_retrieves_files (l : list call) :
  Forall (fun c => c = RunsRetrieve) l -> count is_files_create l = 0%nat.
Proof.
  intros H. unfold count. induction H as [|c l -> _ IH]; [reflexivity|].
  exact IH.
Qed.

Lemma run_assistant_no_upload (api : Api) (fid : str) :
  count is_files_create (snd (run_assistant api fid)) = 0%nat.
Proof.
  unfold run_assistant.
  pose proof (fun s => poll_log (runs_retrieve api) s) as Hpoll.
  destruct (assistants_create api), (threads_create api),
    (messages_create api), (runs_create api) as [s|];
    cbn [guard_ok perform bind fst snd app]; try reflexivity.
  specialize (Hpoll s). destruct (poll (runs_retrieve api) s) as [r l].
  cbn [fst snd] in *.
  change (count is_files_create l = 0%nat). now apply count_retrieves_files.
Qed.

(** Strategy A: the calls of [run_assistant], then at most the reading
    of the answer and the writing of the summary file; it catches what it
    throws, and an answer it returns has been written. *)
Lemma assistants_log (api : Api) (fid pdf_name : str) :
  exists (r : res (option str)) (rest : list call),
    generate_methodology_summary_with_assistants api fid pdf_name
    = (r, snd (run_assistant api fid) ++ rest)
    /\ r <> Thrown
    /\ count is_chat rest = 0%nat
    /\ count is_run_create rest = 0%nat
    /\ count is_files_create rest = 0%nat
    /\ (forall s, r = Val (Some s) ->
          rest = [MessagesList; WriteSummary pdf_name s]).
Proof.
  unfold generate_methodology_summary_with_assistants.
  destruct (run_assistant api fid) as [[st| |] l]; cbn [fst snd bind try_except ret].
  - destruct (str_eqb st COMPLETED).
    + destruct (messages_list api) as [s|], (assistants_write api);
        cbn [perform guard_ok bind try_except ret app];
        rewrite <- ?app_assoc; cbn [app];
        eexists _, _; (split; [reflexivity|]);
        (split; [discriminate|]);
        (split; [reflexivity|]); (split; [reflexivity|]);
        (split; [reflexivity|]); intros s' [=]; subst; reflexivity.
    + cbn. exists (Val None), []. repeat split; try discriminate.
  - exists (Val None), []. repeat split; try discriminate.
  - exists Hangs, []. rewrite app_nil_r. repeat split; discriminate.
Qed.

(** The whole extraction, by the outcome of the upload and of
    Strategy A. *)
Lemma generate_cases (api : Api) (pdf_name : str) :
  let m := generate_methodology_summary api pdf_name in
  (m = (Val None, [FilesCreate pdf_name])
   /\ forall fid, files_create api = Some fid -> fid = [])
  \/ exists fid,
       files_create api = Some fid /\ fid <> []
       /\ let a := generate_methodology_summary_with_assistants
                     api fid pdf_name in
          let b := generate_methodology_summary_with_chat api fid pdf_name in
          (strategy_failed a
           /\ m = (fst b, FilesCreate pdf_name :: snd a ++ snd b))
          \/ (~ strategy_failed a
              /\ m = (fst a, FilesCreate pdf_name :: snd a)).
Proof.
  unfold generate_methodology_summary, upload_pdf_to_openai.
  destruct (files_create api) as [[|c fid]|] eqn:Ef;
    cbn [perform bind try_except ret app].
  - left. split; [reflexivity|]. now intros fid' [= <-].
  - right. exists (c :: fid). split; [reflexivity|]. split; [discriminate|].
    destruct (assistants_log api (c :: fid) pdf_name)
      as (r & rest & Ea & Hr & _).
    destruct (chat_log api (c :: fid) pdf_name) as (rb & restb & Eb & _).
    cbv zeta. rewrite Ea, Eb. cbn [fst snd].
    destruct r as [[s|]| |]; [| | contradiction |]; cbn [bind].
    + destruct s as [|x s]; cbn [truthy].
      * left. split; [exists (Some []); split; reflexivity|]. reflexivity.
      * right. split.
        -- intros (o & Ho & Ht). cbn in Ho. injection Ho as <-. discriminate.
        -- cbn. now rewrite app_nil_r.
    + left. split; [exists None; split; reflexivity|]. reflexivity.
    + right. split.
      * intros (o & Ho & _). discriminate.
      * reflexivity.
  - left. split; [reflexivity|]. discriminate.
Qed.

Lemma assistants_counts (api : Api) (fid pdf_name : str) :
  let l := snd (generate_methodology_summary_with_assistants api fid pdf_name) in
  count is_chat l = 0%nat
  /\ (count is_run_create l <= 1)%nat
  /\ count is_files_create l = 0%nat.
Proof.
  destruct (assistants_log api fid pdf_name)
    as (r & rest & -> & _ & Hc & Hr & Hf & _).
  destruct (run_assistant_log api fid) as (Hc' & Hr' & _).
  pose proof (run_assistant_no_upload api fid) as Hf'.
  cbn [snd]. rewrite !count_app, Hc, Hr, Hf, Hc', Hf'. lia.
Qed.

Lemma chat_counts (api : Api) (fid pdf_name : str) :
  let l := snd (generate_methodology_summary_with_chat api fid pdf_name) in
  count is_chat l = 1%nat
  /\ count is_run_create l = 0%nat
  /\ count is_files_create l = 0%nat.
Proof.
  unfold generate_methodology_summary_with_chat.
  destruct (chat_create api) as [s|], (chat_write api);
    repeat split.
Qed.

(** X15. Whatever the extraction capability answers, one extraction uploads
    the document once, as its first call, creates at most one run and
    asks for at most one completion; no exception leaves it. *)
Theorem extraction_calls_once (api : Api) (pdf_name : str) :
  let m := generate_methodology_summary api pdf_name in
  fst m <> Thrown
  /\ (exists rest, snd m = FilesCreate pdf_name :: rest
                   /\ count is_files_create rest = 0%nat)
  /\ (count is_run_create (snd m) <= 1)%nat
  /\ (count is_chat (snd m) <= 1)%nat.
Proof.
  intros m. split; [apply try_except_ret_not_thrown|].
  destruct (generate_cases api pdf_name)
    as [[E _] | (fid & _ & _ & [[_ E] | [_ E]])];
    fold m in E; rewrite E; cbn [fst snd].
  - split; [exists []; split; reflexivity|]. split; cbn; lia.
  - destruct (assistants_counts api fid pdf_name) as (Ac & Ar & Af).
    destruct (chat_counts api fid pdf_name) as (Bc & Br & Bf).
    cbv zeta in Ac, Ar, Af, Bc, Br, Bf.
    split; [eexists; split; [reflexivity|]; rewrite count_app; lia|].
    change (FilesCreate pdf_name :: ?l) with ([FilesCreate pdf_name] ++ l).
    rewrite !count_app, Bc, Br, Ac.
    change (count is_run_create [FilesCreate pdf_name]) with 0%nat.
    change (count is_chat [FilesCreate pdf_name]) with 0%nat.
    lia.
  - destruct (assistants_counts api fid pdf_name) as (Ac & Ar & Af).
    cbv zeta in Ac, Ar, Af.
    split; [eexists; split; [reflexivity | exact Af]|].
    change (FilesCreate pdf_name :: ?l) with ([FilesCreate pdf_name] ++ l).
    rewrite !count_app, Ac.
    change (count is_run_create [FilesCreate pdf_name]) with 0%nat.
    change (count is_chat [FilesCreate pdf_name]) with 0%nat.
    lia.
Qed.

Lemma chat_written (api : Api) (fid pdf_name s : str) :
  fst (generate_methodology_summary_with_chat api fid pdf_name) = Val (Some s) ->
  snd (generate_methodology_summary_with_chat api fid pdf_name)
  = [ChatCompletionsCreate (chat_prompt fid); WriteSummary pdf_name s].
Proof.
  unfold generate_methodology_summary_with_chat.
  destruct (chat_create api) as [t|], (chat_write api);
    cbn [perform guard_ok bind try_except ret app fst snd];
    intros [=]; subst; reflexivity.
Qed.

(** X16. A summary that the extraction returns has been written to the
    document's summary file, and that write is the last call made. *)
Theorem returned_summary_is_written (api : Api) (pdf_name s : str) :
  fst (generate_methodology_summary api pdf_name) = Val (Some s) ->
  exists before,
    snd (generate_methodology_summary api pdf_name)
    = before ++ [WriteSummary pdf_name s].
Proof.
  destruct (generate_cases api pdf_name)
    as [[E _] | (fid & _ & _ & [[_ E] | [_ E]])];
    cbv zeta in E; rewrite E; cbn [fst snd]; intros H.
  - discriminate.
  - rewrite (chat_written api fid pdf_name s H).
    exists (FilesCreate pdf_name
            :: snd (generate_methodology_summary_with_assistants
                      api fid pdf_name)
            ++ [ChatCompletionsCreate (chat_prompt fid)]).
    cbn [app]. now rewrite <- app_assoc.
  - destruct (assistants_log api fid pdf_name)
      as (r & rest & Ea & _ & _ & _ & _ & Hw).
    rewrite Ea in H |- *. cbn [fst snd] in *.
    rewrite (Hw s H).
    exists (FilesCreate pdf_name :: snd (run_assistant api fid)
            ++ [MessagesList]).
    cbn [app]. now rewrite <- app_assoc.
Qed.

Lemma returned_summary_is_written_witness :
  let api := {| files_create := Some (lit "file-abc123");
                assistants_create := true; threads_create := true;
                messages_create := true; runs_create := Some (lit "queued");
                runs_retrieve := [Some COMPLETED];
                messages_list := Some (lit "answer"); assistants_write := true;
                chat_create := Some (lit "summary"); chat_write := true |} in
  exists before,
    snd (generate_methodology_summary api (lit "a1b2c3d4.pdf"))
    = before ++ [WriteSummary (lit "a1b2c3d4.pdf") (lit "answer")].
Proof.
  intros api.
  apply (returned_summary_is_written api (lit "a1b2c3d4.pdf") (lit "answer")).
  reflexivity.
Defined.

(** X17. After a successful upload, the completion fallback runs exactly when
    Strategy A ends without a usable answer: when it throws anywhere
    (also while reading the answer or writing the summary file), when
    the job ends in another state than [completed], and when the answer
    is the empty text. Otherwise no completion is asked for and the
    extraction ends as Strategy A did. *)
Theorem fallback_exactly_when_assistants_fail (api : Api)
    (pdf_name fid : str) :
  files_create api = Some fid ->
  fid <> [] ->
  let a := generate_methodology_summary_with_assistants api fid pdf_name in
  let m := generate_methodology_summary api pdf_name in
  (strategy_failed a ->
     count is_chat (snd m) = 1%nat
     /\ fst m = fst (generate_methodology_summary_with_chat api fid pdf_name))
  /\ (~ strategy_failed a ->
        count is_chat (snd m) = 0%nat
        /\ m = (fst a, FilesCreate pdf_name :: snd a)).
Proof.
  intros Hup Hfid a m.
  destruct (assistants_counts api fid pdf_name) as (Ac & _ & _).
  destruct (chat_counts api fid pdf_name) as (Bc & _ & _).
  cbv zeta in Ac, Bc.
  destruct (generate_cases api pdf_name)
    as [[_ E] | (fid' & Hup' & _ & H)].
  { specialize (E fid Hup). contradiction. }
  rewrite Hup in Hup'. injection Hup' as <-. cbv zeta in H. fold a m in H.
  destruct H as [[Hf E] | [Hn E]]; (split; [intros Hf' | intros Hn']);
    try contradiction; rewrite E; cbn [fst snd].
  - split; [|reflexivity].
    change (FilesCreate pdf_name :: ?l) with ([FilesCreate pdf_name] ++ l).
    rewrite !count_app, Bc. fold a in Ac. rewrite Ac. reflexivity.
  - split; [|reflexivity].
    change (FilesCreate pdf_name :: ?l) with ([FilesCreate pdf_name] ++ l).
    rewrite !count_app. fold a in Ac. rewrite Ac. reflexivity.
Qed.

Lemma fallback_exactly_when_assistants_fail_witness :
  let api := {| files_create := Some (lit "file-abc123");
                assistants_create := true; threads_create := true;
                messages_create := true; runs_create := Some COMPLETED;
                runs_retrieve := [];
                messages_list := Some []; assistants_write := true;
                chat_create := Some (lit "summary"); chat_write := true |} in
  count is_chat (snd (generate_methodology_summary api (lit "a1b2c3d4.pdf")))
  = 1%nat
  /\ fst (generate_methodology_summary api (lit "a1b2c3d4.pdf"))
     = Val (Some (lit "summary")).
Proof.
  intros api.
  destruct (fallback_exactly_when_assistants_fail api (lit "a1b2c3d4.pdf")
              (lit "file-abc123")) as [H _].
  - reflexivity.
  - discriminate.
  - destruct H as [H1 H2].
    + exists (Some []). split; reflexivity.
    + split; [exact H1 | exact H2].
Defined.

(** ** Extraction engine, text variant *)

(** X18. The text variant of the extraction always ends with a value; it
    extracts the text first, asks for at most one completion, and a
    summary it returns has been written to the summary file as its last
    call. When no text comes out of the document (the extraction fails
    or gives white space only) nothing but the extraction is done. *)
Theorem text_extraction_calls (api : TextApi) (pdf_name : str) :
  let m := generate_methodology_summary_text api pdf_name in
  (exists o, fst m = Val o)
  /\ (exists rest, snd m = ExtractText pdf_name :: rest)
  /\ (count is_chat (snd m) <= 1)%nat
  /\ (forall s, fst m = Val (Some s) ->
        exists before, snd m = before ++ [WriteSummary pdf_name s])
  /\ ((forall t, extract_text api = Some t -> strip t = []) ->
        m = (Val None, [ExtractText pdf_name])).
Proof.
  unfold generate_methodology_summary_text.
  destruct (extract_text api) as [t|];
    cbn [perform guard_ok bind try_except ret app fst snd].
  2:{ repeat split; eauto; try (cbn; lia). intros s [=]. }
  destruct (strip t) as [|c u] eqn:Et;
    cbn [perform guard_ok bind try_except ret app fst snd].
  { repeat split; eauto; try (cbn; lia). intros s [=]. }
  destruct (text_chat_create api) as [s0|], (text_chat_write api);
    cbn [perform guard_ok bind try_except ret app fst snd];
    (split; [eauto|]); (split; [eauto|]);
    (split; [cbv [count List.filter is_chat length]; lia|]);
    (split; [intros s [=]; subst; now eexists [_; _]
            | intros H; specialize (H t eq_refl); congruence]).
Qed.

Lemma text_extraction_calls_witness :
  let api := {| extract_text := Some (lit "  ");
                text_chat_create := Some (lit "summary");
                text_chat_write := true |} in
  generate_methodology_summary_text api (lit "a1b2c3d4.pdf")
  = (Val None, [ExtractText (lit "a1b2c3d4.pdf")]).
Proof.
  intros api.
  apply (proj2 (proj2 (proj2 (proj2
           (text_extraction_calls api (lit "a1b2c3d4.pdf")))))).
  intros t [= <-]. reflexivity.
Defined.

Lemma length_text_prompt (t : str) :
  length (text_prompt t)
  = (length TEXT_PROMPT_HEAD + Nat.min (Z.to_nat 8000) (length t)
     + length TEXT_PROMPT_TAIL)%nat.
Proof.
  unfold text_prompt. rewrite !length_app, length_take. lia.
Qed.

(** X19. The completion of the text variant is asked with the prompt built
    from the stripped text of the document, of which the prompt holds
    no more than the first 8,000 characters: text beyond them changes
    nothing in the call. *)
Theorem text_prompt_bounded (api : TextApi) (pdf_name prompt : str) :
  ChatCompletionsCreate prompt
    ∈ snd (generate_methodology_summary_text api pdf_name) ->
  exists t,
    extract_text api = Some t
    /\ strip t <> []
    /\ prompt = text_prompt (strip t)
    /\ (Z.of_nat (length prompt)
        <= Z.of_nat (length TEXT_PROMPT_HEAD) + 8000
           + Z.of_nat (length TEXT_PROMPT_TAIL))%Z
    /\ forall more, (8000 <= Z.of_nat (length (strip t)))%Z ->
                    text_prompt (strip t ++ more) = prompt.
Proof.
  unfold generate_methodology_summary_text.
  destruct (extract_text api) as [t|];
    cbn [perform guard_ok bind try_except ret app fst snd].
  2:{ intros H. apply list_elem_of_singleton in H. discriminate. }
  destruct (strip t) as [|c u] eqn:Et;
    cbn [perform guard_ok bind try_except ret app fst snd].
  { intros H. apply list_elem_of_singleton in H. discriminate. }
  intros H.
  assert (Hp : prompt = text_prompt (c :: u)).
  { destruct (text_chat_create api) as [s0|], (text_chat_write api);
      cbn [perform guard_ok bind try_except ret app fst snd] in H;
      repeat (apply elem_of_cons in H as [H|H];
              [first [discriminate | now injection H]|]);
      now apply elem_of_nil in H. }
  clear H. subst prompt. exists t. rewrite Et.
  split; [reflexivity|]. split; [discriminate|]. split; [reflexivity|].
  split.
  - rewrite length_text_prompt. lia.
  - intros more Hlen. unfold text_prompt. f_equal. f_equal.
    apply take_app_le. lia.
Qed.

Lemma text_prompt_bounded_witness :
  let api := {| extract_text := Some (lit " Methods. We sample. ");
                text_chat_create := Some (lit "summary");
                text_chat_write := true |} in
  exists t,
    extract_text api = Some t
    /\ text_prompt (lit "Methods. We sample.") = text_prompt (strip t).
Proof.
  intros api.
  destruct (text_prompt_bounded api (lit "a1b2c3d4.pdf")
              (text_prompt (lit "Methods. We sample.")))
    as (t & H1 & _ & H3 & _).
  - apply list_elem_of_further, list_elem_of_here.
  - exists t. split; [exact H1 | exact H3].
Defined.

(** ** Batch: the mapping it returns *)

Lemma length_format (text : option str) :
  (Z.of_nat (length (format_for_google_sheets text))
   <= 45000 + Z.of_nat (length TRUNCATION_MARKER))%Z.
Proof.
  destruct text as [[|c t]|]; unfold format_for_google_sheets;
    [change (length (@nil N)) with O; lia |
     | change (length (@nil N)) with O; lia].
  pose proof (length_strip (cap_length (normalize (c :: t)))).
  pose proof (length_cap_length (normalize (c :: t))).
  pose proof cell_cap_Z. lia.
Qed.

Lemma length_summary_entry (o : option str) :
  (Z.of_nat (length (summary_entry o)) < 50000)%Z.
Proof.
  unfold summary_entry. destruct (truthy o).
  - pose proof (length_format o) as H.
    change (length TRUNCATION_MARKER) with 35%nat in H. lia.
  - change (length FAILED_SUMMARY) with 26%nat. lia.
Qed.

Lemma batch_loop_cons (generate : str -> M (option str)) (f0 : str)
    (rest : list str) (acc : gmap (list N) (list N)) :
  batch_loop generate (f0 :: rest) acc
  = (o <- generate f0 ;;
     batch_loop generate rest (<[stem f0 := summary_entry o]> acc)).
Proof.
  cbn [batch_loop]. unfold bind. destruct (generate f0) as [[o| |] l];
    [|reflexivity|reflexivity].
  unfold summary_entry. now destruct (truthy o).
Qed.

(** What a batch loop that ended has done: every extraction ended, and
    the mapping holds the entries it had and, for every file, the entry
    of an extraction of a file with that id. *)
Lemma batch_loop_inv (generate : str -> M (option str)) (pdf_files : list str)
    (acc s : gmap (list N) (list N)) (log : list call) :
  batch_loop generate pdf_files acc = (Val s, log) ->
  (forall f, f ∈ pdf_files -> exists o, fst (generate f) = Val o)
  /\ (forall k, is_Some (s !! k)
                <-> k ∈ stem <$> pdf_files \/ is_Some (acc !! k))
  /\ (forall k v, s !! k = Some v ->
        acc !! k = Some v
        \/ exists f o, f ∈ pdf_files /\ stem f = k
                       /\ fst (generate f) = Val o /\ v = summary_entry o).
Proof.
  revert acc log. induction pdf_files as [|f0 rest IH]; intros acc log.
  - cbn [batch_loop ret]. intros [= <- <-]. split; [|split].
    + intros f Hf. now apply elem_of_nil in Hf.
    + intros k. rewrite fmap_nil, elem_of_nil. tauto.
    + intros k v Hk. now left.
  - rewrite batch_loop_cons. unfold bind.
    destruct (generate f0) as [[o| |] l0] eqn:Eg; [|discriminate|discriminate].
    destruct (batch_loop generate rest (<[stem f0:=summary_entry o]> acc))
      as [r l'] eqn:Eb.
    intros [= -> <-].
    destruct (IH _ _ Eb) as (Hall & Hkeys & Hvals). split; [|split].
    + intros f Hf. apply elem_of_cons in Hf as [-> | Hf]; [|auto].
      exists o. now rewrite Eg.
    + intros k. rewrite Hkeys, fmap_cons, elem_of_cons.
      destruct (decide (stem f0 = k)) as [<- | Hne].
      * rewrite lookup_insert_eq. split; [intros _; now left; left|].
        intros _. right. eauto.
      * rewrite lookup_insert_ne by exact Hne. split.
        -- intros [H|H]; [left; now right | now right].
        -- intros [[H|H]|H]; [congruence | now left | now right].
    + intros k v Hk. destruct (Hvals k v Hk) as [Ha | (f & o' & Hf & Hs & Ho & Hv)].
      * destruct (decide (stem f0 = k)) as [<- | Hne].
        -- rewrite lookup_insert_eq in Ha. injection Ha as <-.
           right. exists f0, o. rewrite Eg.
           split; [apply list_elem_of_here|]. repeat split.
        -- rewrite lookup_insert_ne in Ha by exact Hne. now left.
      * right. exists f, o'. split; [now apply list_elem_of_further|].
        repeat split; assumption.
Qed.

(** X20. The mapping that a batch returns has a key for the id of every PDF
    file of the directory and for nothing else (none when the directory
    is missing); each value is the entry of an extraction of a file with
    that id, and is shorter than the 50,000 characters that a sheet cell
    takes. *)
Theorem batch_mapping_keys_and_values (generate : str -> M (option str))
    (dir_exists : bool) (pdf_files : list str)
    (summaries : gmap (list N) (list N)) (log : list call) :
  process_all_pdfs generate dir_exists pdf_files = (Val summaries, log) ->
  (forall k, is_Some (summaries !! k)
             <-> dir_exists = true /\ k ∈ stem <$> pdf_files)
  /\ (forall k v, summaries !! k = Some v ->
        (Z.of_nat (length v) < 50000)%Z
        /\ exists f o, f ∈ pdf_files /\ stem f = k
                       /\ fst (generate f) = Val o /\ v = summary_entry o).
Proof.
  unfold process_all_pdfs. destruct dir_exists; cbn [negb].
  - destruct pdf_files as [|f0 rest].
    + cbn [ret]. intros [= <- <-]. split.
      * intros k. rewrite lookup_empty, fmap_nil, elem_of_nil.
        split; [intros [? [=]] | tauto].
      * intros k v. rewrite lookup_empty. discriminate.
    + intros Hb. apply batch_loop_inv in Hb as (_ & Hkeys & Hvals). split.
      * intros k. rewrite Hkeys, lookup_empty. split.
        -- intros [H | [? [=]]]. now split.
        -- intros [_ H]. now left.
      * intros k v Hk.
        destruct (Hvals k v Hk) as [Ha | (f & o & Hf & Hs & Ho & ->)].
        -- rewrite lookup_empty in Ha. discriminate.
        -- split; [apply length_summary_entry | eauto 10].
  - cbn [ret]. intros [= <- <-]. split.
    + intros k. rewrite lookup_empty. split; [intros [? [=]] | intros [[=] _]].
    + intros k v. rewrite lookup_empty. discriminate.
Qed.

Lemma batch_mapping_keys_and_values_witness :
  let generate := fun _ : str => (Val (Some (lit "- sampling")), [] : list call) in
  exists summaries log,
    process_all_pdfs generate true [lit "a1b2c3d4.pdf"] = (Val summaries, log)
    /\ (is_Some (summaries !! lit "a1b2c3d4")
        <-> true = true /\ lit "a1b2c3d4" ∈ stem <$> [lit "a1b2c3d4.pdf"]).
Proof.
  intros generate.
  exists {[ lit "a1b2c3d4" := BULLET :: SP :: lit "sampling" ]}, [].
  assert (E : process_all_pdfs generate true [lit "a1b2c3d4.pdf"]
              = (Val {[ lit "a1b2c3d4" := BULLET :: SP :: lit "sampling" ]}, []))
    by reflexivity.
  split; [exact E|].
  apply (proj1 (batch_mapping_keys_and_values generate true _ _ _ E)).
Defined.

(** X21. Distinct files of the directory have distinct ids, provided every
    name has something before its [.pdf]. *)
Theorem stored_names_have_distinct_ids (pdf_files : list str) :
  NoDup pdf_files ->
  (forall f, f ∈ pdf_files -> exists x, x <> [] /\ f = x ++ DOT_PDF) ->
  NoDup (stem <$> pdf_files).
Proof.
  induction pdf_files as [|f0 rest IH]; intros Hnd Hall.
  - constructor.
  - apply NoDup_cons in Hnd as [Hnot Hnd]. rewrite fmap_cons.
    apply NoDup_cons. split.
    + intros Hin. apply list_elem_of_fmap in Hin as (g & Hs & Hg).
      destruct (Hall f0 (list_elem_of_here _ _)) as (x & Hx & ->).
      destruct (Hall g (list_elem_of_further _ _ _ Hg)) as (y & Hy & ->).
      rewrite !stem_of_pdf_name in Hs by assumption. subst y.
      contradiction.
    + apply IH; [exact Hnd|]. intros f Hf. apply Hall.
      now apply list_elem_of_further.
Qed.

Lemma stored_names_have_distinct_ids_witness :
  NoDup (stem <$> [lit "a1b2c3d4.pdf"; lit "e5f6a7b8.pdf"]).
Proof.
  apply stored_names_have_distinct_ids.
  - apply NoDup_cons. split; [|apply NoDup_singleton].
    intros H. apply list_elem_of_singleton in H. discriminate.
  - intros f Hf.
    apply elem_of_cons in Hf as [-> | Hf];
      [exists (lit "a1b2c3d4"); split; [discriminate | reflexivity]|].
    apply list_elem_of_singleton in Hf as ->.
    exists (lit "e5f6a7b8"). split; [discriminate | reflexivity].
Defined.

(** ** From the download pass to the merged sheet *)

Lemma download_pass_has_id_column (ok : str -> bool) (w : World)
    (link : str) (df df' : DataFrame) :
  link ∈ columns df ->
  process_links_and_download_pdfs ok w link df = Ok df' ->
  COL_ID ∈ columns df'.
Proof.
  intros Hin Hp. unfold process_links_and_download_pdfs in Hp.
  destruct (decide (link ∈ columns df)); [|contradiction].
  apply links_loop_ok in Hp as [-> _].
  apply elem_of_set_column, elem_of_set_column_same.
Qed.

(** X22. The three stages fit together. A row whose document the download
    pass fetched gets, in the merge, the entry that the batch made for
    the stored file of that row: the id in the row, the name of the
    file and the key of the mapping lead to one another. (The table
    merged is the one the download pass produced.) *)
Theorem downloaded_row_gets_its_summary (ok : str -> bool) (w : World)
    (link : str) (df df1 df2 : DataFrame) (i : nat)
    (r : gmap (list N) (list N)) (url : str)
    (generate : str -> M (option str)) (pdf_files : list str)
    (summaries : gmap (list N) (list N)) (log : list call)
    (o : option str) :
  link ∈ columns df ->
  link <> COL_AVAILABLE -> link <> COL_ID -> link <> COL_PATH ->
  rows df !! i = Some r ->
  r !! link = Some url ->
  strip url <> [] ->
  is_pdf_url ok (PyStr url) = Ok true ->
  http_get w i url = Fetched ->
  process_links_and_download_pdfs ok w link df = Ok df1 ->
  generate_unique_id (uuid4 w i) ++ DOT_PDF ∈ pdf_files ->
  NoDup (stem <$> pdf_files) ->
  process_all_pdfs generate true pdf_files = (Val summaries, log) ->
  fst (generate (generate_unique_id (uuid4 w i) ++ DOT_PDF)) = Val o ->
  update_google_sheet_with_methodology summaries df1 = Some df2 ->
  at_get df2 i COL_METHODOLOGY = Some (summary_entry o).
Proof.
  intros Hin Ha Hi Hp Hr Hl Hs Hc Hf Hdf Hfile Hnd Hb Ho Hm.
  set (uid := generate_unique_id (uuid4 w i)) in *.
  assert (Hentry : summaries !! uid = Some (summary_entry o)).
  { assert (Hall : forall f, f ∈ pdf_files ->
                      exists o', fst (generate f) = Val o').
    { unfold process_all_pdfs in Hb. cbn [negb] in Hb.
      destruct pdf_files as [|f0 rest]; [now apply elem_of_nil in Hfile|].
      now apply batch_loop_inv in Hb as [H _]. }
    destruct (process_all_pdfs_spec generate pdf_files Hnd Hall)
      as (s & l & Hs' & He).
    rewrite Hb in Hs'. injection Hs' as <- <-.
    pose proof (He _ o Hfile Ho) as Hk.
    unfold uid in Hk. rewrite stem_generate_unique_id in Hk. exact Hk. }
  destruct (fetched_row_cells ok w link df df1 i r url
              Hin Ha Hi Hp Hr Hl Hs Hc Hf Hdf) as (_ & Hid & _).
  fold uid in Hid. unfold at_get in Hid.
  destruct (rows df1 !! i) as [r1|] eqn:Hr1; [|discriminate].
  cbn [mbind option_bind] in Hid.
  apply (merge_cell summaries df1 df2 i r1 uid (summary_entry o) Hm).
  - exact (download_pass_has_id_column ok w link df df1 Hin Hdf).
  - exact Hr1.
  - exact Hid.
  - unfold uid. rewrite strip_generate_unique_id. exact Hentry.
Qed.

Lemma downloaded_row_gets_its_summary_witness :
  let generate := fun _ : str => (Val (Some (lit "- sampling")), [] : list call) in
  exists df1 df2,
    process_links_and_download_pdfs (fun _ => true) sample_world LINK
      sample_sheet = Ok df1
    /\ update_google_sheet_with_methodology
         {[ lit "a37b617f" := BULLET :: SP :: lit "sampling" ]} df1 = Some df2
    /\ at_get df2 0 COL_METHODOLOGY = Some (BULLET :: SP :: lit "sampling").
Proof.
  intros generate.
  destruct (process_links_and_download_pdfs (fun _ => true) sample_world LINK
              sample_sheet) as [df1|e] eqn:E1; [|vm_compute in E1; discriminate].
  destruct (update_google_sheet_with_methodology
              {[ lit "a37b617f" := BULLET :: SP :: lit "sampling" ]} df1)
    as [df2|] eqn:E2.
  2:{ vm_compute in E1. injection E1 as <-. vm_compute in E2. discriminate. }
  exists df1, df2. split; [reflexivity|]. split; [exact E2|].
  assert (Hr : exists r url, rows sample_sheet !! 0%nat = Some r
                             /\ r !! LINK = Some url
                             /\ strip url <> []
                             /\ is_pdf_url (fun _ => true) (PyStr url) = Ok true
                             /\ http_get sample_world 0 url = Fetched).
  { eexists _, _. split; [reflexivity|]. split; [reflexivity|].
    split; [discriminate|]. split; reflexivity. }
  destruct Hr as (r & url & Hr & Hl & Hs & Hc & Hf).
  apply (downloaded_row_gets_its_summary (fun _ => true) sample_world LINK
           sample_sheet df1 df2 0 r url generate [lit "a37b617f.pdf"]
           {[ lit "a37b617f" := BULLET :: SP :: lit "sampling" ]} []
           (Some (lit "- sampling")));
    try assumption; try discriminate; try reflexivity.
  - vm_compute. repeat constructor.
  - apply list_elem_of_here.
  - apply NoDup_singleton.
Defined.

(** ** Sheet identifier *)

Definition no_more_id (rest : str) : Prop :=
  match rest with
  | c :: _ => is_sheet_id_char c = false
  | [] => True
  end.

Lemma forallb_take_while (p : char -> bool) (s : str) :
  forallb p (take_while p s) = true.
Proof.
  induction s as [|c s IH]; [reflexivity|]. cbn [take_while].
  destruct (p c) eqn:E; [|reflexivity]. cbn [forallb]. now rewrite E.
Qed.

Lemma take_while_app_stop (p : char -> bool) (a b : str) :
  forallb p a = true ->
  match b with c :: _ => p c = false | [] => True end ->
  take_while p (a ++ b) = a.
Proof.
  intros Ha Hb. induction a as [|x a IH]; cbn [app take_while].
  - destruct b as [|c b]; [reflexivity|]. cbn [take_while]. now rewrite Hb.
  - cbn [forallb] in Ha. apply andb_true_iff in Ha as [Hx Ha].
    rewrite Hx, IH by exact Ha. reflexivity.
Qed.

Lemma extract_sheet_id_step (x : char) (rest : str) :
  extract_sheet_id (x :: rest)
  = if startswith SHEET_ID_PREFIX (x :: rest) then
      match take_while is_sheet_id_char
              (drop (length SHEET_ID_PREFIX) (x :: rest)) with
      | (_ :: _) as sheet_id => Ok sheet_id
      | [] => extract_sheet_id rest
      end
    else extract_sheet_id rest.
Proof. reflexivity. Qed.

Lemma extract_sheet_id_here (tail : str) :
  take_while is_sheet_id_char tail <> [] ->
  extract_sheet_id (SHEET_ID_PREFIX ++ tail)
  = Ok (take_while is_sheet_id_char tail).
Proof.
  intros Hne.
  change (SHEET_ID_PREFIX ++ tail)
    with (47 :: drop 1 SHEET_ID_PREFIX ++ tail).
  rewrite extract_sheet_id_step.
  change (47 :: drop 1 SHEET_ID_PREFIX ++ tail)
    with (SHEET_ID_PREFIX ++ tail).
  assert (startswith SHEET_ID_PREFIX (SHEET_ID_PREFIX ++ tail) = true) as ->
    by (apply startswith_spec; eauto).
  rewrite drop_app_length.
  destruct (take_while is_sheet_id_char tail); [congruence | reflexivity].
Qed.

(** X23. The identifier that is extracted is not empty, is made of letters,
    digits, [-] and [_] only, stands in the address right after the
    marker [/spreadsheets/d/], and is the whole run of such characters
    there. *)
Theorem extract_sheet_id_sound (url sheet_id : str) :
  extract_sheet_id url = Ok sheet_id ->
  sheet_id <> []
  /\ forallb is_sheet_id_char sheet_id = true
  /\ exists a b, url = a ++ SHEET_ID_PREFIX ++ sheet_id ++ b
                 /\ no_more_id b.
Proof.
  induction url as [|x rest IH]; [discriminate|].
  rewrite extract_sheet_id_step.
  assert (Hrec : extract_sheet_id rest = Ok sheet_id ->
            sheet_id <> []
            /\ forallb is_sheet_id_char sheet_id = true
            /\ exists a b, x :: rest = a ++ SHEET_ID_PREFIX ++ sheet_id ++ b
                           /\ no_more_id b).
  { intros H. destruct (IH H) as (H1 & H2 & a & b & -> & Hb).
    split; [exact H1|]. split; [exact H2|]. now exists (x :: a), b. }
  destruct (startswith SHEET_ID_PREFIX (x :: rest)) eqn:Es; [|exact Hrec].
  apply startswith_spec in Es as [tail Et]. rewrite Et, drop_app_length.
  destruct (take_while is_sheet_id_char tail) as [|c t] eqn:Ew;
    [rewrite <- Et; exact Hrec|].
  intros [= <-]. split; [discriminate|]. split.
  - rewrite <- Ew. apply forallb_take_while.
  - exists [], (drop_while is_sheet_id_char tail). split.
    + rewrite <- Ew, take_drop_while. reflexivity.
    + unfold no_more_id.
      destruct (drop_while is_sheet_id_char tail) as [|d r] eqn:Ed;
        [exact I|]. exact (drop_while_head _ _ _ _ Ed).
Qed.

Lemma extract_sheet_id_sound_witness :
  extract_sheet_id
    (lit "https://docs.google.com/spreadsheets/d/1AbC-_x9/edit#gid=0")
  = Ok (lit "1AbC-_x9")
  /\ forallb is_sheet_id_char (lit "1AbC-_x9") = true.
Proof.
  split; [reflexivity|].
  exact (proj1 (proj2 (extract_sheet_id_sound
           (lit "https://docs.google.com/spreadsheets/d/1AbC-_x9/edit#gid=0")
           (lit "1AbC-_x9") eq_refl))).
Defined.

(** X24. The extraction raises [ValueError] exactly for the addresses in
    which the marker [/spreadsheets/d/] is nowhere followed by a letter,
    a digit, [-] or [_]. *)
Theorem extract_sheet_id_raises_iff (url : str) :
  extract_sheet_id url = Raise ValueError
  <-> forall a c b, url = a ++ SHEET_ID_PREFIX ++ c :: b ->
                    is_sheet_id_char c = false.
Proof.
  induction url as [|x rest IH].
  - split; [|reflexivity]. intros _ a c b E.
    apply (f_equal (@length N)) in E. rewrite !length_app in E.
    cbn [length] in E. lia.
  - rewrite extract_sheet_id_step. split.
    + intros H a c b E. destruct a as [|y a].
      * cbn [app] in E. rewrite E in H.
        assert (startswith SHEET_ID_PREFIX (SHEET_ID_PREFIX ++ c :: b) = true)
          as Hs by (apply startswith_spec; eauto).
        rewrite Hs, drop_app_length in H. cbn [take_while] in H.
        now destruct (is_sheet_id_char c).
      * injection E as -> ->.
        assert (Hr : extract_sheet_id (a ++ SHEET_ID_PREFIX ++ c :: b)
                     = Raise ValueError).
        { destruct (startswith SHEET_ID_PREFIX _); [|exact H].
          now destruct (take_while is_sheet_id_char _). }
        exact (proj1 IH Hr a c b eq_refl).
    + intros H.
      assert (Hr : extract_sheet_id rest = Raise ValueError).
      { apply IH. intros a c b ->. apply (H (x :: a) c b). reflexivity. }
      destruct (startswith SHEET_ID_PREFIX (x :: rest)) eqn:Es; [|exact Hr].
      apply startswith_spec in Es as [tail Et]. rewrite Et, drop_app_length.
      destruct tail as [|c t]; [exact Hr|]. cbn [take_while].
      now rewrite (H [] c t Et).
Qed.

Lemma extract_sheet_id_raises_iff_witness :
  extract_sheet_id (lit "x/spreadsheets/d/!y") = Raise ValueError
  /\ is_sheet_id_char 33 = false.
Proof.
  split; [reflexivity|].
  apply (proj1 (extract_sheet_id_raises_iff (lit "x/spreadsheets/d/!y"))
           eq_refl (lit "x") 33 (lit "y")).
  reflexivity.
Defined.

Lemma extract_sheet_id_skip (pre url : str) :
  (forall k, (k < length pre)%nat ->
             startswith SHEET_ID_PREFIX (drop k (pre ++ url)) = false) ->
  extract_sheet_id (pre ++ url) = extract_sheet_id url.
Proof.
  induction pre as [|x pre IH]; intros H; [reflexivity|].
  cbn [app]. rewrite extract_sheet_id_step.
  pose proof (H 0%nat ltac:(cbn; lia)) as H0. cbn [drop app] in H0.
  rewrite H0. apply IH.
  intros k Hk. apply (H (S k)). cbn. lia.
Qed.

(** X25. Round trip: from a sheet address of the usual form, the host
    followed by [/spreadsheets/d/], an identifier and anything that
    does not go on with an identifier character, exactly the identifier
    is extracted. *)
Theorem extract_sheet_id_standard_url (sheet_id rest : str) :
  sheet_id <> [] ->
  forallb is_sheet_id_char sheet_id = true ->
  no_more_id rest ->
  extract_sheet_id
    (lit "https://docs.google.com" ++ SHEET_ID_PREFIX ++ sheet_id ++ rest)
  = Ok sheet_id.
Proof.
  intros Hne Hid Hrest.
  assert (Hw : take_while is_sheet_id_char (sheet_id ++ rest) = sheet_id)
    by now apply take_while_app_stop.
  rewrite extract_sheet_id_skip.
  - rewrite extract_sheet_id_here; rewrite Hw; [reflexivity | exact Hne].
  - intros k Hk. change (length (lit "https://docs.google.com")) with 23%nat in Hk.
    do 23 (destruct k as [|k]; [reflexivity|]). lia.
Qed.

Lemma extract_sheet_id_standard_url_witness :
  extract_sheet_id
    (lit "https://docs.google.com" ++ SHEET_ID_PREFIX ++ lit "1AbC-_x9"
     ++ lit "/edit#gid=0")
  = Ok (lit "1AbC-_x9").
Proof.
  apply extract_sheet_id_standard_url;
    [discriminate | reflexivity | reflexivity].
Defined.

(** ** Workflows over the sheet *)

Definition full_range (s : Sheets) : str :=
  config_worksheet_name s ++ [33] ++ config_read_range s.

Lemma read_sheet_cases (s : Sheets) :
  (extract_sheet_id (config_url s) = Raise ValueError
   /\ Workflow.read_sheet s = (Raised, []))
  \/ exists sheet_id,
       extract_sheet_id (config_url s) = Ok sheet_id
       /\ Workflow.read_sheet s
          = (match values_get s with
             | GotTable df => Returned df
             | GetHttpError => Returned EMPTY_FRAME
             | GetFailed => Raised
             end, [ValuesGet sheet_id (full_range s)]).
Proof.
  unfold Workflow.read_sheet, full_range.
  destruct (extract_sheet_id (config_url s)) as [sheet_id|[]];
    cbn [w_lift w_bind app].
  - right. exists sheet_id. split; [reflexivity|].
    now destruct (values_get s).
  - left. split; reflexivity.
Qed.

Lemma update_sheet_cases (s : Sheets) (df : DataFrame) (sheet_id : str) :
  extract_sheet_id (config_url s) = Ok sheet_id ->
  Workflow.update_sheet_with_pdf_info s df
  = match update_sheet_with_pdf_info (config_worksheet_name s) df with
    | Some (range_name, data) =>
        (Returned (values_update s),
         [ValuesUpdate sheet_id range_name data])
    | None => (Returned false, [])
    end.
Proof.
  intros E. unfold Workflow.update_sheet_with_pdf_info. rewrite E.
  cbn [w_lift w_bind app].
  destruct (update_sheet_with_pdf_info (config_worksheet_name s) df)
    as [[range_name data]|]; [|reflexivity].
  now destruct (values_update s).
Qed.

Lemma update_sheet_no_csv (s : Sheets) (df : DataFrame) (f : str)
    (d : DataFrame) :
  ToCsv f d ∉ snd (Workflow.update_sheet_with_pdf_info s df).
Proof.
  destruct (extract_sheet_id (config_url s)) as [sheet_id|[]] eqn:E.
  - rewrite (update_sheet_cases s df sheet_id E).
    destruct (update_sheet_with_pdf_info (config_worksheet_name s) df)
      as [[range_name data]|]; cbn [snd]; intros H.
    + apply list_elem_of_singleton in H. discriminate.
    + now apply elem_of_nil in H.
  - unfold Workflow.update_sheet_with_pdf_info. rewrite E.
    cbn. apply not_elem_of_nil.
Qed.

(** X26. A table that the download workflow returns has been saved: unless
    the sheet read came back empty (then the sheet was read and nothing
    else was done), the last thing done is the writing of the returned
    table to the local copy, whether the update of the sheet succeeded
    or not. *)
Theorem download_workflow_saves_what_it_returns (s : Sheets)
    (ok : str -> bool) (w : World) (link : str) (df : DataFrame)
    (log : list sheet_call) :
  Workflow.process_sheet_with_pdf_download s ok w link = (Returned df, log) ->
  (df_empty df = true
   /\ exists sheet_id, log = [ValuesGet sheet_id (full_range s)])
  \/ (to_csv s = true
      /\ exists before, log = before ++ [ToCsv PROCESSED_CSV df]
                        /\ forall f d, ToCsv f d ∉ before).
Proof.
  unfold Workflow.process_sheet_with_pdf_download.
  destruct (read_sheet_cases s) as [[_ ->] | (sheet_id & Eid & ->)];
    [discriminate|].
  destruct (values_get s) as [df0| |]; cbn [w_bind]; [| |discriminate].
  - destruct (df_empty df0) eqn:Ee.
    + cbn [w_ret app]. intros [= <- <-]. left. eauto.
    + destruct (process_links_and_download_pdfs ok w link df0) as [df1|e];
        cbn [w_lift w_bind]; [|discriminate].
      pose proof (update_sheet_no_csv s df1) as Hno.
      rewrite (update_sheet_cases s df1 sheet_id Eid) in Hno |- *.
      destruct (update_sheet_with_pdf_info (config_worksheet_name s) df1)
        as [[range_name data]|]; cbn [w_bind snd] in Hno |- *;
        (destruct (to_csv s); cbn [guard_ok w_call w_bind w_ret app];
         [|discriminate]);
        intros [= <- <-]; right; (split; [reflexivity|]).
      * exists [ValuesGet sheet_id (full_range s);
                ValuesUpdate sheet_id range_name data].
        split; [reflexivity|]. intros f d H.
        apply elem_of_cons in H as [H|H]; [discriminate|].
        now apply Hno in H.
      * exists [ValuesGet sheet_id (full_range s)].
        split; [reflexivity|]. intros f d H.
        apply list_elem_of_singleton in H. discriminate.
  - cbn [df_empty EMPTY_FRAME columns w_ret app]. intros [= <- <-].
    left. split; [reflexivity | eauto].
Qed.

Lemma download_workflow_saves_what_it_returns_witness :
  let s := {| config_url :=
                lit "https://docs.google.com/spreadsheets/d/1AbC-_x9/edit";
              config_worksheet_name := lit "Sheet1";
              config_read_range := lit "A:Z";
              values_get := GotTable sample_sheet;
              values_update := false;
              to_csv := true |} in
  exists before,
    snd (Workflow.process_sheet_with_pdf_download s (fun _ => true)
           sample_world LINK)
    = before ++ [ToCsv PROCESSED_CSV sample_result].
Proof.
  intros s.
  destruct (download_workflow_saves_what_it_returns s (fun _ => true)
              sample_world LINK sample_result
              (snd (Workflow.process_sheet_with_pdf_download s (fun _ => true)
                      sample_world LINK)))
    as [[H _] | (_ & before & H & _)].
  - vm_compute. reflexivity.
  - vm_compute in H. discriminate.
  - exists before. exact H.
Defined.

Lemma links_loop_raises (ok : str -> bool) (w : World) (link : str)
    (todo : list (gmap (list N) (list N))) (i : nat) (df : DataFrame)
    (r : gmap (list N) (list N)) (url : str) (e : exn) :
  r ∈ todo ->
  r !! link = Some url ->
  strip url <> [] ->
  is_pdf_url ok (PyStr url) = Raise e ->
  links_loop ok w link i todo df = Raise ValueError.
Proof.
  intros Hin Hl Hs Hc. revert i df.
  induction todo as [|r0 rest IH]; intros i df;
    [now apply elem_of_nil in Hin|].
  rewrite links_loop_cons.
  apply elem_of_cons in Hin as [<- | Hin].
  - unfold link_step. rewrite Hl.
    destruct (strip url); [congruence|]. rewrite Hc. now destruct e.
  - destruct (link_step ok w link i r0) as [f|[]]; [|reflexivity].
    now apply IH.
Qed.

(** X27. One link that the URL parser rejects, anywhere in the table, ends
    the download workflow with an exception after the sheet was read:
    the sheet is not updated and no local copy is written, whatever was
    downloaded for the rows before. *)
Theorem download_workflow_stops_on_bad_link (s : Sheets)
    (ok : str -> bool) (w : World) (link sheet_id : str) (df : DataFrame)
    (r : gmap (list N) (list N)) (url : str) (e : exn) :
  extract_sheet_id (config_url s) = Ok sheet_id ->
  values_get s = GotTable df ->
  df_empty df = false ->
  link ∈ columns df ->
  link <> COL_AVAILABLE -> link <> COL_ID -> link <> COL_PATH ->
  r ∈ rows df ->
  r !! link = Some url ->
  strip url <> [] ->
  is_pdf_url ok (PyStr url) = Raise e ->
  Workflow.process_sheet_with_pdf_download s ok w link
  = (Raised, [ValuesGet sheet_id (full_range s)]).
Proof.
  intros Eid Eg Ee Hin Ha Hi Hp Hr Hl Hs Hc.
  unfold Workflow.process_sheet_with_pdf_download.
  destruct (read_sheet_cases s) as [[E _] | (sid & E & ->)]; [congruence|].
  rewrite Eid in E. injection E as <-. rewrite Eg. cbn [w_bind]. rewrite Ee.
  assert (Hraise : process_links_and_download_pdfs ok w link df
                   = Raise ValueError).
  { unfold process_links_and_download_pdfs.
    destruct (decide (link ∈ columns df)); [|contradiction].
    apply (links_loop_raises ok w link _ 0 _ (fresh_row r) url e);
      [| |exact Hs|exact Hc].
    - cbn [set_column rows]. rewrite <- !list_fmap_compose.
      apply list_elem_of_fmap. exists r. split; [reflexivity | exact Hr].
    - now rewrite fresh_row_other. }
  rewrite Hraise. reflexivity.
Qed.

Lemma download_workflow_stops_on_bad_link_witness :
  let s := {| config_url :=
                lit "https://docs.google.com/spreadsheets/d/1AbC-_x9/edit";
              config_worksheet_name := lit "Sheet1";
              config_read_range := lit "A:Z";
              values_get :=
                GotTable {| columns := [LINK];
                            rows := [ {[ LINK := lit "http://[pdf" ]} ] |};
              values_update := true;
              to_csv := true |} in
  Workflow.process_sheet_with_pdf_download s (fun _ => true) sample_world LINK
  = (Raised, [ValuesGet (lit "1AbC-_x9") (lit "Sheet1!A:Z")]).
Proof.
  intros s.
  apply (download_workflow_stops_on_bad_link s (fun _ => true) sample_world
           LINK (lit "1AbC-_x9")
           {| columns := [LINK]; rows := [ {[ LINK := lit "http://[pdf" ]} ] |}
           {[ LINK := lit "http://[pdf" ]} (lit "http://[pdf") ValueError);
    try reflexivity; try discriminate.
  - apply list_elem_of_here.
  - apply list_elem_of_here.
Defined.

(** X28. The update of the sheet with the summaries never raises. It returns
    [True] only after it has read a table that is not empty, sent the
    merged table and written it to the local copy, in this order; the
    local copy is not even attempted unless the sheet took the update. *)
Theorem methodology_update_outcome (s : Sheets)
    (summaries : gmap (list N) (list N)) :
  exists b log,
    Workflow.update_google_sheet_with_methodology s summaries
    = (Returned b, log)
    /\ (b = true ->
          exists sheet_id range_name df0 df,
            values_get s = GotTable df0
            /\ update_google_sheet_with_methodology summaries df0 = Some df
            /\ log = [ValuesGet sheet_id (full_range s);
                      ValuesUpdate sheet_id range_name (sheet_data df);
                      ToCsv METHODOLOGY_CSV df])
    /\ (forall f d, ToCsv f d ∈ log ->
          values_update s = true
          /\ exists sheet_id range_name,
               ValuesUpdate sheet_id range_name (sheet_data d) ∈ log).
Proof.
  unfold Workflow.update_google_sheet_with_methodology.
  destruct (read_sheet_cases s) as [[_ ->] | (sheet_id & Eid & ->)].
  { cbn. eexists _, _. split; [reflexivity|]. split; [discriminate|].
    intros f d H. now apply elem_of_nil in H. }
  assert (Hnone : forall (l : list sheet_call),
            l = [ValuesGet sheet_id (full_range s)] ->
            (false = true ->
               exists sid range_name df0 df,
                 values_get s = GotTable df0
                 /\ update_google_sheet_with_methodology summaries df0 = Some df
                 /\ l = [ValuesGet sid (full_range s);
                         ValuesUpdate sid range_name (sheet_data df);
                         ToCsv METHODOLOGY_CSV df])
            /\ (forall f d, ToCsv f d ∈ l ->
                  values_update s = true
                  /\ exists sid range_name,
                       ValuesUpdate sid range_name (sheet_data d) ∈ l)).
  { intros l ->. split; [discriminate|]. intros f d H.
    apply list_elem_of_singleton in H. discriminate. }
  destruct (values_get s) as [df0| |] eqn:Eg; cbn [w_bind w_try w_ret app].
  2:{ change (update_google_sheet_with_methodology summaries EMPTY_FRAME)
        with (@None DataFrame). cbn [w_ret app].
      eexists _, _. split; [reflexivity|]. now apply Hnone. }
  2:{ eexists _, _. split; [reflexivity|]. now apply Hnone. }
  destruct (update_google_sheet_with_methodology summaries df0) as [df|] eqn:Em.
  2:{ cbn [w_ret app]. eexists _, _. split; [reflexivity|]. now apply Hnone. }
  rewrite (update_sheet_cases s df sheet_id Eid).
  unfold update_sheet_with_pdf_info.
  destruct (end_col df) as [col|].
  2:{ cbn [w_bind w_ret app]. eexists _, _. split; [reflexivity|].
      now apply Hnone. }
  cbn [w_bind].
  destruct (values_update s) eqn:Eu.
  - destruct (to_csv s); cbn [guard_ok w_call w_bind w_ret w_try app];
      eexists _, _; (split; [reflexivity|]); split.
    + intros _. exists sheet_id. eexists _, df0, df.
      split; [reflexivity|]. split; [exact Em | reflexivity].
    + intros f d H. split; [reflexivity|].
      apply elem_of_cons in H as [H|H]; [discriminate|].
      apply elem_of_cons in H as [H|H]; [discriminate|].
      apply list_elem_of_singleton in H. injection H as -> ->.
      exists sheet_id. eexists.
      apply list_elem_of_further, list_elem_of_here.
    + discriminate.
    + intros f d H. split; [reflexivity|].
      apply elem_of_cons in H as [H|H]; [discriminate|].
      apply elem_of_cons in H as [H|H]; [discriminate|].
      apply elem_of_cons in H as [H|H]; [|now apply elem_of_nil in H].
      injection H as -> ->.
      exists sheet_id. eexists.
      apply list_elem_of_further, list_elem_of_here.
  - cbn [w_ret w_try app]. eexists _, _. split; [reflexivity|].
    split; [discriminate|]. intros f d H.
    apply elem_of_cons in H as [H|H]; [discriminate|].
    apply list_elem_of_singleton in H. discriminate.
Qed.

Lemma methodology_update_outcome_witness :
  let s := {| config_url :=
                lit "https://docs.google.com/spreadsheets/d/1AbC-_x9/edit";
              config_worksheet_name := lit "Sheet1";
              config_read_range := lit "A:Z";
              values_get :=
                GotTable {| columns := [COL_ID];
                            rows := [ {[ COL_ID := lit "a1b2c3d4" ]} ] |};
              values_update := true;
              to_csv := true |} in
  exists sheet_id range_name df,
    snd (Workflow.update_google_sheet_with_methodology s
           {[ lit "a1b2c3d4" := lit "SUMMARY" ]})
    = [ValuesGet sheet_id (full_range s);
       ValuesUpdate sheet_id range_name (sheet_data df);
       ToCsv METHODOLOGY_CSV df].
Proof.
  intros s.
  destruct (methodology_update_outcome s {[ lit "a1b2c3d4" := lit "SUMMARY" ]})
    as (b & log & E & Htrue & _).
  assert (Hb : fst (Workflow.update_google_sheet_with_methodology s
                      {[ lit "a1b2c3d4" := lit "SUMMARY" ]})
               = Returned true) by (vm_compute; reflexivity).
  rewrite E in Hb |- *. cbn [fst snd] in Hb |- *. injection Hb as ->.
  destruct (Htrue eq_refl) as (sheet_id & range_name & df0 & df & _ & _ & ->).
  exists sheet_id, range_name, df. reflexivity.
Defined.

(** X29. A batch run touches the sheet exactly when the directory holds PDF
    files. Without the directory or without files it ends at once; with
    files, once every extraction has ended, the mapping is not empty and
    the update of the sheet is run with it, also when every extraction
    failed and the mapping holds nothing but the failure text. *)
Theorem batch_run_updates_sheet_iff_files (s : Sheets)
    (generate : str -> M (option str)) (dir_exists : bool)
    (pdf_files : list str) :
  (dir_exists = false \/ pdf_files = [] ->
     Workflow.run_batch_processing s generate dir_exists pdf_files
     = (Val tt, [], []))
  /\ (forall summaries calls,
        dir_exists = true -> pdf_files <> [] ->
        process_all_pdfs generate dir_exists pdf_files
        = (Val summaries, calls) ->
        summaries <> ∅
        /\ Workflow.run_batch_processing s generate dir_exists pdf_files
           = (Val tt, calls,
              snd (Workflow.update_google_sheet_with_methodology
                     s summaries))).
Proof.
  unfold Workflow.run_batch_processing. split.
  - intros [-> | ->]; [reflexivity|].
    unfold process_all_pdfs. now destruct dir_exists.
  - intros summaries calls -> Hne Hb.
    assert (Hs : summaries <> ∅).
    { destruct pdf_files as [|f0 rest]; [congruence|].
      unfold process_all_pdfs in Hb. cbn [negb] in Hb.
      apply batch_loop_inv in Hb as (_ & Hkeys & _).
      intros ->. specialize (Hkeys (stem f0)).
      rewrite lookup_empty in Hkeys.
      destruct (proj2 Hkeys) as [x Hx]; [|discriminate Hx].
      left. rewrite fmap_cons. apply list_elem_of_here. }
    split; [exact Hs|]. rewrite Hb.
    destruct (decide (summaries = ∅)); [contradiction | reflexivity].
Qed.

Lemma batch_run_updates_sheet_iff_files_witness :
  let s := {| config_url :=
                lit "https://docs.google.com/spreadsheets/d/1AbC-_x9/edit";
              config_worksheet_name := lit "Sheet1";
              config_read_range := lit "A:Z";
              values_get := GetHttpError;
              values_update := true;
              to_csv := true |} in
  let generate := fun _ : str => (Val (@None (list N)), [] : list call) in
  Workflow.run_batch_processing s generate true [lit "a1b2c3d4.pdf"]
  = (Val tt, [], [ValuesGet (lit "1AbC-_x9") (lit "Sheet1!A:Z")]).
Proof.
  intros s generate.
  destruct (batch_run_updates_sheet_iff_files s generate true
              [lit "a1b2c3d4.pdf"]) as [_ H].
  destruct (H {[ lit "a1b2c3d4" := FAILED_SUMMARY ]} [] eq_refl)
    as [_ E]; [discriminate | reflexivity|].
  rewrite E. reflexivity.
Defined.
